(** * Legoble rule engine: the Rule class of [lego-rule-engine/src/rule.ts]

    A shallow embedding of [Rule] (configuration, priority tiers, the
    recursive tiered evaluator and result emission) and the properties of
    the specification that are stated about it.

    Conventions of the embedding.
    - A JavaScript number is an integer [Z] or [NaN]; fractions and the
      loss of precision of large doubles are outside the model.
    - A synchronous call completes normally or throws ([Completion]); a
      promise settles as resolved or rejected ([Settled]).
    - A method that mutates [this] maps the receiver to the receiver after
      the call, paired with the completion of the call.
    - What a function value does when it is called is given from outside:
      [Functions] for a call with values, [Listening] for a listener that
      [emit] calls.  A call returns or throws; whatever else a called
      function may do is outside the model.
    - The effects of an evaluation (facts asked of the almanac, fields
      written on condition objects, listeners notified) are collected in a
      trace, in the order in which a member-by-member run of each tier
      produces them; the interleaving of the members of one tier is not
      represented. *)

From Stdlib Require Import ZArith List String Ascii Bool Lia.
From Stdlib Require Import Sorted Permutation.
Import ListNotations.

Set Warnings "-register-all".

Local Open Scope string_scope.
Local Open Scope list_scope.
Local Open Scope Z_scope.

(* ===================================================================== *)
(** * Part I. Definitions *)
(* ===================================================================== *)

(** ** The JavaScript runtime the class relies on *)

Module JS.

(** A number: an integer or NaN. *)
Inductive Number :=
| Int (z : Z)
| NaN.

(** Values that travel through definitions, facts and events. *)
Inductive Value :=
| Undefined
| Null
| Bool (b : bool)
| Num (n : Number)
| Str (s : string)
| Arr (items : list Value)
| Obj (props : list (string * Value))
| Fun (id : nat).

(** An error object: its class name, message and optional [code]. *)
Record Error := mkError {
  name : string;
  message : string;
  code : option string
}.

(** Result of a synchronous call. *)
Inductive Completion (A : Type) :=
| Normal (a : A)
| Thrown (e : Error).
Arguments Normal {A} a.
Arguments Thrown {A} e.

(** Final state of a promise. *)
Inductive Settled (A : Type) :=
| Resolved (a : A)
| Rejected (e : Error).
Arguments Resolved {A} a.
Arguments Rejected {A} e.

(** [new Error(msg)] *)
Definition newError (msg : string) : Error := mkError "Error" msg None.

(** The error of reading a property of [undefined] or [null], and of
    handing a non-function to [EventEmitter.on]. *)
Definition newTypeError (msg : string) : Error := mkError "TypeError" msg None.

(** ToBoolean. *)
Definition truthy (v : Value) : bool :=
  match v with
  | Undefined | Null => false
  | Bool b => b
  | Num (Int z) => negb (z =? 0)
  | Num NaN => false
  | Str s => negb (String.eqb s "")
  | Arr _ | Obj _ | Fun _ => true
  end.

(** [a && b] and [a || b] on values. *)
Definition and (a b : Value) : Value := if truthy a then b else a.
Definition or (a b : Value) : Value := if truthy a then a else b.

(** Whether [k] is a property of the object's own: what the method
    [hasOwnProperty] that objects inherit answers. *)
Fixpoint hasKey (k : string) (props : list (string * Value)) : bool :=
  match props with
  | [] => false
  | (k', _) :: rest => if String.eqb k k' then true else hasKey k rest
  end.

Definition hasOwnProperty (v : Value) (k : string) : bool :=
  match v with
  | Obj props => hasKey k props
  | _ => false
  end.

(** [o.k]: the property, or [undefined] when it is absent. *)
Fixpoint lookup (k : string) (props : list (string * Value)) : Value :=
  match props with
  | [] => Undefined
  | (k', v) :: rest => if String.eqb k k' then v else lookup k rest
  end.

Definition get (v : Value) (k : string) : Value :=
  match v with
  | Obj props => lookup k props
  | _ => Undefined
  end.

(** What a call of a function value does, given the function, the
    receiver and the arguments: it returns a value or throws.  Whatever
    else a called function may do is outside the model. *)
Definition Functions := nat -> Value -> list Value -> Completion Value.

(** [o.hasOwnProperty(k)] as the method call that it is; [name] is how
    the source calls [o].  An own property [hasOwnProperty] of [o] shadows
    the method that objects inherit: it is called when it is a function,
    and the call fails when it is not.  On [undefined] and [null] the
    property read fails. *)
Definition callHasOwnProperty (call : Functions) (name : string) (o : Value) (k : string)
  : Completion Value :=
  match o with
  | Undefined | Null => Thrown (newTypeError "Cannot read properties of undefined")
  | Obj props =>
      if hasKey "hasOwnProperty" props then
        match lookup "hasOwnProperty" props with
        | Fun f => call f o [Str k]
        | _ => Thrown (newTypeError (name ++ ".hasOwnProperty is not a function"))
        end
      else Normal (Bool (hasKey k props))
  | _ => Normal (Bool false)
  end.

(** [Array.prototype.every] and [Array.prototype.some] under the callback
    [result => result === true]. *)
Definition every (results : list bool) : bool := forallb (fun result => result) results.
Definition some (results : list bool) : bool := existsb (fun result => result) results.

(** [Array.prototype.sort(comparefn)] on integer-valued keys, as an
    insertion sort: [a] is placed before [b] when [comparefn a b < 0]. *)
Fixpoint sortInsert (comparefn : Z -> Z -> Z) (a : Z) (sorted : list Z) : list Z :=
  match sorted with
  | [] => [a]
  | b :: rest =>
      if comparefn a b <? 0 then a :: b :: rest
      else b :: sortInsert comparefn a rest
  end.

Definition sort (comparefn : Z -> Z -> Z) (keys : list Z) : list Z :=
  fold_right (sortInsert comparefn) [] keys.

(** *** [parseInt(string, 10)] *)

Definition isWhiteSpace (c : ascii) : bool :=
  let n := nat_of_ascii c in
  ((9 <=? n) && (n <=? 13))%nat || (n =? 32)%nat.

Definition digit (c : ascii) : option Z :=
  let n := nat_of_ascii c in
  if ((48 <=? n) && (n <=? 57))%nat then Some (Z.of_nat n - 48) else None.

Fixpoint skipWhiteSpace (s : string) : string :=
  match s with
  | String c rest => if isWhiteSpace c then skipWhiteSpace rest else s
  | EmptyString => s
  end.

(** The value of the longest prefix of decimal digits, after [acc]. *)
Fixpoint digits (acc : Z) (s : string) : Z :=
  match s with
  | String c rest =>
      match digit c with
      | Some d => digits (10 * acc + d) rest
      | None => acc
      end
  | EmptyString => acc
  end.

Definition startsWithDigit (s : string) : bool :=
  match s with
  | String c _ => match digit c with Some _ => true | None => false end
  | EmptyString => false
  end.

Definition parseIntString (s : string) : Number :=
  let s := skipWhiteSpace s in
  let '(sign, s) :=
    match s with
    | String "-"%char rest => (-1, rest)
    | String "+"%char rest => (1, rest)
    | _ => (1, s)
    end in
  if startsWithDigit s then Int (sign * digits 0 s) else NaN.

(** [parseInt(v, 10)]: the argument is first converted to a string.  An
    integer prints as its decimal digits, which parse back to it (from
    10^21 on a number prints with an exponent; such numbers are outside
    the model); the strings of [NaN], [undefined], [null], booleans, plain
    objects and functions begin with no digit; an array prints its
    elements separated by commas, so only its first element (empty for
    [null] and [undefined]) is read. *)
Fixpoint parseInt (v : Value) : Number :=
  match v with
  | Str s => parseIntString s
  | Num (Int z) => Int z
  | Num NaN => NaN
  | Arr (Undefined :: _) | Arr (Null :: _) | Arr [] => NaN
  | Arr (first :: _) => parseInt first
  | Undefined | Null | Bool _ | Obj _ | Fun _ => NaN
  end.

(** [n <= 0] on numbers: false when [n] is NaN. *)
Definition leZero (n : Number) : bool :=
  match n with
  | Int z => z <=? 0
  | NaN => false
  end.

(** *** JSON *)

(** A JSON text, kept as the document it denotes; its lexical form is
    not represented. *)
Inductive Json :=
| JNull
| JBool (b : bool)
| JNum (z : Z)
| JStr (s : string)
| JArr (items : list Json)
| JObj (members : list (string * Json)).

(** [JSON.parse(text)] *)
Fixpoint parse (text : Json) : Value :=
  match text with
  | JNull => Null
  | JBool b => Bool b
  | JNum z => Num (Int z)
  | JStr s => Str s
  | JArr items => Arr (map parse items)
  | JObj members => Obj (map (fun m => (fst m, parse (snd m))) members)
  end.

(** [JSON.stringify(v)] on plain data: [None] when the result is
    [undefined].  A property holding [undefined] or a function is left
    out, such an array element becomes [null], and so does NaN. *)
Fixpoint stringify (v : Value) : option Json :=
  match v with
  | Undefined | Fun _ => None
  | Null => Some JNull
  | Bool b => Some (JBool b)
  | Num (Int z) => Some (JNum z)
  | Num NaN => Some JNull
  | Str s => Some (JStr s)
  | Arr items =>
      Some (JArr (map (fun item => match stringify item with
                                   | Some j => j
                                   | None => JNull
                                   end) items))
  | Obj props =>
      Some (JObj ((fix members (props : list (string * Value)) : list (string * Json) :=
                     match props with
                     | [] => []
                     | (k, x) :: rest =>
                         match stringify x with
                         | Some j => (k, j) :: members rest
                         | None => members rest
                         end
                     end) props))
  end.

End JS.

Import JS.

(** The double quote, for messages that quote a word. *)
Definition dq : string := String (ascii_of_nat 34) EmptyString.

(** ** The engine and the almanac *)

(** A registered fact; only its priority is read here. *)
Record Fact := mkFact { Fact_priority : Z }.

(** A comparator: applied to the resolved and the expected value, it
    answers or throws. *)
Definition Operator := Value -> Value -> Completion bool.

(** Modelled from the spec: the registry of [engine.ts], which is not among
    the sources: a fact lookup by name, a comparator lookup by name and the
    [allowUndefinedFacts] flag. *)
Record Engine := mkEngine {
  facts : string -> option Fact;
  operators : string -> option Operator;
  allowUndefinedFacts : bool
}.

(** [engine.getFact(factId)]; the id of a boolean node is [undefined],
    which names no fact. *)
Definition getFact (engine : Engine) (factId : option string) : option Fact :=
  match factId with
  | Some f => facts engine f
  | None => None
  end.

(** Modelled from the spec: the fact store of [almanac.ts], which is not
    among the sources: a fact name resolves to a value or fails, with the
    code [UNDEFINED_FACT] when the fact is unknown. *)
Definition Almanac := string -> Settled Value.

Definition UNDEFINED_FACT : string := "UNDEFINED_FACT".

(** [err.code === 'UNDEFINED_FACT'] *)
Definition isUndefinedFact (err : Error) : bool :=
  match code err with
  | Some c => String.eqb c UNDEFINED_FACT
  | None => false
  end.

(** ** Condition nodes *)

Inductive BooleanOperator := All | Any.

Module Condition.

(** Modelled from the spec: the Condition node of [condition.ts], which is
    not among the sources.  A node is a boolean node (operator, ordered
    children, optional priority) or a leaf (fact, comparator name, expected
    value, optional priority).  The fields [result] and [factResult] that
    an evaluation writes on a node appear as effects of the evaluation. *)
Inductive t :=
| Leaf (fact : string) (operator : string) (value : Value) (priority : option Z)
| Boolean (operator : BooleanOperator) (children : list t) (priority : option Z).

(** [condition.priority] *)
Definition priority (c : t) : option Z :=
  match c with
  | Leaf _ _ _ p => p
  | Boolean _ _ p => p
  end.

(** [condition.fact]: a boolean node carries no fact. *)
Definition fact (c : t) : option string :=
  match c with
  | Leaf f _ _ _ => Some f
  | Boolean _ _ _ => None
  end.

(** [condition.isBooleanOperator()] *)
Definition isBooleanOperator (c : t) : bool :=
  match c with
  | Leaf _ _ _ _ => false
  | Boolean _ _ _ => true
  end.

(** Nesting depth of a condition tree. *)
Fixpoint depth (c : t) : nat :=
  match c with
  | Leaf _ _ _ _ => 0%nat
  | Boolean _ children _ =>
      S ((fix depths (l : list t) : nat :=
            match l with
            | [] => 0%nat
            | c' :: l' => Nat.max (depth c') (depths l')
            end) children)
  end.

(** The [priority] property of a definition: an integer, or absent. *)
Definition readPriority (v : Value) : option Z :=
  match v with
  | Num (Int z) => Some z
  | _ => None
  end.

(** Modelled from the spec: the constructor of [condition.ts].  A
    definition with an [any] or an [all] array is a boolean node over the
    nodes of the array elements ([any] is looked at first, as
    [Rule.evaluate] does); any other object is a leaf and needs a [fact]
    and an [operator] name and a [value]. *)
Fixpoint new (properties : Value) : Completion t :=
  match properties with
  | Obj props =>
      let subConditions := fun (key : string) =>
        (fix scan (ps : list (string * Value)) : option (Completion (list t)) :=
           match ps with
           | [] => None
           | (k, x) :: rest =>
               if String.eqb key k then
                 Some match x with
                      | Arr items =>
                          (fix each (l : list Value) : Completion (list t) :=
                             match l with
                             | [] => Normal []
                             | item :: l' =>
                                 match new item with
                                 | Thrown e => Thrown e
                                 | Normal c =>
                                     match each l' with
                                     | Thrown e => Thrown e
                                     | Normal cs => Normal (c :: cs)
                                     end
                                 end
                             end) items
                      | _ => Thrown (newError (key ++ " must be an array"))
                      end
               else scan rest
           end) props in
      let priority := readPriority (lookup "priority" props) in
      match subConditions "any" with
      | Some (Thrown e) => Thrown e
      | Some (Normal children) => Normal (Boolean Any children priority)
      | None =>
          match subConditions "all" with
          | Some (Thrown e) => Thrown e
          | Some (Normal children) => Normal (Boolean All children priority)
          | None =>
              match lookup "fact" props, lookup "operator" props with
              | Str f, Str o =>
                  if hasKey "value" props
                  then Normal (Leaf f o (lookup "value" props) priority)
                  else Thrown (newError "Condition: constructor value property required")
              | _, _ =>
                  Thrown (newError "Condition: constructor fact and operator required")
              end
          end
      end
  | _ => Thrown (newError "Condition: constructor options required")
  end.

Definition priorityProperty (p : option Z) : list (string * Value) :=
  match p with
  | Some z => [("priority", Num (Int z))]
  | None => []
  end.

(** Modelled from the spec: [toJSON(false)] of [condition.ts], the node
    rendered back to the shape of its definition, children likewise. *)
Fixpoint toJSON (c : t) : Value :=
  match c with
  | Leaf f o v p =>
      Obj ([("fact", Str f); ("operator", Str o); ("value", v)] ++ priorityProperty p)
  | Boolean All children p =>
      Obj (("all", Arr (map toJSON children)) :: priorityProperty p)
  | Boolean Any children p =>
      Obj (("any", Arr (map toJSON children)) :: priorityProperty p)
  end.

(** What [condition.evaluate] resolves with. *)
Record EvaluationResult := mkEvaluationResult {
  result : bool;
  leftHandSideValue : Value
}.

(** Modelled from the spec: [evaluate(almanac, operators)] of
    [condition.ts] on a leaf: the fact is resolved through the almanac,
    then the named comparator is applied to the resolved and the expected
    value.  A failed resolution, an unknown comparator and a comparator
    that throws reject the promise. *)
Definition evaluate (fact operator : string) (value : Value)
    (almanac : Almanac) (operators : string -> option Operator)
  : Settled EvaluationResult :=
  match almanac fact with
  | Rejected err => Rejected err
  | Resolved leftHandSideValue =>
      match operators operator with
      | None => Rejected (newError ("Unknown operator: " ++ operator))
      | Some op =>
          match op leftHandSideValue value with
          | Thrown err => Rejected err
          | Normal passes => Resolved (mkEvaluationResult passes leftHandSideValue)
          end
      end
  end.

End Condition.

(** ** Listeners and events *)

(** The event of a rule: its [type] and, when given, its [params]. *)
Record Action := mkAction {
  Action_type : Value;
  Action_params : option Value
}.

(** The registrations of an [EventEmitter], oldest first: the event name
    and the listener. *)
Definition Listeners := list (string * nat).

(** ** The result of one evaluation *)

Module RuleResult.

(** Modelled from the spec: the report of [rule-result.ts], which is not
    among the sources: the condition tree, the event and the priority of
    the rule, and the outcome once [setResult] has stored it. *)
Record t := mk {
  conditions : Condition.t;
  event : option Action;
  priority : option Number;
  result : option bool
}.

(** [new RuleResult(conditions, event, priority)] *)
Definition new (conditions : Condition.t) (event : option Action) (priority : option Number) : t :=
  mk conditions event priority None.

(** [ruleResult.setResult(result)] *)
Definition setResult (result : option bool) (r : t) : t :=
  mk (conditions r) (event r) (priority r) result.

End RuleResult.

(** What a listener does when [emit] calls it with the event, the almanac
    and the report: it returns or throws. *)
Definition Listening := nat -> option Action -> Almanac -> RuleResult.t -> Completion unit.

(** What an evaluation does besides computing its answer. *)
Inductive Effect :=
| FactValue (fact : string)
    (* the almanac is asked for a fact *)
| SetFactResult (condition : Condition.t) (factResult : Value)
    (* [condition.factResult = ...] *)
| SetResult (condition : Condition.t) (result : bool)
    (* [condition.result = ...] *)
| Notified (eventName : string) (listener : nat)
           (event : option Action) (ruleResult : RuleResult.t).
    (* a listener is called by [emit] *)

Definition Trace := list Effect.

(** Equality of numbers, values and nodes can be decided. *)
Definition Number_eq_dec (a b : Number) : {a = b} + {a <> b}.
Proof. decide equality. apply Z.eq_dec. Defined.

Definition Value_eq_dec : forall a b : Value, {a = b} + {a <> b}.
Proof.
  fix IH 1. intros a b. decide equality.
  - apply Bool.bool_dec.
  - apply Number_eq_dec.
  - apply string_dec.
  - apply list_eq_dec. exact IH.
  - apply list_eq_dec. intros [k x] [l y].
    destruct (string_dec k l) as [->|Hk]; [|right; congruence].
    destruct (IH x y) as [->|Hx]; [left; reflexivity | right; congruence].
  - apply Nat.eq_dec.
Defined.

Definition Condition_eq_dec : forall a b : Condition.t, {a = b} + {a <> b}.
Proof.
  fix IH 1. intros a b. decide equality;
    try (decide equality; apply Z.eq_dec); try apply string_dec; try apply Value_eq_dec.
Defined.

(** The fields that evaluations write on a condition object: [result]
    and [factResult], [None] while they are [undefined]. *)
Record Annotation := mkAnnotation {
  Annotation_result : option bool;
  Annotation_factResult : option Value
}.

(** The annotations of the nodes of a tree.  Nodes are told apart by
    their content. *)
Definition Annotations := Condition.t -> Annotation.

(** No node has been annotated yet. *)
Definition unannotated : Annotations := fun _ => mkAnnotation None None.

(** The annotations after one effect. *)
Definition write (store : Annotations) (effect : Effect) : Annotations :=
  match effect with
  | SetResult condition result =>
      fun c => if Condition_eq_dec c condition
               then mkAnnotation (Some result) (Annotation_factResult (store c))
               else store c
  | SetFactResult condition factResult =>
      fun c => if Condition_eq_dec c condition
               then mkAnnotation (Annotation_result (store c)) (Some factResult)
               else store c
  | FactValue _ | Notified _ _ _ _ => store
  end.

(** The annotations once all the effects of an evaluation have taken
    place. *)
Definition annotationsAfter (effects : Trace) (before : Annotations) : Annotations :=
  fold_left write effects before.

(** [Promise.all]: the results in order, or the rejection of the first
    member that rejects. *)
Fixpoint Promise_all {A : Type} (promises : list (Settled A)) : Settled (list A) :=
  match promises with
  | [] => Resolved []
  | Rejected err :: _ => Rejected err
  | Resolved a :: rest =>
      match Promise_all rest with
      | Rejected err => Rejected err
      | Resolved results => Resolved (a :: results)
      end
  end.

(** ** The Rule class *)

Module Rule.

(** The fields of a Rule and the listeners of its [EventEmitter]. *)
Record t := mk {
  priority : option Number;
  conditions : option Condition.t;
  event : option Action;
  engine : option Engine;
  listeners : Listeners
}.

(** The object as [super()] leaves it. *)
Definition empty : t := mk None None None None [].

(** A method: the receiver after the call and how the call completed;
    [Normal tt] is the return of [this]. *)
Definition Method := t -> t * Completion unit.

Definition returnThis : Method := fun this => (this, Normal tt).

Definition throw (e : Error) : Method := fun this => (this, Thrown e).

(** One statement after the other; a throw ends the sequence. *)
Definition andThen (first next : Method) : Method :=
  fun this =>
    match first this with
    | (this', Normal _) => next this'
    | (this', Thrown e) => (this', Thrown e)
    end.

Notation "a ;; b" := (andThen a b) (at level 61, right associativity).

Section Calls.

(** What the functions met in definitions and events do when called. *)
Variable call : Functions.

(** [setPriority(priority)] *)
Definition setPriority (priority : Value) : Method :=
  fun this =>
    let priority := parseInt priority in
    if leZero priority then throw (newError "Priority must be greater than zero") this
    else (mk (Some priority) (conditions this) (event this) (engine this) (listeners this),
          Normal tt).

(** The message of the guard of [setConditions]. *)
Definition rootMessage : string :=
  dq ++ "conditions" ++ dq ++ " root must contain a single instance of "
     ++ dq ++ "all" ++ dq ++ " or " ++ dq ++ "any" ++ dq.

(** [setConditions(conditions)]: the guard
    [!conditions.hasOwnProperty('all') && !conditions.hasOwnProperty('any')]
    calls the method once or twice; a call that throws ends
    [setConditions]. *)
Definition setConditions (conditions : Value) : Method :=
  fun this =>
    let construct :=
      match Condition.new conditions with
      | Thrown e => throw e this
      | Normal c =>
          (mk (priority this) (Some c) (event this) (engine this) (listeners this),
           Normal tt)
      end in
    match callHasOwnProperty call "conditions" conditions "all" with
    | Thrown e => throw e this
    | Normal hasAll =>
        if negb (truthy hasAll) then
          match callHasOwnProperty call "conditions" conditions "any" with
          | Thrown e => throw e this
          | Normal hasAny =>
              if negb (truthy hasAny) then throw (newError rootMessage) this
              else construct
          end
        else construct
    end.

(** [setEvent(event)] *)
Definition setEvent (event : Value) : Method :=
  fun this =>
    if negb (truthy event)
    then throw (newError "Rule: setEvent() requires event object") this
    else
      match callHasOwnProperty call "event" event "type" with
      | Thrown e => throw e this
      | Normal hasType =>
          if negb (truthy hasType)
          then throw (newError ("Rule: setEvent() requires event object with "
                                  ++ dq ++ "type" ++ dq ++ " property")) this
          else
            let stored := mkAction (get event "type") None in
            let stored := if truthy (get event "params")
                          then mkAction (Action_type stored) (Some (get event "params"))
                          else stored in
            (mk (priority this) (conditions this) (Some stored) (engine this)
                (listeners this),
             Normal tt)
      end.

(** [setEngine(engine)] *)
Definition setEngine (e : Engine) : Method :=
  fun this =>
    (mk (priority this) (conditions this) (event this) (Some e) (listeners this), Normal tt).

(** [this.on(eventName, listener)] of [EventEmitter]: the listener is
    appended; a listener that is not a function is refused. *)
Definition on (eventName : string) (listener : Value) : Method :=
  fun this =>
    match listener with
    | Fun id =>
        (mk (priority this) (conditions this) (event this) (engine this)
            (listeners this ++ [(eventName, id)]),
         Normal tt)
    | _ => throw (newTypeError "The listener argument must be of type function") this
    end.

(** The argument of the constructor: a string, read as JSON text and
    always given as [OfString], or an object. *)
Inductive Options :=
| OfString (text : Json)
| OfValue (options : Value).

(** [if (cond) body] *)
Definition when (cond : bool) (body : Method) : Method :=
  if cond then body else returnThis.

(** [new Rule(options)]: the object when the constructor ends and how it
    ended. *)
Definition new (options : Options) : t * Completion unit :=
  let scopedOptions :=
    match options with
    | OfString text => parse text
    | OfValue options => options
    end in
  ( when (truthy (JS.and scopedOptions (get scopedOptions "conditions")))
      (setConditions (get scopedOptions "conditions")) ;;
    when (truthy (JS.and scopedOptions (get scopedOptions "onSuccess")))
      (on "success" (get scopedOptions "onSuccess")) ;;
    when (truthy (JS.and scopedOptions (get scopedOptions "onFailure")))
      (on "failure" (get scopedOptions "onFailure")) ;;
    (fun this =>
       let priority := JS.or (JS.and scopedOptions (get scopedOptions "priority")) (Num (Int 1)) in
       setPriority priority this) ;;
    (fun this =>
       let event := JS.or (JS.and scopedOptions (get scopedOptions "event"))
                          (Obj [("type", Str "unknown")]) in
       setEvent event this)
  ) empty.

End Calls.

(** The stored event as a plain object. *)
Definition actionValue (a : Action) : Value :=
  Obj (("type", Action_type a)
       :: match Action_params a with
          | Some p => [("params", p)]
          | None => []
          end).

(** What [toJSON] returns: the text, or the properties themselves. *)
Inductive Serialized :=
| Text (json : Json)
| Props (props : Value).

(** [toJSON(stringify = true)] *)
Definition toJSON (stringify : bool) (this : t) : Serialized :=
  let props :=
    Obj [("conditions", match conditions this with
                        | Some c => Condition.toJSON c
                        | None => Null
                        end);
         ("priority", match priority this with
                      | Some n => Num n
                      | None => Undefined
                      end);
         ("event", match event this with
                   | Some a => actionValue a
                   | None => Undefined
                   end)] in
  if stringify then
    match JS.stringify props with
    | Some text => Text text
    | None => Props Undefined
    end
  else Props props.

(** *** Priority tiers: [prioritizeConditions] *)

(** The accumulator object [sets] of the reducer: its own properties in
    creation order.  The property key [String(p)] of an integer priority
    [p] is represented by [p] itself, [Number(key)] by the same [p]. *)
Definition FactSets := list (Z * list Condition.t).

(** [sets[priority]]: [None] stands for [undefined]. *)
Fixpoint sets_get (sets : FactSets) (priority : Z) : option (list Condition.t) :=
  match sets with
  | [] => None
  | (p, l) :: rest => if p =? priority then Some l else sets_get rest priority
  end.

(** [sets[priority] = []] for a key that is not yet an own property. *)
Definition sets_create (sets : FactSets) (priority : Z) : FactSets :=
  sets ++ [(priority, [])].

(** [sets[priority].push(condition)] *)
Fixpoint sets_push (sets : FactSets) (priority : Z) (condition : Condition.t) : FactSets :=
  match sets with
  | [] => []
  | (p, l) :: rest =>
      if p =? priority then (p, l ++ [condition]) :: rest
      else (p, l) :: sets_push rest priority condition
  end.

(** A key that is an array index ([0 .. 2^32 - 2]) is enumerated before
    the other keys, in ascending numeric order. *)
Definition isArrayIndex (key : Z) : bool :=
  (0 <=? key) && (key <? 4294967295).

(** [Object.keys(sets)]: the array-index keys ascending, then the other
    keys in creation order. *)
Definition Object_keys (sets : FactSets) : list Z :=
  let keys := map fst sets in
  JS.sort (fun a b => if a <? b then -1 else 1) (filter isArrayIndex keys)
  ++ filter (fun k => negb (isArrayIndex k)) keys.

(** The priority under which the reducer files a condition: its own
    [priority] unless that is falsy ([undefined] or [0]); else the
    priority of its fact in the engine, unless there is no engine, no
    such fact, or that priority is falsy; else [1]. *)
Definition tierPriority (engine : option Engine) (condition : Condition.t) : Z :=
  let ofFact :=
    let fact := match engine with
                | Some e => getFact e (Condition.fact condition)
                | None => None
                end in
    match fact with
    | Some f => if Fact_priority f =? 0 then 1 else Fact_priority f
    | None => 1
    end in
  match Condition.priority condition with
  | Some priority => if priority =? 0 then ofFact else priority
  | None => ofFact
  end.

(** The comparator of the sort: [Number(a) > Number(b) ? -1 : 1]. *)
Definition highestFirst (a b : Z) : Z := if a >? b then -1 else 1.

(** The reducer of [prioritizeConditions]. *)
Definition prioritizeStep (engine : option Engine) (sets : FactSets) (condition : Condition.t)
  : FactSets :=
  let priority := tierPriority engine condition in
  let sets := match sets_get sets priority with
              | None => sets_create sets priority
              | Some _ => sets
              end in
  sets_push sets priority condition.

(** [prioritizeConditions(conditions)]: the conditions grouped by
    priority, the groups listed from the highest priority to the lowest. *)
Definition prioritizeConditions (this : t) (conditions : list Condition.t)
  : list (list Condition.t) :=
  let factSets := fold_left (prioritizeStep (engine this)) conditions [] in
  map (fun priority => match sets_get factSets priority with
                       | Some set => set
                       | None => []
                       end)
      (JS.sort highestFirst (Object_keys factSets)).

(** *** [evaluate(almanac)] *)

(** [setResult === true] and [setResult === false] on a value that is a
    boolean or [null]. *)
Definition isTrue (v : option bool) : bool :=
  match v with Some true => true | _ => false end.

Definition isFalse (v : option bool) : bool :=
  match v with Some false => true | _ => false end.

Definition isAll (operator : BooleanOperator) : bool :=
  match operator with All => true | Any => false end.

Definition isAny (operator : BooleanOperator) : bool :=
  match operator with Any => true | All => false end.

(** What a call of [evaluateCondition] amounts to: it throws, or returns
    a promise that settles, and the effects it has in the end. *)
Definition Outcome := (Completion (Settled bool) * Trace)%type.

Section Evaluate.

(** What the listeners do when called. *)
Variable listen : Listening.

Variable this : t.
Variable almanac : Almanac.

(** The leaf branch of [evaluateCondition]. *)
Definition evaluateLeaf (condition : Condition.t) (fact operator : string) (value : Value)
  : Outcome :=
  match engine this with
  | None => (Thrown (newTypeError "Cannot read properties of undefined"), [])
  | Some e =>
      match Condition.evaluate fact operator value almanac (operators e) with
      | Resolved evaluationResult =>
          let passes := Condition.result evaluationResult in
          (Normal (Resolved passes),
           [FactValue fact;
            SetFactResult condition (Condition.leftHandSideValue evaluationResult);
            SetResult condition passes])
      | Rejected err =>
          if allowUndefinedFacts e && isUndefinedFact err
          then (Normal (Resolved false), [FactValue fact])
          else (Normal (Rejected err), [FactValue fact])
      end
  end.

Section Tiers.

(** The recursive call, to be supplied. *)
Variable evaluateCondition : Condition.t -> option Outcome.

(** [conditions.map(condition => evaluateCondition(condition))]: a call
    that throws ends the mapping. *)
Fixpoint mapEvaluate (conditions : list Condition.t)
  : option (Completion (list (Settled bool)) * Trace) :=
  match conditions with
  | [] => Some (Normal [], [])
  | condition :: rest =>
      match evaluateCondition condition with
      | None => None
      | Some (Thrown err, effects) => Some (Thrown err, effects)
      | Some (Normal promise, effects) =>
          match mapEvaluate rest with
          | None => None
          | Some (Thrown err, effects') => Some (Thrown err, effects ++ effects')
          | Some (Normal promises, effects') =>
              Some (Normal (promise :: promises), effects ++ effects')
          end
      end
  end.

(** [evaluateConditions(conditions, arrConditionMethod)]; its argument is
    always an array here, a tier of [prioritizeConditions]. *)
Definition evaluateConditions (conditions : list Condition.t)
    (arrConditionMethod : list bool -> bool)
  : option (Completion (Settled bool) * Trace) :=
  match mapEvaluate conditions with
  | None => None
  | Some (Thrown err, effects) => Some (Thrown err, effects)
  | Some (Normal promises, effects) =>
      match Promise_all promises with
      | Rejected err => Some (Normal (Rejected err), effects)
      | Resolved conditionResults =>
          Some (Normal (Resolved (arrConditionMethod conditionResults)), effects)
      end
  end.

(** The state of [cursor]: the promise and the effects so far. *)
Definition Cursor := (Settled (option bool) * Trace)%type.

(** One round of [orderedSets.forEach]: [cursor = cursor.then(...)]. *)
Definition runSet (operator : BooleanOperator) (method : list bool -> bool)
    (cursor : option Cursor) (set : list Condition.t) : option Cursor :=
  match cursor with
  | None => None
  | Some (Rejected err, effects) => Some (Rejected err, effects)
  | Some (Resolved setResult, effects) =>
      let stop := false in
      if (isAny operator && isTrue setResult) || stop then
        Some (Resolved (Some true), effects)
      else if (isAll operator && isFalse setResult) || stop then
        Some (Resolved (Some false), effects)
      else
        match evaluateConditions set method with
        | None => None
        | Some (Thrown err, effects') => Some (Rejected err, effects ++ effects')
        | Some (Normal (Rejected err), effects') => Some (Rejected err, effects ++ effects')
        | Some (Normal (Resolved passes), effects') =>
            Some (Resolved (Some passes), effects ++ effects')
        end
  end.

(** [prioritizeAndRun(conditions, operator)] *)
Definition prioritizeAndRun (conditions : list Condition.t) (operator : BooleanOperator)
  : option Cursor :=
  match conditions with
  | [] => Some (Resolved (Some true), [])
  | _ =>
      let method := if isAll operator then JS.every else JS.some in
      let orderedSets := prioritizeConditions this conditions in
      let cursor := Some (Resolved None, []) in
      fold_left (runSet operator method) orderedSets cursor
  end.

Definition anyOperation (conditions : list Condition.t) : option Cursor :=
  prioritizeAndRun conditions Any.

Definition allOperation (conditions : list Condition.t) : option Cursor :=
  prioritizeAndRun conditions All.

(** The boolean branch of [evaluateCondition]. *)
Definition evaluateBoolean (condition : Condition.t) (operator : BooleanOperator)
    (subConditions : list Condition.t) : option Outcome :=
  let comparisonPromise :=
    match operator with
    | All => allOperation subConditions
    | Any => anyOperation subConditions
    end in
  match comparisonPromise with
  | None => None
  | Some (Rejected err, effects) => Some (Normal (Rejected err), effects)
  | Some (Resolved comparisonValue, effects) =>
      let passes := isTrue comparisonValue in
      Some (Normal (Resolved passes), effects ++ [SetResult condition passes])
  end.

End Tiers.

(** [evaluateCondition(condition)]; [fuel] bounds the nesting that is
    followed, and [None] is the answer when it does not suffice. *)
Fixpoint evaluateCondition (fuel : nat) (condition : Condition.t) : option Outcome :=
  match fuel with
  | O => None
  | S fuel' =>
      match condition with
      | Condition.Boolean operator subConditions _ =>
          evaluateBoolean (evaluateCondition fuel') condition operator subConditions
      | Condition.Leaf fact operator value _ =>
          Some (evaluateLeaf condition fact operator value)
      end
  end.

(** The listeners registered under a name, oldest first. *)
Definition registered (eventName : string) : list nat :=
  map snd (filter (fun registration => String.eqb (fst registration) eventName)
                  (listeners this)).

(** The listeners are called one after the other; the first that throws
    ends the round, and the others are not called. *)
Fixpoint callEach (eventName : string) (ruleResult : RuleResult.t) (called : list nat)
  : Completion unit * Trace :=
  match called with
  | [] => (Normal tt, [])
  | listener :: rest =>
      let notified :=
        Notified eventName listener (RuleResult.event ruleResult) ruleResult in
      match listen listener (RuleResult.event ruleResult) almanac ruleResult with
      | Thrown err => (Thrown err, [notified])
      | Normal _ =>
          let '(completion, effects) := callEach eventName ruleResult rest in
          (completion, notified :: effects)
      end
  end.

(** [this.emit(eventName, ruleResult.event, almanac, ruleResult)]: the
    listeners registered under the name are called, oldest first, inside
    [emit]; what one of them throws, [emit] throws. *)
Definition emit (eventName : string) (ruleResult : RuleResult.t) : Completion unit * Trace :=
  callEach eventName ruleResult (registered eventName).

(** [processResult(result)] *)
Definition processResult (ruleResult : RuleResult.t) (result : option bool)
  : Completion RuleResult.t * Trace :=
  let ruleResult := RuleResult.setResult result ruleResult in
  let '(completion, notified) :=
    if isTrue result then emit "success" ruleResult
    else emit "failure" ruleResult in
  match completion with
  | Thrown err => (Thrown err, notified)
  | Normal _ => (Normal ruleResult, notified)
  end.

(** The last step of [evaluate]: [.then(result => processResult(result))];
    what the callback throws rejects the promise. *)
Definition thenProcess (ruleResult : RuleResult.t) (operation : option Cursor)
  : option (Completion (Settled RuleResult.t) * Trace) :=
  match operation with
  | None => None
  | Some (Rejected err, effects) => Some (Normal (Rejected err), effects)
  | Some (Resolved result, effects) =>
      match processResult ruleResult result with
      | (Normal ruleResult, notified) =>
          Some (Normal (Resolved ruleResult), effects ++ notified)
      | (Thrown err, notified) =>
          Some (Normal (Rejected err), effects ++ notified)
      end
  end.

(** [evaluate(almanac)] with the nesting bound [fuel]: it throws, or
    returns the promise of a result. *)
Definition evaluateWith (fuel : nat) : option (Completion (Settled RuleResult.t) * Trace) :=
  match conditions this with
  | None =>
      Some (Thrown (newError
              "Rule: evaluate () requires the rule to have a conditions property"), [])
  | Some root =>
      let ruleResult := RuleResult.new root (event this) (priority this) in
      match RuleResult.conditions ruleResult with
      | Condition.Boolean Any children _ =>
          thenProcess ruleResult (anyOperation (evaluateCondition fuel) children)
      | Condition.Boolean All children _ =>
          thenProcess ruleResult (allOperation (evaluateCondition fuel) children)
      | Condition.Leaf _ _ _ _ =>
          Some (Thrown (newTypeError "Cannot read properties of undefined"), [])
      end
  end.

(** [evaluate(almanac)]: the nesting depth of the conditions is fuel
    enough. *)
Definition evaluate : option (Completion (Settled RuleResult.t) * Trace) :=
  evaluateWith (match conditions this with
                | Some root => Condition.depth root
                | None => O
                end).

End Evaluate.

End Rule.

(** The recursive evaluator with the fuel its argument needs. *)
Definition evaluateNode (this : Rule.t) (almanac : Almanac) (condition : Condition.t)
  : option Rule.Outcome :=
  Rule.evaluateCondition this almanac (S (Condition.depth condition)) condition.

(** The largest nesting depth in a list of conditions. *)
Definition depths (conditions : list Condition.t) : nat :=
  fold_right (fun c n => Nat.max (Condition.depth c) n) 0%nat conditions.

(** The aggregate that decides an operator: [true] under [any], [false]
    under [all]. *)
Definition determinative (operator : BooleanOperator) (value : bool) : Prop :=
  value = Rule.isAny operator.

(** The array method of an operator: [every] for [all], [some] for [any]. *)
Definition methodOf (operator : BooleanOperator) : list bool -> bool :=
  if Rule.isAll operator then JS.every else JS.some.

(** The members of a list of conditions filed under priority [p]. *)
Definition tierOf (engine : option Engine) (conditions : list Condition.t) (p : Z)
  : list Condition.t :=
  filter (fun c => Rule.tierPriority engine c =? p) conditions.

(** The priority of a condition as the specification words it: the
    explicit priority if present, else the priority of its fact in the
    engine, else [1]. *)
Definition statedPriority (engine : option Engine) (condition : Condition.t) : Z :=
  match Condition.priority condition with
  | Some priority => priority
  | None =>
      match engine with
      | Some e =>
          match getFact e (Condition.fact condition) with
          | Some f => Fact_priority f
          | None => 1
          end
      | None => 1
      end
  end.

(** The tiers as the specification words them: the conditions grouped by
    their stated priority, the groups from the highest priority to the
    lowest, each in input order. *)
Definition statedTiers (engine : option Engine) (conditions : list Condition.t)
  : list (list Condition.t) :=
  map (fun p => filter (fun c => statedPriority engine c =? p) conditions)
      (JS.sort Rule.highestFirst (nodup Z.eq_dec (map (statedPriority engine) conditions))).

(** ** Notions used by the properties, and examples *)

(** What the reducer has built after a prefix of the conditions: one key
    for each priority met, each holding the conditions of that priority
    in input order. *)
Record Grouped (engine : option Engine) (done : list Condition.t) (sets : Rule.FactSets)
  : Prop := {
  grouped_nodup : NoDup (map fst sets);
  grouped_keys : forall p,
    In p (map fst sets) <-> exists c, In c done /\ Rule.tierPriority engine c = p;
  grouped_get : forall p,
    In p (map fst sets) -> Rule.sets_get sets p = Some (tierOf engine done p)
}.

Definition C4_engine : Engine :=
  mkEngine (fun f => if String.eqb f "tenure" then Some (mkFact 5) else None)
           (fun _ => None) false.

Definition C4_rule : Rule.t := Rule.mk (Some (Int 1)) None None (Some C4_engine) [].

Definition C4_zero : Condition.t := Condition.Leaf "tenure" "equal" (Num (Int 1)) (Some 0).

Definition C4_three : Condition.t := Condition.Leaf "age" "equal" (Num (Int 1)) (Some 3).

Definition C4_nested : Condition.t := Condition.Boolean Any [] None.

(** An engine and an almanac to run examples with: the comparators
    [equal] and [greaterThanInclusive] on integers; the facts [a], [b]
    and [c] resolve to [1] and [age] to [21]. *)
Definition equal : Operator :=
  fun a b =>
    match a, b with
    | Num (Int x), Num (Int y) => Normal (x =? y)
    | _, _ => Normal false
    end.

Definition greaterThanInclusive : Operator :=
  fun a b =>
    match a, b with
    | Num (Int x), Num (Int y) => Normal (y <=? x)
    | _, _ => Normal false
    end.

Definition exampleEngine (allow : bool) : Engine :=
  mkEngine (fun _ => None)
           (fun o => if String.eqb o "equal" then Some equal
                     else if String.eqb o "greaterThanInclusive"
                          then Some greaterThanInclusive
                          else None)
           allow.

Definition undefinedFact (fact : string) : Error :=
  mkError "UndefinedFactError" ("Undefined fact: " ++ fact) (Some UNDEFINED_FACT).

Definition exampleAlmanac : Almanac :=
  fun fact =>
    if String.eqb fact "a" || String.eqb fact "b" || String.eqb fact "c"
    then Resolved (Num (Int 1))
    else if String.eqb fact "age" then Resolved (Num (Int 21))
    else Rejected (undefinedFact fact).

(** Functions none of which is called in the examples, and listeners
    that return. *)
Definition noCalls : Functions := fun _ _ _ => Normal Undefined.

Definition listenersReturn : Listening := fun _ _ _ _ => Normal tt.

Definition exampleRule (conditions : Condition.t) (allow : bool) : Rule.t :=
  Rule.mk (Some (Int 1)) (Some conditions) (Some (mkAction (Str "fired") None))
          (Some (exampleEngine allow)) [("success", 0%nat); ("failure", 1%nat)].

(** Three leaves of priorities 3, 1 and 2; the first one does not hold. *)
Definition C1_third : Condition.t := Condition.Leaf "a" "equal" (Num (Int 0)) (Some 3).
Definition C1_first : Condition.t := Condition.Leaf "b" "equal" (Num (Int 1)) (Some 1).
Definition C1_second : Condition.t := Condition.Leaf "c" "equal" (Num (Int 1)) (Some 2).

Definition C1_rule : Rule.t :=
  exampleRule (Condition.Boolean All [C1_third; C1_first; C1_second] None) false.

(** An evaluator that answers on priority 3 only. *)
Definition C1_evaluator (c : Condition.t) : option Rule.Outcome :=
  match Condition.priority c with
  | Some 3 => evaluateNode C1_rule exampleAlmanac c
  | _ => None
  end.

(** A call of the evaluator fails when it throws or when the promise it
    returns is rejected. *)
Definition fails (outcome : Completion (Settled bool)) : Prop :=
  match outcome with
  | Thrown _ => True
  | Normal (Rejected _) => True
  | Normal (Resolved _) => False
  end.

(** The running result does not decide the operator yet. *)
Definition undecided (operator : BooleanOperator) (value : option bool) : Prop :=
  Rule.isAny operator && Rule.isTrue value = false
  /\ Rule.isAll operator && Rule.isFalse value = false.

Definition isNotified (e : Effect) : bool :=
  match e with
  | Notified _ _ _ _ => true
  | _ => false
  end.

(** No listener is called in these effects. *)
Definition silent (effects : Trace) : Prop :=
  forall e, In e effects -> isNotified e = false.

(** These listeners are called under the name with the event of the
    report and the report, each once, in this order. *)
Definition notifications (eventName : string) (ruleResult : RuleResult.t)
    (called : list nat) : Trace :=
  map (fun listener =>
         Notified eventName listener (RuleResult.event ruleResult) ruleResult)
      called.

(** [Called this almanac conditions operator c]: while the sibling list
    [conditions] is run under [operator], the evaluator is called on [c],
    a member of a tier that is started (no earlier tier decided the
    operator or failed, no member before it threw), or a condition called
    in turn below such a member. *)
Inductive Called (this : Rule.t) (almanac : Almanac)
  : list Condition.t -> BooleanOperator -> Condition.t -> Prop :=
| Called_member conditions operator earlier tier later value effects before c after :
    Rule.prioritizeConditions this conditions = earlier ++ tier :: later ->
    fold_left (Rule.runSet (evaluateNode this almanac) operator (methodOf operator))
              earlier (Some (Resolved None, []))
      = Some (Resolved value, effects) ->
    undecided operator value ->
    tier = before ++ c :: after ->
    (forall b, In b before ->
               exists promise effects',
                 evaluateNode this almanac b = Some (Normal promise, effects')) ->
    Called this almanac conditions operator c
| Called_nested conditions operator operator' children p c :
    Called this almanac conditions operator (Condition.Boolean operator' children p) ->
    Called this almanac children operator' c ->
    Called this almanac conditions operator c.

(** The evaluator answers on each of these conditions. *)
Definition totalOn (ev : Condition.t -> option Rule.Outcome) (conditions : list Condition.t)
  : Prop :=
  forall c, In c conditions -> exists outcome, ev c = Some outcome.

(** The evaluator never calls a listener. *)
Definition silentEvaluator (ev : Condition.t -> option Rule.Outcome) : Prop :=
  forall c outcome effects, ev c = Some (outcome, effects) -> silent effects.

Definition C3_leaf : Condition.t := Condition.Leaf "missing" "equal" (Num (Int 1)) None.

Definition C3_rule : Rule.t :=
  exampleRule (Condition.Boolean All [Condition.Boolean Any [C3_leaf] None] None) false.

Definition C2_leaf : Condition.t := Condition.Leaf "missing" "equal" (Num (Int 1)) None.

Definition C2_rule : Rule.t := exampleRule (Condition.Boolean All [C2_leaf] None) true.

(** An almanac that knows every fact: each resolves to [1]. *)
Definition C2_knowing : Almanac := fun _ => Resolved (Num (Int 1)).

(** The effects of an evaluation of a rule. *)
Definition effectsOf (listen : Listening) (this : Rule.t) (almanac : Almanac) : Trace :=
  match Rule.evaluate listen this almanac with
  | Some (_, effects) => effects
  | None => []
  end.

Definition C5_both : Value := Obj [("all", Arr []); ("any", Arr [])].

(** A definition with the one key [all] and a property of its own named
    [hasOwnProperty]. *)
Definition C5_shadowed : Value := Obj [("hasOwnProperty", Num (Int 1)); ("all", Arr [])].

(** The error of calling what is not a function. *)
Definition notAFunction : Error :=
  newTypeError "conditions.hasOwnProperty is not a function".

Definition C8_bad_conditions : Value :=
  Obj [("conditions", Obj [("fact", Str "age")]); ("onSuccess", Fun 7); ("onFailure", Fun 8)].

(** The object the constructor works on. *)
Definition scoped (options : Rule.Options) : Value :=
  match options with
  | Rule.OfString text => parse text
  | Rule.OfValue v => v
  end.

(** The rule after the conditions of the options have been processed. *)
Definition afterConditions (call : Functions) (options : Rule.Options)
  : Rule.t * Completion unit :=
  Rule.when (truthy (JS.and (scoped options) (get (scoped options) "conditions")))
            (Rule.setConditions call (get (scoped options) "conditions")) Rule.empty.

(** The arguments the constructor hands to [setPriority] and [setEvent]. *)
Definition priorityOf (options : Rule.Options) : Value :=
  JS.or (JS.and (scoped options) (get (scoped options) "priority")) (Num (Int 1)).

Definition eventOf (options : Rule.Options) : Value :=
  JS.or (JS.and (scoped options) (get (scoped options) "event"))
        (Obj [("type", Str "unknown")]).

Definition C8_options : Rule.Options :=
  Rule.OfValue (Obj [("conditions", Obj [("all", Arr [])]);
                     ("priority", Num (Int (-1)));
                     ("onSuccess", Fun 7); ("onFailure", Fun 8)]).









(** The rule of the end-to-end example, registered with an engine and
    two listeners. *)
Definition eligibleRule : Rule.t :=
  Rule.mk (Some (Int 1))
          (Some (Condition.Boolean All
                   [Condition.Leaf "age" "greaterThanInclusive" (Num (Int 18)) None] None))
          (Some (mkAction (Str "eligible") None))
          (Some (exampleEngine false)) [("success", 0%nat); ("failure", 1%nat)].

(** Two leaves under [any]: the first, of higher priority, holds. *)
Definition anyFirst : Condition.t := Condition.Leaf "a" "equal" (Num (Int 1)) (Some 2).
Definition anySecond : Condition.t := Condition.Leaf "b" "equal" (Num (Int 0)) (Some 1).

(** ** Notions used by the further properties *)

(** The facts named by the leaves of a condition tree. *)
Fixpoint factsOf (c : Condition.t) : list string :=
  match c with
  | Condition.Leaf fact _ _ _ => [fact]
  | Condition.Boolean _ children _ => flat_map factsOf children
  end.

(** What a leaf contributes when its evaluation does not fail: the answer
    of the comparator, or [false] for an undefined fact that the engine
    allows; [None] when the leaf fails. *)
Definition leafValue (engine : Engine) (almanac : Almanac)
    (fact operator : string) (value : Value) : option bool :=
  match Condition.evaluate fact operator value almanac (operators engine) with
  | Resolved evaluationResult => Some (Condition.result evaluationResult)
  | Rejected err =>
      if allowUndefinedFacts engine && isUndefinedFact err then Some false else None
  end.

(** All the answers, when there is none missing. *)
Fixpoint allSome (answers : list (option bool)) : option (list bool) :=
  match answers with
  | [] => Some []
  | Some b :: rest =>
      match allSome rest with
      | Some bs => Some (b :: bs)
      | None => None
      end
  | None :: _ => None
  end.

(** The aggregate of a sibling list from the values of its members: the
    empty list is [true], else [every] under [all] and [some] under [any]. *)
Definition aggregate (operator : BooleanOperator) (values : list bool) : bool :=
  match values with
  | [] => true
  | _ => methodOf operator values
  end.

(** The value of a condition tree read without tiers: every leaf is
    evaluated, a boolean node aggregates its children; [None] when some
    leaf of the tree fails. *)
Fixpoint valueOf (engine : Engine) (almanac : Almanac) (c : Condition.t) : option bool :=
  match c with
  | Condition.Leaf fact operator value _ => leafValue engine almanac fact operator value
  | Condition.Boolean operator children _ =>
      match allSome (map (valueOf engine almanac) children) with
      | Some values => Some (aggregate operator values)
      | None => None
      end
  end.

(** The value of a node, [false] standing for a node that fails. *)
Definition valueOrFalse (engine : Engine) (almanac : Almanac) (c : Condition.t) : bool :=
  match valueOf engine almanac c with
  | Some b => b
  | None => false
  end.

(** Every condition of the list resolves under the evaluator, to its
    [value]. *)
Definition resolvesOn (ev : Condition.t -> option Rule.Outcome) (value : Condition.t -> bool)
    (conditions : list Condition.t) : Prop :=
  forall c, In c conditions ->
  exists effects, ev c = Some (Normal (Resolved (value c)), effects).

(** The error an outcome fails with satisfies [P]. *)
Definition failsWith (P : Error -> Prop) (outcome : Completion (Settled bool)) : Prop :=
  match outcome with
  | Thrown e => P e
  | Normal (Rejected e) => P e
  | Normal (Resolved _) => True
  end.

(** On the conditions of a list, the evaluator has only effects that
    satisfy [PF] and fails only with errors that satisfy [PE]. *)
Definition keepsOn (PF : Effect -> Prop) (PE : Error -> Prop)
    (ev : Condition.t -> option Rule.Outcome) (conditions : list Condition.t) : Prop :=
  forall c, In c conditions ->
  forall outcome effects, ev c = Some (outcome, effects) ->
    Forall PF effects /\ failsWith PE outcome.

(** A cursor that keeps to [PF] and [PE]. *)
Definition cursorKeeps (PF : Effect -> Prop) (PE : Error -> Prop) (cursor : Rule.Cursor)
  : Prop :=
  Forall PF (snd cursor)
  /\ forall err, fst cursor = Rejected err -> PE err.

(** The error of a rule without engine: [this.engine.operators] is read
    on [undefined]. *)
Definition noEngine : Error := newTypeError "Cannot read properties of undefined".

(** An effect that does not touch the almanac nor a fact result. *)
Definition withoutFacts (e : Effect) : Prop :=
  match e with
  | FactValue _ | SetFactResult _ _ => False
  | _ => True
  end.

(** The nodes of a tree below its root: the children of the root and the
    nodes below them. *)
Fixpoint nodesBelow (c : Condition.t) : list Condition.t :=
  match c with
  | Condition.Leaf _ _ _ _ => []
  | Condition.Boolean _ children _ => flat_map (fun c' => c' :: nodesBelow c') children
  end.

(** An effect that stays within a tree: a fact of one of its leaves is
    asked for, or a node below its root is written. *)
Definition within (root : Condition.t) (e : Effect) : Prop :=
  match e with
  | FactValue fact => In fact (factsOf root)
  | SetFactResult c _ => In c (nodesBelow root) /\ Condition.isBooleanOperator c = false
  | SetResult c _ => In c (nodesBelow root)
  | Notified _ _ _ _ => True
  end.

(** The error is what a listener of the rule throws when it is called
    with the event of a report. *)
Definition thrownByListener (listen : Listening) (this : Rule.t) (almanac : Almanac)
    (err : Error) : Prop :=
  exists eventName listener ruleResult,
    In (eventName, listener) (Rule.listeners this)
    /\ listen listener (RuleResult.event ruleResult) almanac ruleResult = Thrown err.

(** What [evaluate] comes to once the root operation has resolved with
    [result] after the effects [inner]: the report carries the result, the
    listeners of [success] or of [failure] are called, and the promise
    resolves with the report unless one of them throws, which rejects
    it. *)
Definition reported (listen : Listening) (this : Rule.t) (almanac : Almanac)
    (root : Condition.t) (result : bool) (inner : Trace)
  : Completion (Settled RuleResult.t) * Trace :=
  let ruleResult :=
    RuleResult.mk root (Rule.event this) (Rule.priority this) (Some result) in
  let told :=
    Rule.emit listen this almanac (if result then "success" else "failure") ruleResult in
  (match fst told with
   | Normal _ => Normal (Resolved ruleResult)
   | Thrown err => Normal (Rejected err)
   end,
   inner ++ snd told).

(** What holds of every rule that a constructor or a setter has built:
    the priority is NaN or a positive integer, and the [params] of the
    event, when stored, are truthy. *)
Definition wellFormed (this : Rule.t) : Prop :=
  match Rule.priority this with
  | Some (Int z) => 0 < z
  | Some NaN => True
  | None => True
  end
  /\ match Rule.event this with
     | Some a => match Action_params a with
                 | Some p => truthy p = true
                 | None => True
                 end
     | None => True
     end.

(** The rules that can be met: the object of [super()], the object a
    constructor call has worked on, and what a call of a setter or of
    [on] leaves of such a rule, whether it returns or throws. *)
Inductive configured (call : Functions) : Rule.t -> Prop :=
| configured_empty : configured call Rule.empty
| configured_new options : configured call (fst (Rule.new call options))
| configured_setPriority priority this :
    configured call this -> configured call (fst (Rule.setPriority priority this))
| configured_setConditions conditions this :
    configured call this -> configured call (fst (Rule.setConditions call conditions this))
| configured_setEvent event this :
    configured call this -> configured call (fst (Rule.setEvent call event this))
| configured_setEngine e this :
    configured call this -> configured call (fst (Rule.setEngine e this))
| configured_on eventName listener this :
    configured call this -> configured call (fst (Rule.on eventName listener this)).

(** Two trees that differ in the priorities of their nodes and in the
    order of siblings only. *)
Inductive similar : Condition.t -> Condition.t -> Prop :=
| similar_leaf f o v p p' :
    similar (Condition.Leaf f o v p) (Condition.Leaf f o v p')
| similar_boolean operator children middle children' p p' :
    Forall2 similar children middle -> Permutation middle children' ->
    similar (Condition.Boolean operator children p)
            (Condition.Boolean operator children' p').

(** *** Examples for the further properties *)

(** Two leaves that are filed under the priority 1, one by default and
    one explicitly. *)
Definition defaultLeaf : Condition.t := Condition.Leaf "a" "equal" (Num (Int 1)) None.
Definition explicitLeaf : Condition.t := Condition.Leaf "b" "equal" (Num (Int 0)) (Some 1).

(** Listeners of which the one numbered 1 throws. *)
Definition listenerFailed : Error := newError "listener failed".

Definition oneThrows : Listening :=
  fun listener _ _ _ =>
    if Nat.eqb listener 1 then Thrown listenerFailed else Normal tt.

(** A rule that has conditions but no engine. *)
Definition engineless : Rule.t :=
  Rule.mk (Some (Int 1))
          (Some (Condition.Boolean All [Condition.Boolean Any [] None; defaultLeaf] None))
          (Some (mkAction (Str "fired") None)) None [("failure", 1%nat)].

(** An almanac that knows no fact. *)
Definition emptyAlmanac : Almanac := fun fact => Rejected (undefinedFact fact).

(** A rule under an engine that allows undefined facts, with a leaf whose
    comparator the engine does not have. *)
Definition unknownOperatorRule : Rule.t :=
  exampleRule (Condition.Boolean All [Condition.Leaf "a" "between" (Num (Int 1)) None] None)
              true.

(** Options with a priority of zero and no event. *)
Definition zeroPriorityOptions : Rule.Options :=
  Rule.OfValue (Obj [("conditions", Obj [("all", Arr [])]); ("priority", Num (Int 0))]).

(** A rule built from an event that has falsy [params] and one more
    property. *)
Definition storedEventRule : Rule.t :=
  fst (Rule.new noCalls (Rule.OfValue
         (Obj [("event", Obj [("type", Str "fired"); ("params", Num (Int 0));
                              ("extra", Null)])]))).

(** A node under [all] over two leaves on known facts, the second of which
    does not hold, and the annotations of an earlier evaluation that found
    the node [true]. *)
Definition staleNode : Condition.t :=
  Condition.Boolean All [defaultLeaf; Condition.Leaf "b" "equal" (Num (Int 0)) None] None.

Definition staleAnnotations : Annotations :=
  write unannotated (SetResult staleNode true).

(** The effects of evaluating that node once more. *)
Definition staleEffects : Trace :=
  match evaluateNode (exampleRule staleNode false) exampleAlmanac staleNode with
  | Some (_, effects) => effects
  | None => []
  end.

(** The rule over [staleNode] written otherwise: siblings swapped, other
    priorities on the nodes and on the facts of the engine. *)
Definition reorderedRoot : Condition.t :=
  Condition.Boolean All [Condition.Leaf "b" "equal" (Num (Int 0)) (Some 5);
                         Condition.Leaf "a" "equal" (Num (Int 1)) None] (Some 2).

Definition reorderedEngine : Engine :=
  mkEngine (fun fact => if String.eqb fact "a" then Some (mkFact 9) else None)
           (operators (exampleEngine false)) false.

Definition reorderedRule : Rule.t :=
  Rule.mk (Some (Int 3)) (Some reorderedRoot) (Some (mkAction (Str "fired") None))
          (Some reorderedEngine) [].

(** The comparators named by the leaves of a condition tree. *)
Fixpoint operatorsOf (c : Condition.t) : list string :=
  match c with
  | Condition.Leaf _ operator _ _ => [operator]
  | Condition.Boolean _ children _ => flat_map operatorsOf children
  end.

(** A rule over a known and an unknown fact, under an engine that allows
    undefined facts. *)
Definition tolerantRule : Rule.t :=
  exampleRule (Condition.Boolean Any
                 [Condition.Leaf "missing" "equal" (Num (Int 1)) None;
                  Condition.Boolean All [Condition.Leaf "age" "greaterThanInclusive"
                                           (Num (Int 18)) None] None] None)
              true.

(* ===================================================================== *)
(** * Part II. Properties *)
(* ===================================================================== *)

(** ** Sorting the keys *)

Section Sorting.

Variable comparefn : Z -> Z -> Z.

Lemma sortInsert_perm (a : Z) (l : list Z) :
  Permutation (JS.sortInsert comparefn a l) (a :: l).
Proof.
  induction l as [|b l IH]; simpl.
  - apply Permutation_refl.
  - destruct (comparefn a b <? 0).
    + apply Permutation_refl.
    + eapply perm_trans; [apply perm_skip, IH | apply perm_swap].
Qed.

Lemma sort_perm (l : list Z) : Permutation (JS.sort comparefn l) l.
Proof.
  induction l as [|a l IH]; simpl.
  - apply perm_nil.
  - eapply perm_trans; [apply sortInsert_perm | apply perm_skip, IH].
Qed.

End Sorting.

Lemma sortInsert_descending (a : Z) (l : list Z) :
  StronglySorted Z.gt l -> ~ In a l ->
  StronglySorted Z.gt (JS.sortInsert Rule.highestFirst a l).
Proof.
  induction 1 as [|b l Hs IH Hb]; intros Hnotin; simpl.
  - repeat constructor.
  - unfold Rule.highestFirst at 1.
    destruct (Z.gtb_spec a b) as [Hgt|Hle]; simpl.
    + constructor; [constructor; assumption|].
      constructor; [lia|].
      rewrite Forall_forall in *. intros x Hx. specialize (Hb x Hx). lia.
    + assert (a <> b) by (intros ->; apply Hnotin; left; reflexivity).
      constructor.
      * apply IH. intros Hin. apply Hnotin. right. assumption.
      * rewrite Forall_forall in *. intros x Hx.
        apply (Permutation_in _ (sortInsert_perm Rule.highestFirst a l)) in Hx.
        destruct Hx as [<-|Hx]; [lia | apply Hb; assumption].
Qed.

Lemma sort_descending (l : list Z) :
  NoDup l -> StronglySorted Z.gt (JS.sort Rule.highestFirst l).
Proof.
  induction 1 as [|a l Hnotin Hnd IH]; simpl.
  - constructor.
  - apply sortInsert_descending; [assumption|].
    intros Hin. apply Hnotin.
    apply (Permutation_in _ (sort_perm Rule.highestFirst l)). assumption.
Qed.

(** ** The accumulator of the reducer *)

Lemma sets_get_None (sets : Rule.FactSets) (p : Z) :
  Rule.sets_get sets p = None <-> ~ In p (map fst sets).
Proof.
  induction sets as [|[q l] sets IH]; simpl.
  - tauto.
  - destruct (Z.eqb_spec q p) as [->|Hne].
    + split; [discriminate | intros H; exfalso; apply H; left; reflexivity].
    + rewrite IH. split; [intros H [Heq|Hin]; [congruence | tauto] | tauto].
Qed.

Lemma sets_get_create (sets : Rule.FactSets) (k p : Z) :
  Rule.sets_get (Rule.sets_create sets k) p =
  match Rule.sets_get sets p with
  | Some l => Some l
  | None => if k =? p then Some [] else None
  end.
Proof.
  unfold Rule.sets_create.
  induction sets as [|[q l] sets IH]; simpl.
  - reflexivity.
  - destruct (q =? p); [reflexivity | apply IH].
Qed.

Lemma sets_push_keys (sets : Rule.FactSets) (k : Z) (c : Condition.t) :
  map fst (Rule.sets_push sets k c) = map fst sets.
Proof.
  induction sets as [|[q l] sets IH]; simpl.
  - reflexivity.
  - destruct (q =? k); simpl; [reflexivity | rewrite IH; reflexivity].
Qed.

Lemma sets_get_push (sets : Rule.FactSets) (k p : Z) (c : Condition.t) :
  Rule.sets_get (Rule.sets_push sets k c) p =
  if p =? k then option_map (fun l => l ++ [c]) (Rule.sets_get sets k)
  else Rule.sets_get sets p.
Proof.
  induction sets as [|[q l] sets IH]; simpl.
  - destruct (p =? k); reflexivity.
  - destruct (Z.eqb_spec q k) as [->|Hqk]; simpl.
    + destruct (Z.eqb_spec k p) as [->|Hkp].
      * rewrite Z.eqb_refl. reflexivity.
      * destruct (Z.eqb_spec p k); [congruence | reflexivity].
    + destruct (Z.eqb_spec q p) as [->|Hqp].
      * destruct (Z.eqb_spec p k); [congruence | reflexivity].
      * apply IH.
Qed.

Lemma tierOf_app (engine : option Engine) (l : list Condition.t) (c : Condition.t) (p : Z) :
  tierOf engine (l ++ [c]) p =
  tierOf engine l p ++ (if Rule.tierPriority engine c =? p then [c] else []).
Proof.
  unfold tierOf. rewrite filter_app. simpl.
  destruct (Rule.tierPriority engine c =? p); reflexivity.
Qed.

Lemma tierOf_nil_iff (engine : option Engine) (l : list Condition.t) (p : Z) :
  tierOf engine l p = [] <-> ~ exists c, In c l /\ Rule.tierPriority engine c = p.
Proof.
  unfold tierOf. split.
  - intros Hnil [c [Hin Hp]].
    assert (Hc : In c (filter (fun c => Rule.tierPriority engine c =? p) l)).
    { apply filter_In. split; [assumption | apply Z.eqb_eq; assumption]. }
    rewrite Hnil in Hc. destruct Hc.
  - intros Hno. destruct (filter _ l) as [|c rest] eqn:Hf; [reflexivity|].
    exfalso. apply Hno. exists c.
    assert (Hc : In c (filter (fun c => Rule.tierPriority engine c =? p) l))
      by (rewrite Hf; left; reflexivity).
    apply filter_In in Hc. destruct Hc as [Hin Hp].
    split; [assumption | apply Z.eqb_eq; assumption].
Qed.

Lemma Grouped_step (engine : option Engine) (done : list Condition.t)
    (sets : Rule.FactSets) (c : Condition.t) :
  Grouped engine done sets ->
  Grouped engine (done ++ [c]) (Rule.prioritizeStep engine sets c).
Proof.
  intros [Hnd Hkeys Hget].
  unfold Rule.prioritizeStep.
  set (k := Rule.tierPriority engine c).
  destruct (Rule.sets_get sets k) as [l|] eqn:Hk.
  - (* the key exists *)
    assert (Hin : In k (map fst sets)).
    { destruct (in_dec Z.eq_dec k (map fst sets)) as [H|H]; [assumption|].
      apply sets_get_None in H. congruence. }
    split.
    + rewrite sets_push_keys. assumption.
    + intros p. rewrite sets_push_keys, Hkeys. split.
      * intros [c' [Hc' Hp]]. exists c'. split; [apply in_or_app; left|]; assumption.
      * intros [c' [Hc' Hp]]. apply in_app_or in Hc'. destruct Hc' as [Hc'|[<-|[]]].
        -- exists c'. split; assumption.
        -- apply Hkeys. subst p. assumption.
    + intros p. rewrite sets_push_keys. intros Hp.
      rewrite sets_get_push, tierOf_app. fold k.
      destruct (Z.eqb_spec p k) as [->|Hne].
      * rewrite (Hget k Hin), Z.eqb_refl. reflexivity.
      * rewrite (Hget p Hp).
        destruct (Z.eqb_spec k p); [congruence|]. rewrite app_nil_r. reflexivity.
  - (* the key is created *)
    assert (Hnotin : ~ In k (map fst sets)) by (apply sets_get_None; assumption).
    assert (Hkeys' : map fst (Rule.sets_create sets k) = map fst sets ++ [k]).
    { unfold Rule.sets_create. rewrite map_app. reflexivity. }
    split.
    + rewrite sets_push_keys, Hkeys'.
      apply NoDup_app; [assumption | repeat constructor; intros [] | ].
      intros x Hx [Hx'|[]]. subst. contradiction.
    + intros p. rewrite sets_push_keys, Hkeys', in_app_iff, Hkeys. simpl. split.
      * intros [[c' [Hc' Hp]]|[<-|[]]].
        -- exists c'. split; [apply in_or_app; left|]; assumption.
        -- exists c. split; [apply in_or_app; right; left|]; reflexivity.
      * intros [c' [Hc' Hp]]. apply in_app_or in Hc'. destruct Hc' as [Hc'|[<-|[]]].
        -- left. exists c'. split; assumption.
        -- right. left. assumption.
    + intros p. rewrite sets_push_keys, Hkeys', in_app_iff. simpl. intros Hp.
      rewrite sets_get_push, !sets_get_create, tierOf_app. fold k.
      destruct (Z.eqb_spec p k) as [->|Hne].
      * rewrite Hk, Z.eqb_refl. simpl.
        assert (Hempty : tierOf engine done k = []).
        { apply tierOf_nil_iff. intros Hex. apply Hnotin, Hkeys. assumption. }
        rewrite Hempty. reflexivity.
      * destruct Hp as [Hp|[Hp|[]]]; [|congruence].
        rewrite (Hget p Hp).
        destruct (Z.eqb_spec k p); [congruence|]. rewrite app_nil_r. reflexivity.
Qed.

Lemma Grouped_fold (engine : option Engine) (conditions : list Condition.t) :
  Grouped engine conditions (fold_left (Rule.prioritizeStep engine) conditions []).
Proof.
  induction conditions as [|c conditions IH] using rev_ind.
  - split; simpl.
    + constructor.
    + intros p. split; [intros [] | intros [c [[] _]]].
    + intros p [].
  - rewrite fold_left_app. simpl. apply Grouped_step. assumption.
Qed.

Lemma Object_keys_perm (sets : Rule.FactSets) :
  Permutation (Rule.Object_keys sets) (map fst sets).
Proof.
  unfold Rule.Object_keys.
  eapply perm_trans.
  - apply Permutation_app_tail, sort_perm.
  - generalize (map fst sets). intros keys.
    induction keys as [|k keys IH]; simpl.
    + apply perm_nil.
    + destruct (Rule.isArrayIndex k); simpl.
      * apply perm_skip. assumption.
      * apply Permutation_sym, Permutation_cons_app, Permutation_sym. assumption.
Qed.

(** The tiers of a list of conditions: the priorities met, highest first,
    each with its conditions in input order. *)
Lemma prioritizeConditions_tiers (this : Rule.t) (conditions : list Condition.t) :
  exists priorities,
    StronglySorted Z.gt priorities /\
    (forall p, In p priorities <->
               exists c, In c conditions /\ Rule.tierPriority (Rule.engine this) c = p) /\
    Rule.prioritizeConditions this conditions =
    map (tierOf (Rule.engine this) conditions) priorities.
Proof.
  unfold Rule.prioritizeConditions.
  set (engine := Rule.engine this).
  set (factSets := fold_left (Rule.prioritizeStep engine) conditions []).
  destruct (Grouped_fold engine conditions) as [Hnd Hkeys Hget]. fold factSets in Hnd, Hkeys, Hget.
  set (sorted := JS.sort _ (Rule.Object_keys factSets)).
  assert (Hperm : Permutation sorted (map fst factSets)).
  { eapply perm_trans; [apply sort_perm | apply Object_keys_perm]. }
  exists sorted. split; [|split].
  - apply (sort_descending (Rule.Object_keys factSets)).
    eapply Permutation_NoDup; [apply Permutation_sym, Object_keys_perm | assumption].
  - intros p. rewrite <- Hkeys. split; intros H.
    + eapply Permutation_in; [apply Hperm | assumption].
    + eapply Permutation_in; [apply Permutation_sym, Hperm | assumption].
  - apply map_ext_in. intros p Hp.
    rewrite Hget; [reflexivity|].
    eapply Permutation_in; [apply Hperm | assumption].
Qed.

Lemma prioritizeConditions_member (this : Rule.t) (conditions tier : list Condition.t)
    (c : Condition.t) :
  In tier (Rule.prioritizeConditions this conditions) -> In c tier -> In c conditions.
Proof.
  destruct (prioritizeConditions_tiers this conditions) as [ps [_ [_ ->]]].
  intros Htier Hc. apply in_map_iff in Htier. destruct Htier as [p [<- _]].
  unfold tierOf in Hc. apply filter_In in Hc. apply Hc.
Qed.

Lemma prioritizeConditions_nil (this : Rule.t) :
  Rule.prioritizeConditions this [] = [].
Proof. reflexivity. Qed.

Lemma prioritizeConditions_nonempty (this : Rule.t) (conditions : list Condition.t) :
  conditions <> [] -> Rule.prioritizeConditions this conditions <> [].
Proof.
  intros Hne.
  destruct (prioritizeConditions_tiers this conditions) as [ps [_ [Hps ->]]].
  destruct conditions as [|c conditions]; [congruence|].
  destruct ps as [|p ps]; [|discriminate].
  exfalso. apply (proj2 (Hps (Rule.tierPriority (Rule.engine this) c))).
  exists c. split; [left|]; reflexivity.
Qed.

(** ** C4 *)

(** C4, as stated, fails: a leaf whose explicit priority is [0] is not
    filed under [0] but under the priority [5] of its fact, so it comes
    before a leaf of priority [3] instead of after it. *)
Lemma C4_explicit_zero_priority_is_ignored :
  Rule.prioritizeConditions C4_rule [C4_zero; C4_three] = [[C4_zero]; [C4_three]]
  /\ statedTiers (Rule.engine C4_rule) [C4_zero; C4_three] = [[C4_three]; [C4_zero]]
  /\ Rule.prioritizeConditions C4_rule [C4_zero; C4_three]
     <> statedTiers (Rule.engine C4_rule) [C4_zero; C4_three].
Proof.
  split; [reflexivity | split; [reflexivity | discriminate]].
Qed.

(** C4 (amended): [prioritizeConditions] files each node under its own
    priority when that is present and not zero, else under the priority of
    its fact in the engine when the fact is registered with a priority
    that is not zero (a boolean node has no fact), else under [1]; it
    groups the nodes by that priority and lists the groups by priority,
    highest first, each group in input order. *)
Theorem C4_prioritizeConditions_groups_by_priority
    (this : Rule.t) (conditions : list Condition.t) :
  (forall c p, Condition.priority c = Some p -> p <> 0 ->
               Rule.tierPriority (Rule.engine this) c = p)
  /\ (forall c e f registered,
        Condition.priority c = None \/ Condition.priority c = Some 0 ->
        Rule.engine this = Some e -> Condition.fact c = Some f ->
        facts e f = Some registered -> Fact_priority registered <> 0 ->
        Rule.tierPriority (Rule.engine this) c = Fact_priority registered)
  /\ (forall c,
        Condition.priority c = None \/ Condition.priority c = Some 0 ->
        Rule.engine this = None \/ Condition.fact c = None \/
        (exists e f, Rule.engine this = Some e /\ Condition.fact c = Some f /\
                     (facts e f = None \/ facts e f = Some (mkFact 0))) ->
        Rule.tierPriority (Rule.engine this) c = 1)
  /\ exists priorities,
       StronglySorted Z.gt priorities
       /\ (forall p, In p priorities <->
                     exists c, In c conditions /\ Rule.tierPriority (Rule.engine this) c = p)
       /\ Rule.prioritizeConditions this conditions =
          map (fun p => filter (fun c => Rule.tierPriority (Rule.engine this) c =? p)
                               conditions)
              priorities.
Proof.
  split; [|split; [|split]].
  - intros c p Hp Hnz. unfold Rule.tierPriority. rewrite Hp.
    destruct (Z.eqb_spec p 0); [contradiction | reflexivity].
  - intros c e f registered Hp He Hf Hreg Hnz.
    unfold Rule.tierPriority. rewrite He, Hf. simpl. rewrite Hreg.
    destruct (Z.eqb_spec (Fact_priority registered) 0); [contradiction|].
    destruct Hp as [->| ->]; reflexivity.
  - intros c Hp Hno.
    assert (Hfact :
      match match Rule.engine this with
            | Some e => getFact e (Condition.fact c)
            | None => None
            end with
      | Some f => if Fact_priority f =? 0 then 1 else Fact_priority f
      | None => 1
      end = 1).
    { destruct Hno as [-> | [-> | [e [f [-> [-> Hreg]]]]]].
      - reflexivity.
      - destruct (Rule.engine this); reflexivity.
      - simpl. destruct Hreg as [-> | ->]; reflexivity. }
    unfold Rule.tierPriority. destruct Hp as [-> | ->]; simpl; exact Hfact.
  - apply prioritizeConditions_tiers.
Qed.

(** C4 at work: an explicit priority, the priority of a registered fact
    and the default of a boolean node. *)
Lemma C4_witness :
  Rule.tierPriority (Rule.engine C4_rule) C4_three = 3
  /\ Rule.tierPriority (Rule.engine C4_rule) C4_zero = 5
  /\ Rule.tierPriority (Rule.engine C4_rule) C4_nested = 1.
Proof.
  pose (tiers := C4_prioritizeConditions_groups_by_priority
                   C4_rule [C4_zero; C4_three; C4_nested]).
  split; [|split].
  - exact (proj1 tiers C4_three 3 eq_refl ltac:(discriminate)).
  - exact (proj1 (proj2 tiers) C4_zero C4_engine "tenure" (mkFact 5)
             (or_intror eq_refl) eq_refl eq_refl eq_refl ltac:(discriminate)).
  - exact (proj1 (proj2 (proj2 tiers)) C4_nested (or_introl eq_refl)
             (or_intror (or_introl eq_refl))).
Defined.

(** ** The tiered run *)

Lemma fold_left_runSet_none (ev : Condition.t -> option Rule.Outcome)
    (operator : BooleanOperator) (method : list bool -> bool)
    (sets : list (list Condition.t)) :
  fold_left (Rule.runSet ev operator method) sets None = None.
Proof. induction sets; simpl; auto. Qed.

(** A rejected cursor stays rejected: no later tier is started. *)
Lemma fold_left_runSet_rejected (ev : Condition.t -> option Rule.Outcome)
    (operator : BooleanOperator) (method : list bool -> bool)
    (sets : list (list Condition.t)) (err : Error) (effects : Trace) :
  fold_left (Rule.runSet ev operator method) sets (Some (Rejected err, effects))
  = Some (Rejected err, effects).
Proof. induction sets; simpl; auto. Qed.

(** A decided cursor stays as it is: no later tier is started. *)
Lemma fold_left_runSet_decided (ev : Condition.t -> option Rule.Outcome)
    (operator : BooleanOperator) (method : list bool -> bool)
    (sets : list (list Condition.t)) (decided : bool) (effects : Trace) :
  determinative operator decided ->
  fold_left (Rule.runSet ev operator method) sets (Some (Resolved (Some decided), effects))
  = Some (Resolved (Some decided), effects).
Proof.
  unfold determinative. intros ->.
  induction sets as [|set sets IH]; simpl; [reflexivity|].
  destruct operator; simpl; exact IH.
Qed.

Section Callbacks.

Variables ev ev' : Condition.t -> option Rule.Outcome.

Lemma mapEvaluate_ext (conditions : list Condition.t) :
  (forall c, In c conditions -> ev' c = ev c) ->
  Rule.mapEvaluate ev' conditions = Rule.mapEvaluate ev conditions.
Proof.
  induction conditions as [|c conditions IH]; intros Hext; simpl.
  - reflexivity.
  - rewrite (Hext c (or_introl eq_refl)), IH; [reflexivity|].
    intros c' Hc'. apply Hext. right. assumption.
Qed.

Lemma evaluateConditions_ext (conditions : list Condition.t) (method : list bool -> bool) :
  (forall c, In c conditions -> ev' c = ev c) ->
  Rule.evaluateConditions ev' conditions method = Rule.evaluateConditions ev conditions method.
Proof.
  intros Hext. unfold Rule.evaluateConditions. rewrite (mapEvaluate_ext _ Hext). reflexivity.
Qed.

Lemma runSet_ext (operator : BooleanOperator) (method : list bool -> bool)
    (cursor : option Rule.Cursor) (set : list Condition.t) :
  (forall c, In c set -> ev' c = ev c) ->
  Rule.runSet ev' operator method cursor set = Rule.runSet ev operator method cursor set.
Proof.
  intros Hext. unfold Rule.runSet. rewrite (evaluateConditions_ext _ _ Hext). reflexivity.
Qed.

Lemma fold_left_runSet_ext (operator : BooleanOperator) (method : list bool -> bool)
    (sets : list (list Condition.t)) (cursor : option Rule.Cursor) :
  (forall c, In c (List.concat sets) -> ev' c = ev c) ->
  fold_left (Rule.runSet ev' operator method) sets cursor
  = fold_left (Rule.runSet ev operator method) sets cursor.
Proof.
  revert cursor. induction sets as [|set sets IH]; intros cursor Hext; simpl.
  - reflexivity.
  - rewrite runSet_ext.
    + apply IH. intros c Hc. apply Hext. simpl. apply in_or_app. right. assumption.
    + intros c Hc. apply Hext. simpl. apply in_or_app. left. assumption.
Qed.

Lemma prioritizeAndRun_ext (this : Rule.t) (conditions : list Condition.t)
    (operator : BooleanOperator) :
  (forall c, In c conditions -> ev' c = ev c) ->
  Rule.prioritizeAndRun this ev' conditions operator
  = Rule.prioritizeAndRun this ev conditions operator.
Proof.
  intros Hext. unfold Rule.prioritizeAndRun.
  destruct conditions as [|c0 conditions]; [reflexivity|].
  apply fold_left_runSet_ext.
  intros c Hc. apply Hext. apply in_concat in Hc. destruct Hc as [tier [Htier Hc]].
  eapply prioritizeConditions_member; eassumption.
Qed.

End Callbacks.

(** ** C6 *)

(** C6: an empty sibling list evaluates to [true] under [all] and under
    [any], whatever the recursive evaluator, and nothing is evaluated; so
    a boolean node without children resolves to [true], and a rule whose
    root has no children goes on with the result [true]: it tells its
    success listeners and resolves with that result, unless one of them
    throws, which rejects the promise. *)
Theorem C6_empty_list_is_true
    (this : Rule.t) (ev : Condition.t -> option Rule.Outcome) (operator : BooleanOperator)
    (almanac : Almanac) (p : option Z) (listen : Listening) :
  Rule.prioritizeAndRun this ev [] operator = Some (Resolved (Some true), [])
  /\ Rule.allOperation this ev [] = Some (Resolved (Some true), [])
  /\ Rule.anyOperation this ev [] = Some (Resolved (Some true), [])
  /\ evaluateNode this almanac (Condition.Boolean operator [] p)
     = Some (Normal (Resolved true), [SetResult (Condition.Boolean operator [] p) true])
  /\ (let rule := Rule.mk (Rule.priority this) (Some (Condition.Boolean operator [] p))
                          (Rule.event this) (Rule.engine this) (Rule.listeners this) in
      let ruleResult := RuleResult.mk (Condition.Boolean operator [] p)
                                      (Rule.event this) (Rule.priority this) (Some true) in
      let told := Rule.emit listen rule almanac "success" ruleResult in
      Rule.evaluate listen rule almanac
      = Some (match fst told with
              | Normal _ => Normal (Resolved ruleResult)
              | Thrown err => Normal (Rejected err)
              end,
              snd told)).
Proof.
  split; [|split; [|split; [|split]]]; try (destruct operator; reflexivity).
  intros rule ruleResult told.
  assert (Heval : Rule.evaluate listen rule almanac
                  = match Rule.processResult listen rule almanac
                            (RuleResult.new (Condition.Boolean operator [] p)
                                            (Rule.event this) (Rule.priority this))
                            (Some true) with
                    | (Normal r, notified) => Some (Normal (Resolved r), notified)
                    | (Thrown err, notified) => Some (Normal (Rejected err), notified)
                    end)
    by (destruct operator; reflexivity).
  rewrite Heval. unfold Rule.processResult. simpl Rule.isTrue. cbv iota.
  change (RuleResult.setResult (Some true)
            (RuleResult.new (Condition.Boolean operator [] p)
                            (Rule.event this) (Rule.priority this)))
    with ruleResult.
  fold told. destruct told as [[u|err] notified]; reflexivity.
Qed.

(** ** C1 *)

(** C1: the tiers of a sibling list are its priorities from the highest
    to the lowest and are run in that order; once the run up to and
    including some tier has produced the value that decides the operator
    ([true] under [any], [false] under [all]), that value and the effects
    so far are the outcome of the whole list, and no condition of a later
    tier is handed to the evaluator: the outcome is the same for every
    evaluator [ev'] that agrees with [ev] on the tiers run so far,
    whatever it does elsewhere. *)
Theorem C1_tiers_run_highest_first_until_decided
    (this : Rule.t) (ev ev' : Condition.t -> option Rule.Outcome)
    (conditions : list Condition.t) (operator : BooleanOperator)
    (earlier later : list (list Condition.t)) (tier : list Condition.t)
    (decided : bool) (effects : Trace) :
  Rule.prioritizeConditions this conditions = earlier ++ tier :: later ->
  fold_left (Rule.runSet ev operator (methodOf operator)) (earlier ++ [tier])
            (Some (Resolved None, []))
    = Some (Resolved (Some decided), effects) ->
  determinative operator decided ->
  (forall c, In c (List.concat (earlier ++ [tier])) -> ev' c = ev c) ->
  (exists priorities,
      StronglySorted Z.gt priorities
      /\ Rule.prioritizeConditions this conditions
         = map (tierOf (Rule.engine this) conditions) priorities)
  /\ Rule.prioritizeAndRun this ev' conditions operator
     = Some (Resolved (Some decided), effects).
Proof.
  intros Htiers Hrun Hdecided Hext. split.
  - destruct (prioritizeConditions_tiers this conditions) as [ps [Hsorted [_ Heq]]].
    exists ps. split; assumption.
  - destruct conditions as [|c0 conditions].
    + rewrite prioritizeConditions_nil in Htiers. destruct earlier; discriminate.
    + unfold Rule.prioritizeAndRun. fold (methodOf operator).
      rewrite Htiers.
      change (earlier ++ tier :: later) with (earlier ++ [tier] ++ later).
      rewrite app_assoc, fold_left_app.
      rewrite (fold_left_runSet_ext ev ev' _ _ (earlier ++ [tier]) _ Hext), Hrun.
      apply fold_left_runSet_decided. assumption.
Qed.

(** C1 at work: under [all] the tier of priority 3 is run first and
    yields [false]; the facts [c] and [b] of the tiers 2 and 1 are never
    asked for. *)
Lemma C1_witness :
  Rule.prioritizeAndRun C1_rule C1_evaluator [C1_third; C1_first; C1_second] All
  = Some (Resolved (Some false),
          [FactValue "a"; SetFactResult C1_third (Num (Int 1)); SetResult C1_third false]).
Proof.
  refine (proj2 (C1_tiers_run_highest_first_until_decided
                   C1_rule (evaluateNode C1_rule exampleAlmanac) C1_evaluator
                   [C1_third; C1_first; C1_second] All
                   [] [[C1_second]; [C1_first]] [C1_third] false _ _ _ _ _)).
  - reflexivity.
  - reflexivity.
  - reflexivity.
  - simpl. intros c [Hc|[]]. rewrite <- Hc. reflexivity.
Defined.

(** ** Fuel *)

Lemma depth_Boolean (operator : BooleanOperator) (children : list Condition.t)
    (priority : option Z) :
  Condition.depth (Condition.Boolean operator children priority) = S (depths children).
Proof.
  reflexivity.
Qed.

Lemma depth_member (children : list Condition.t) (c : Condition.t) :
  In c children -> (Condition.depth c <= depths children)%nat.
Proof.
  induction children as [|c' children IH]; simpl; [intros []|].
  intros [->|Hin]; [lia|]. specialize (IH Hin). lia.
Qed.

Section EvaluateFacts.

Variable listen : Listening.
Variable this : Rule.t.
Variable almanac : Almanac.

Lemma evaluateBoolean_ext (ev ev' : Condition.t -> option Rule.Outcome)
    (condition : Condition.t) (operator : BooleanOperator) (children : list Condition.t) :
  (forall c, In c children -> ev' c = ev c) ->
  Rule.evaluateBoolean this ev' condition operator children
  = Rule.evaluateBoolean this ev condition operator children.
Proof.
  intros Hext. unfold Rule.evaluateBoolean, Rule.allOperation, Rule.anyOperation.
  destruct operator; rewrite (prioritizeAndRun_ext ev ev' this _ _ Hext); reflexivity.
Qed.

(** More fuel than the nesting depth changes nothing. *)
Lemma evaluateCondition_fuel (n m : nat) (c : Condition.t) :
  (Condition.depth c < n)%nat -> (Condition.depth c < m)%nat ->
  Rule.evaluateCondition this almanac n c = Rule.evaluateCondition this almanac m c.
Proof.
  revert m c. induction n as [|n IH]; intros m c Hn Hm; [lia|].
  destruct m as [|m]; [lia|].
  destruct c as [f o v p|operator children p]; simpl; [reflexivity|].
  apply evaluateBoolean_ext. intros c Hc.
  rewrite depth_Boolean in Hn, Hm. apply depth_member in Hc.
  apply IH; lia.
Qed.

Lemma evaluateNode_fuel (n : nat) (c : Condition.t) :
  (Condition.depth c < n)%nat ->
  Rule.evaluateCondition this almanac n c = evaluateNode this almanac c.
Proof. intros Hn. unfold evaluateNode. apply evaluateCondition_fuel; lia. Qed.

Lemma evaluateNode_Leaf (f o : string) (v : Value) (p : option Z) :
  evaluateNode this almanac (Condition.Leaf f o v p)
  = Some (Rule.evaluateLeaf this almanac (Condition.Leaf f o v p) f o v).
Proof. reflexivity. Qed.

Lemma evaluateNode_Boolean (operator : BooleanOperator) (children : list Condition.t)
    (p : option Z) :
  evaluateNode this almanac (Condition.Boolean operator children p)
  = Rule.evaluateBoolean this (evaluateNode this almanac)
      (Condition.Boolean operator children p) operator children.
Proof.
  unfold evaluateNode at 1. rewrite depth_Boolean.
  change (Rule.evaluateCondition this almanac (S (S (depths children)))
            (Condition.Boolean operator children p))
    with (Rule.evaluateBoolean this (Rule.evaluateCondition this almanac (S (depths children)))
            (Condition.Boolean operator children p) operator children).
  apply evaluateBoolean_ext. intros c Hc.
  apply evaluateNode_fuel. apply depth_member in Hc. lia.
Qed.

Lemma prioritizeAndRun_fuel (n : nat) (conditions : list Condition.t)
    (operator : BooleanOperator) :
  (depths conditions < n)%nat ->
  Rule.prioritizeAndRun this (Rule.evaluateCondition this almanac n) conditions operator
  = Rule.prioritizeAndRun this (evaluateNode this almanac) conditions operator.
Proof.
  intros Hn. apply prioritizeAndRun_ext. intros c Hc.
  apply evaluateNode_fuel. apply depth_member in Hc. lia.
Qed.

(** [evaluate] on a rule whose root is a boolean node. *)
Lemma evaluate_root (operator : BooleanOperator) (children : list Condition.t)
    (p : option Z) :
  Rule.conditions this = Some (Condition.Boolean operator children p) ->
  Rule.evaluate listen this almanac
  = Rule.thenProcess listen this almanac
      (RuleResult.new (Condition.Boolean operator children p)
                      (Rule.event this) (Rule.priority this))
      (Rule.prioritizeAndRun this (evaluateNode this almanac) children operator).
Proof.
  intros Hroot. unfold Rule.evaluate, Rule.evaluateWith. rewrite Hroot.
  rewrite depth_Boolean. simpl RuleResult.conditions.
  unfold Rule.anyOperation, Rule.allOperation.
  destruct operator; rewrite prioritizeAndRun_fuel by lia; reflexivity.
Qed.

(** What [.then(processResult)] makes of an operation that resolved: the
    listeners of [success] or of [failure] are told; the promise resolves
    with the report, or is rejected with what a listener threw. *)
Lemma thenProcess_resolved (ruleResult : RuleResult.t) (value : option bool)
    (effects : Trace) :
  Rule.thenProcess listen this almanac ruleResult (Some (Resolved value, effects))
  = Some (match fst (Rule.emit listen this almanac
                       (if Rule.isTrue value then "success" else "failure")
                       (RuleResult.setResult value ruleResult)) with
          | Normal _ => Normal (Resolved (RuleResult.setResult value ruleResult))
          | Thrown err => Normal (Rejected err)
          end,
          effects ++ snd (Rule.emit listen this almanac
                            (if Rule.isTrue value then "success" else "failure")
                            (RuleResult.setResult value ruleResult))).
Proof.
  unfold Rule.thenProcess, Rule.processResult.
  destruct (Rule.isTrue value);
    match goal with |- context [Rule.emit ?l ?t ?a ?n ?r] =>
      destruct (Rule.emit l t a n r) as [[u|err] notified] end;
    reflexivity.
Qed.

End EvaluateFacts.

(** ** What a run can and cannot do *)

Ltac case_match :=
  match goal with
  | H : context [match ?x with _ => _ end] |- _ => destruct x eqn:?
  | |- context [match ?x with _ => _ end] => destruct x eqn:?
  end.

Lemma silent_nil : silent [].
Proof. intros e []. Qed.

Lemma silent_app (a b : Trace) : silent a -> silent b -> silent (a ++ b).
Proof.
  intros Ha Hb e He. apply in_app_or in He. destruct He; [apply Ha | apply Hb]; assumption.
Qed.

Section Runs.

Variable this : Rule.t.
Variable ev : Condition.t -> option Rule.Outcome.

Lemma mapEvaluate_total (conditions : list Condition.t) :
  totalOn ev conditions -> exists r, Rule.mapEvaluate ev conditions = Some r.
Proof.
  induction conditions as [|c conditions IH]; intros Htotal; simpl.
  - eexists. reflexivity.
  - destruct (Htotal c (or_introl eq_refl)) as [[[promise|err] effects] ->].
    + destruct IH as [[[promises|err] effects'] ->].
      * intros c' Hc'. apply Htotal. right. assumption.
      * eexists. reflexivity.
      * eexists. reflexivity.
    + eexists. reflexivity.
Qed.

Lemma mapEvaluate_silent (conditions : list Condition.t) r effects :
  silentEvaluator ev -> Rule.mapEvaluate ev conditions = Some (r, effects) -> silent effects.
Proof.
  intros Hsilent. revert r effects.
  induction conditions as [|c conditions IH]; intros r effects; simpl.
  - intros [= <- <-]. apply silent_nil.
  - destruct (ev c) as [[[promise|err] effects0]|] eqn:Hc; [| |discriminate].
    + destruct (Rule.mapEvaluate ev conditions) as [[[promises|err] effects1]|];
        [| |discriminate]; intros [= <- <-];
        (apply silent_app; [eapply Hsilent; eassumption | eapply IH; reflexivity]).
    + intros [= <- <-]. eapply Hsilent; eassumption.
Qed.

Lemma evaluateConditions_total (conditions : list Condition.t) (method : list bool -> bool) :
  totalOn ev conditions -> exists r, Rule.evaluateConditions ev conditions method = Some r.
Proof.
  intros Htotal. unfold Rule.evaluateConditions.
  destruct (mapEvaluate_total _ Htotal) as [[[promises|err] effects] ->].
  - destruct (Promise_all promises); eexists; reflexivity.
  - eexists; reflexivity.
Qed.

Lemma evaluateConditions_silent (conditions : list Condition.t) method r effects :
  silentEvaluator ev ->
  Rule.evaluateConditions ev conditions method = Some (r, effects) -> silent effects.
Proof.
  intros Hsilent. unfold Rule.evaluateConditions.
  destruct (Rule.mapEvaluate ev conditions) as [[[promises|err] effects0]|] eqn:Hmap;
    [| |discriminate].
  - destruct (Promise_all promises); intros [= <- <-];
      eapply mapEvaluate_silent; eassumption.
  - intros [= <- <-]. eapply mapEvaluate_silent; eassumption.
Qed.

(** A tier with a member on which the evaluator fails does not resolve. *)
Lemma mapEvaluate_fails (conditions : list Condition.t) c outcome effects :
  totalOn ev conditions -> In c conditions -> ev c = Some (outcome, effects) -> fails outcome ->
  exists effects',
    (exists err, Rule.mapEvaluate ev conditions = Some (Thrown err, effects'))
    \/ (exists promises err,
          Rule.mapEvaluate ev conditions = Some (Normal promises, effects')
          /\ Promise_all promises = Rejected err).
Proof.
  intros Htotal Hin Hc Hfails.
  induction conditions as [|c' conditions IH]; [destruct Hin|].
  assert (Hrest : totalOn ev conditions) by (intros x Hx; apply Htotal; right; assumption).
  simpl. destruct Hin as [->|Hin].
  - rewrite Hc. destruct outcome as [[b|err]|err]; [destruct Hfails | |].
    + destruct (mapEvaluate_total _ Hrest) as [[[promises|err'] effects'] ->].
      * eexists. right. do 2 eexists. split; reflexivity.
      * eexists. left. eexists. reflexivity.
    + eexists. left. eexists. reflexivity.
  - destruct (Htotal c' (or_introl eq_refl)) as [[[promise|err] effects0] ->].
    + destruct (IH Hrest Hin) as [effects' [[err ->]|[promises [err [-> Hall]]]]].
      * eexists. left. eexists. reflexivity.
      * eexists. right. exists (promise :: promises).
        destruct promise as [b|err'].
        -- exists err. split; [reflexivity|]. simpl. rewrite Hall. reflexivity.
        -- exists err'. split; reflexivity.
    + eexists. left. eexists. reflexivity.
Qed.

Lemma runSet_fails (operator : BooleanOperator) (method : list bool -> bool)
    (value : option bool) (effects : Trace) (tier : list Condition.t) c outcome effects0 :
  undecided operator value -> totalOn ev tier ->
  In c tier -> ev c = Some (outcome, effects0) -> fails outcome ->
  exists err effects',
    Rule.runSet ev operator method (Some (Resolved value, effects)) tier
    = Some (Rejected err, effects').
Proof.
  intros [Hany Hall] Htotal Hin Hc Hfails.
  unfold Rule.runSet. rewrite Hany, Hall. simpl.
  unfold Rule.evaluateConditions.
  destruct (mapEvaluate_fails tier c outcome effects0 Htotal Hin Hc Hfails)
    as [effects' [[err ->]|[promises [err [-> ->]]]]];
    do 2 eexists; reflexivity.
Qed.

Lemma runSet_total (operator : BooleanOperator) (method : list bool -> bool)
    (cursor : Rule.Cursor) (tier : list Condition.t) :
  totalOn ev tier -> exists r, Rule.runSet ev operator method (Some cursor) tier = Some r.
Proof.
  intros Htotal. unfold Rule.runSet.
  destruct cursor as [[value|err] effects]; [|eexists; reflexivity].
  destruct (Rule.isAny operator && Rule.isTrue value || false); [eexists; reflexivity|].
  destruct (Rule.isAll operator && Rule.isFalse value || false); [eexists; reflexivity|].
  destruct (evaluateConditions_total tier method Htotal) as [[[[b|err]|err] effects'] ->];
    eexists; reflexivity.
Qed.

Lemma runSet_silent (operator : BooleanOperator) (method : list bool -> bool)
    (state : Settled (option bool)) (effects : Trace) (tier : list Condition.t) r effects' :
  silentEvaluator ev -> silent effects ->
  Rule.runSet ev operator method (Some (state, effects)) tier = Some (r, effects') ->
  silent effects'.
Proof.
  intros Hev Hsilent. unfold Rule.runSet.
  destruct state as [value|err]; [|intros [= <- <-]; assumption].
  destruct (Rule.isAny operator && Rule.isTrue value || false);
    [intros [= <- <-]; assumption|].
  destruct (Rule.isAll operator && Rule.isFalse value || false);
    [intros [= <- <-]; assumption|].
  destruct (Rule.evaluateConditions ev tier method) as [[[[b|err]|err] effects0]|] eqn:Htier;
    [| | |discriminate];
    intros [= <- <-]; (apply silent_app; [assumption|]);
    eapply evaluateConditions_silent; eassumption.
Qed.

Lemma fold_left_runSet_total (operator : BooleanOperator) (method : list bool -> bool)
    (sets : list (list Condition.t)) (cursor : Rule.Cursor) :
  totalOn ev (List.concat sets) ->
  exists r, fold_left (Rule.runSet ev operator method) sets (Some cursor) = Some r.
Proof.
  revert cursor. induction sets as [|tier sets IH]; intros cursor Htotal; cbn [fold_left].
  - eexists. reflexivity.
  - destruct (runSet_total operator method cursor tier) as [r ->].
    + intros c Hc. apply Htotal. simpl. apply in_or_app. left. assumption.
    + apply IH. intros c Hc. apply Htotal. simpl. apply in_or_app. right. assumption.
Qed.

Lemma fold_left_runSet_silent (operator : BooleanOperator) (method : list bool -> bool)
    (sets : list (list Condition.t)) state effects r effects' :
  silentEvaluator ev -> silent effects ->
  fold_left (Rule.runSet ev operator method) sets (Some (state, effects)) = Some (r, effects') ->
  silent effects'.
Proof.
  intros Hev. revert state effects.
  induction sets as [|tier sets IH]; intros state effects Hsilent; cbn [fold_left].
  - intros [= <- <-]. assumption.
  - destruct (Rule.runSet ev operator method (Some (state, effects)) tier)
      as [[state1 effects1]|] eqn:Hstep.
    + apply IH. eapply runSet_silent; eassumption.
    + rewrite fold_left_runSet_none. discriminate.
Qed.

Lemma totalOn_tiers (conditions : list Condition.t) :
  totalOn ev conditions -> totalOn ev (List.concat (Rule.prioritizeConditions this conditions)).
Proof.
  intros Htotal c Hc. apply in_concat in Hc. destruct Hc as [tier [Htier Hc]].
  apply Htotal. eapply prioritizeConditions_member; eassumption.
Qed.

Lemma prioritizeAndRun_total (conditions : list Condition.t) (operator : BooleanOperator) :
  totalOn ev conditions -> exists r, Rule.prioritizeAndRun this ev conditions operator = Some r.
Proof.
  intros Htotal. unfold Rule.prioritizeAndRun.
  destruct conditions as [|c0 conditions]; [eexists; reflexivity|].
  apply fold_left_runSet_total, totalOn_tiers. assumption.
Qed.

Lemma prioritizeAndRun_silent (conditions : list Condition.t) (operator : BooleanOperator)
    r effects :
  silentEvaluator ev ->
  Rule.prioritizeAndRun this ev conditions operator = Some (r, effects) -> silent effects.
Proof.
  intros Hev. unfold Rule.prioritizeAndRun.
  destruct conditions as [|c0 conditions].
  - intros [= <- <-]. apply silent_nil.
  - apply fold_left_runSet_silent; [assumption | apply silent_nil].
Qed.

(** After a round the running result is a boolean, never [null]. *)
Lemma runSet_boolean (operator : BooleanOperator) (method : list bool -> bool)
    (cursor : option Rule.Cursor) (tier : list Condition.t) value effects :
  Rule.runSet ev operator method cursor tier = Some (Resolved value, effects) ->
  value <> None.
Proof.
  unfold Rule.runSet.
  destruct cursor as [[[previous|err] effects0]|]; [| |]; try discriminate.
  destruct (Rule.isAny operator && Rule.isTrue previous || false);
    [intros [= <- _]; discriminate|].
  destruct (Rule.isAll operator && Rule.isFalse previous || false);
    [intros [= <- _]; discriminate|].
  destruct (Rule.evaluateConditions ev tier method) as [[[[b|err]|err] effects1]|];
    try discriminate.
  intros [= <- _]. discriminate.
Qed.

Lemma fold_left_runSet_boolean (operator : BooleanOperator) (method : list bool -> bool)
    (sets : list (list Condition.t)) (cursor : option Rule.Cursor) value effects :
  sets <> [] ->
  fold_left (Rule.runSet ev operator method) sets cursor = Some (Resolved value, effects) ->
  value <> None.
Proof.
  induction sets as [|tier sets IH] using rev_ind; [congruence|].
  intros _. rewrite fold_left_app. cbn [fold_left]. apply runSet_boolean.
Qed.

(** A sibling list resolves to a boolean. *)
Lemma prioritizeAndRun_boolean (conditions : list Condition.t) (operator : BooleanOperator)
    value effects :
  Rule.prioritizeAndRun this ev conditions operator = Some (Resolved value, effects) ->
  exists b, value = Some b.
Proof.
  intros Hrun.
  assert (Hsome : value <> None).
  { unfold Rule.prioritizeAndRun in Hrun. destruct conditions as [|c0 conditions].
    - injection Hrun as <- _. discriminate.
    - eapply fold_left_runSet_boolean; [|exact Hrun].
      apply prioritizeConditions_nonempty. discriminate. }
  destruct value as [b|]; [exists b; reflexivity | congruence].
Qed.

(** A list with a member of a started tier on which the evaluator fails
    is rejected. *)
Lemma prioritizeAndRun_fails (conditions : list Condition.t) (operator : BooleanOperator)
    earlier tier later value effects c outcome effects0 :
  totalOn ev conditions ->
  Rule.prioritizeConditions this conditions = earlier ++ tier :: later ->
  fold_left (Rule.runSet ev operator (methodOf operator)) earlier (Some (Resolved None, []))
    = Some (Resolved value, effects) ->
  undecided operator value ->
  In c tier -> ev c = Some (outcome, effects0) -> fails outcome ->
  exists err effects',
    Rule.prioritizeAndRun this ev conditions operator = Some (Rejected err, effects').
Proof.
  intros Htotal Htiers Hearlier Hundecided Hin Hc Hfails.
  destruct conditions as [|c0 conditions].
  - rewrite prioritizeConditions_nil in Htiers. destruct earlier; discriminate.
  - unfold Rule.prioritizeAndRun. fold (methodOf operator).
    rewrite Htiers, fold_left_app, Hearlier. cbn [fold_left].
    destruct (runSet_fails operator (methodOf operator) value effects tier c outcome effects0)
      as [err [effects' ->]]; try assumption.
    + intros x Hx. apply Htotal.
      apply (prioritizeConditions_member this (c0 :: conditions) tier); [|assumption].
      rewrite Htiers. apply in_or_app. right. left. reflexivity.
    + exists err, effects'. apply fold_left_runSet_rejected.
Qed.

End Runs.

Section Evaluation.

Variable listen : Listening.
Variable this : Rule.t.
Variable almanac : Almanac.

Lemma evaluateLeaf_silent (c : Condition.t) (f o : string) (v : Value) :
  silent (snd (Rule.evaluateLeaf this almanac c f o v)).
Proof.
  unfold Rule.evaluateLeaf.
  destruct (Rule.engine this) as [e|]; [|apply silent_nil].
  destruct (Condition.evaluate f o v almanac (operators e)) as [r|err].
  - intros x [<-|[<-|[<-|[]]]]; reflexivity.
  - destruct (allowUndefinedFacts e && isUndefinedFact err);
      intros x [<-|[]]; reflexivity.
Qed.

Lemma evaluateBoolean_silent (ev : Condition.t -> option Rule.Outcome)
    (condition : Condition.t) (operator : BooleanOperator) (children : list Condition.t)
    outcome effects :
  silentEvaluator ev ->
  Rule.evaluateBoolean this ev condition operator children = Some (outcome, effects) ->
  silent effects.
Proof.
  intros Hev. unfold Rule.evaluateBoolean, Rule.allOperation, Rule.anyOperation.
  set (run := match operator with
              | All => Rule.prioritizeAndRun this ev children All
              | Any => Rule.prioritizeAndRun this ev children Any
              end).
  assert (Hrun : run = Rule.prioritizeAndRun this ev children operator)
    by (destruct operator; reflexivity).
  rewrite Hrun. clear run Hrun.
  destruct (Rule.prioritizeAndRun this ev children operator) as [[[value|err] effects0]|] eqn:Hrun;
    [| |discriminate].
  - intros [= <- <-]. apply silent_app.
    + eapply prioritizeAndRun_silent; eassumption.
    + intros x [<-|[]]. reflexivity.
  - intros [= <- <-]. eapply prioritizeAndRun_silent; eassumption.
Qed.

Lemma evaluateCondition_silent (fuel : nat) :
  silentEvaluator (Rule.evaluateCondition this almanac fuel).
Proof.
  induction fuel as [|fuel IH]; intros c outcome effects; simpl; [discriminate|].
  destruct c as [f o v p|operator children p].
  - intros [= Heq]. pose proof (evaluateLeaf_silent (Condition.Leaf f o v p) f o v) as Hs.
    rewrite Heq in Hs. exact Hs.
  - apply evaluateBoolean_silent. assumption.
Qed.

(** The evaluator calls no listener. *)
Lemma evaluateNode_silent : silentEvaluator (evaluateNode this almanac).
Proof. intros c. apply evaluateCondition_silent. Qed.

Lemma evaluateBoolean_total (ev : Condition.t -> option Rule.Outcome)
    (condition : Condition.t) (operator : BooleanOperator) (children : list Condition.t) :
  totalOn ev children ->
  exists outcome, Rule.evaluateBoolean this ev condition operator children = Some outcome.
Proof.
  intros Htotal. unfold Rule.evaluateBoolean, Rule.allOperation, Rule.anyOperation.
  destruct operator;
    [destruct (prioritizeAndRun_total this ev children All Htotal) as [[[value|err] effects] ->]
    |destruct (prioritizeAndRun_total this ev children Any Htotal) as [[[value|err] effects] ->]];
    eexists; reflexivity.
Qed.

Lemma evaluateCondition_total (fuel : nat) (c : Condition.t) :
  (Condition.depth c < fuel)%nat ->
  exists outcome, Rule.evaluateCondition this almanac fuel c = Some outcome.
Proof.
  revert c. induction fuel as [|fuel IH]; intros c Hfuel; [lia|].
  destruct c as [f o v p|operator children p]; simpl.
  - eexists. reflexivity.
  - apply evaluateBoolean_total. intros c Hc. apply IH.
    rewrite depth_Boolean in Hfuel. apply depth_member in Hc. lia.
Qed.

(** The evaluator answers on every condition: the fuel never runs out. *)
Lemma evaluateNode_total (c : Condition.t) :
  exists outcome, evaluateNode this almanac c = Some outcome.
Proof. apply evaluateCondition_total. lia. Qed.

Lemma evaluateNode_totalOn (conditions : list Condition.t) :
  totalOn (evaluateNode this almanac) conditions.
Proof. intros c _. apply evaluateNode_total. Qed.

(** [evaluate] always returns. *)
Lemma evaluate_total : exists r, Rule.evaluate listen this almanac = Some r.
Proof.
  destruct (Rule.conditions this) as [[f o v p|operator children p]|] eqn:Hroot.
  - unfold Rule.evaluate, Rule.evaluateWith. rewrite Hroot. eexists. reflexivity.
  - rewrite (evaluate_root listen this almanac operator children p Hroot).
    destruct (prioritizeAndRun_total this (evaluateNode this almanac) children operator
                (evaluateNode_totalOn children)) as [[[value|err] effects] ->].
    + rewrite thenProcess_resolved. eexists. reflexivity.
    + eexists. reflexivity.
  - unfold Rule.evaluate, Rule.evaluateWith. rewrite Hroot. eexists. reflexivity.
Qed.

(** When a leaf fails: there is no engine, or the evaluation of the leaf
    is rejected with an error that is not an allowed undefined fact. *)
Lemma evaluateLeaf_fails (c : Condition.t) (f o : string) (v : Value) :
  fails (fst (Rule.evaluateLeaf this almanac c f o v)) <->
  Rule.engine this = None
  \/ exists e err,
       Rule.engine this = Some e
       /\ Condition.evaluate f o v almanac (operators e) = Rejected err
       /\ allowUndefinedFacts e && isUndefinedFact err = false.
Proof.
  unfold Rule.evaluateLeaf.
  destruct (Rule.engine this) as [e|]; [|simpl; tauto].
  split.
  - intros Hfails. right. exists e.
    destruct (Condition.evaluate f o v almanac (operators e)) as [r|err];
      [destruct Hfails|].
    destruct (allowUndefinedFacts e && isUndefinedFact err) eqn:Hallowed;
      [destruct Hfails|].
    exists err. split; [reflexivity | split; [reflexivity | assumption]].
  - intros [Hnone|[e' [err [He [Hrejected Hrefused]]]]]; [discriminate|].
    injection He as <-. rewrite Hrejected, Hrefused. exact I.
Qed.

(** A failure of a called condition rejects the whole sibling list. *)
Lemma Called_fails (conditions : list Condition.t) (operator : BooleanOperator)
    (c : Condition.t) :
  Called this almanac conditions operator c ->
  forall outcome effects,
    evaluateNode this almanac c = Some (outcome, effects) -> fails outcome ->
    exists err effects',
      Rule.prioritizeAndRun this (evaluateNode this almanac) conditions operator
      = Some (Rejected err, effects').
Proof.
  induction 1 as [conditions operator earlier tier later value effects0 before c after
                    Htiers Hearlier Hundecided Htier Hbefore
                 |conditions operator operator' children p c Houter IHouter Hinner IHinner];
    intros outcome effects Hc Hfails.
  - eapply prioritizeAndRun_fails; try eassumption.
    + apply evaluateNode_totalOn.
    + subst tier. apply in_or_app. right. left. reflexivity.
  - destruct (IHinner outcome effects Hc Hfails) as [err [effects' Hrun]].
    apply (IHouter (Normal (Rejected err)) effects'); [|exact I].
    rewrite evaluateNode_Boolean. unfold Rule.evaluateBoolean, Rule.allOperation, Rule.anyOperation.
    destruct operator'; rewrite Hrun; reflexivity.
Qed.

End Evaluation.

(** ** The examples of the specification *)

(** End to end: [age >= 18] against an almanac where [age] is [21]. *)
Example eligible_fires :
  Rule.evaluate listenersReturn eligibleRule exampleAlmanac
  = let leaf := Condition.Leaf "age" "greaterThanInclusive" (Num (Int 18)) None in
    let ruleResult :=
      RuleResult.mk (Condition.Boolean All [leaf] None)
                    (Some (mkAction (Str "eligible") None)) (Some (Int 1)) (Some true) in
    Some (Normal (Resolved ruleResult),
          [FactValue "age"; SetFactResult leaf (Num (Int 21)); SetResult leaf true;
           Notified "success" 0%nat (Some (mkAction (Str "eligible") None)) ruleResult]).
Proof. reflexivity. Qed.

(** Tier ordering: priorities 3, 1, 2 under [all]; the tier of priority 3
    is false and the facts of the tiers 2 and 1 are not resolved. *)
Example all_stops_at_first_false_tier :
  Rule.evaluate listenersReturn C1_rule exampleAlmanac
  = let ruleResult :=
      RuleResult.mk (Condition.Boolean All [C1_third; C1_first; C1_second] None)
                    (Some (mkAction (Str "fired") None)) (Some (Int 1)) (Some false) in
    Some (Normal (Resolved ruleResult),
          [FactValue "a"; SetFactResult C1_third (Num (Int 1)); SetResult C1_third false;
           Notified "failure" 1%nat (Some (mkAction (Str "fired") None)) ruleResult]).
Proof. reflexivity. Qed.

(** Short circuit under [any]: the first leaf holds, the fact of the
    second is not resolved. *)
Example any_stops_at_first_true_tier :
  Rule.evaluate listenersReturn
                (exampleRule (Condition.Boolean Any [anySecond; anyFirst] None) false)
                exampleAlmanac
  = let ruleResult :=
      RuleResult.mk (Condition.Boolean Any [anySecond; anyFirst] None)
                    (Some (mkAction (Str "fired") None)) (Some (Int 1)) (Some true) in
    Some (Normal (Resolved ruleResult),
          [FactValue "a"; SetFactResult anyFirst (Num (Int 1)); SetResult anyFirst true;
           Notified "success" 0%nat (Some (mkAction (Str "fired") None)) ruleResult]).
Proof. reflexivity. Qed.

(** ** C3 *)

(** A round of calls: the listeners are called in order, each once; the
    round returns when they all return, and throws what the first of them
    that throws has thrown, the listeners after it not being called. *)
Lemma callEach_outcome (listen : Listening) (almanac : Almanac)
    (eventName : string) (ruleResult : RuleResult.t) (called : list nat) :
  match Rule.callEach listen almanac eventName ruleResult called with
  | (Normal _, notified) =>
      notified = notifications eventName ruleResult called
      /\ forall l, In l called ->
           listen l (RuleResult.event ruleResult) almanac ruleResult = Normal tt
  | (Thrown err, notified) =>
      exists before thrower after,
        called = before ++ thrower :: after
        /\ (forall l, In l before ->
              listen l (RuleResult.event ruleResult) almanac ruleResult = Normal tt)
        /\ listen thrower (RuleResult.event ruleResult) almanac ruleResult = Thrown err
        /\ notified = notifications eventName ruleResult (before ++ [thrower])
  end.
Proof.
  induction called as [|l called IH]; simpl.
  - split; [reflexivity | intros l []].
  - destruct (listen l (RuleResult.event ruleResult) almanac ruleResult) as [[]|err] eqn:Hl.
    + destruct (Rule.callEach listen almanac eventName ruleResult called)
        as [[u|err] notified].
      * destruct IH as [-> Hall]. split; [reflexivity|].
        intros x [<-|Hx]; [assumption | apply Hall; assumption].
      * destruct IH as [before [thrower [after [-> [Hbefore [Hthrower ->]]]]]].
        exists (l :: before), thrower, after. repeat split; try assumption.
        intros x [<-|Hx]; [assumption | apply Hbefore; assumption].
    + exists [], l, called. repeat split; [intros x [] | assumption].
Qed.

(** C3: when the evaluator fails on a condition that is called during an
    evaluation (it throws, or its promise is rejected: any error of a
    leaf but an undefined fact that the engine allows), the promise of
    [evaluate] is rejected, so no result is delivered, and no listener is
    called.  In every evaluation the listeners are called only once the
    root operation has resolved, with a boolean for result, after
    everything else: those of [success] when the result is true, else
    those of [failure], oldest first, each once per registration.  When
    they have all returned the promise resolves with the report; when
    one of them throws, those after it are not called and the promise is
    rejected with what it threw. *)
Theorem C3_failure_unwinds_without_notification
    (listen : Listening) (this : Rule.t) (almanac : Almanac) :
  (forall operator children p c outcome effects,
      Rule.conditions this = Some (Condition.Boolean operator children p) ->
      Called this almanac children operator c ->
      evaluateNode this almanac c = Some (outcome, effects) ->
      fails outcome ->
      exists err effects',
        Rule.evaluate listen this almanac = Some (Normal (Rejected err), effects')
        /\ silent effects')
  /\ (forall completion effects,
        Rule.evaluate listen this almanac = Some (completion, effects) ->
        match completion with
        | Normal (Resolved ruleResult) =>
            exists result inner,
              RuleResult.result ruleResult = Some result
              /\ silent inner
              /\ effects
                 = inner ++ notifications (if result then "success" else "failure")
                              ruleResult
                              (Rule.registered this (if result then "success" else "failure"))
        | Normal (Rejected err) =>
            silent effects
            \/ exists result inner ruleResult before thrower after,
                 RuleResult.result ruleResult = Some result
                 /\ silent inner
                 /\ Rule.registered this (if result then "success" else "failure")
                    = before ++ thrower :: after
                 /\ (forall l, In l before ->
                       listen l (RuleResult.event ruleResult) almanac ruleResult = Normal tt)
                 /\ listen thrower (RuleResult.event ruleResult) almanac ruleResult
                    = Thrown err
                 /\ effects
                    = inner ++ notifications (if result then "success" else "failure")
                                 ruleResult (before ++ [thrower])
        | Thrown _ => silent effects
        end)
  /\ ((forall listener ruleResult,
         listen listener (RuleResult.event ruleResult) almanac ruleResult = Normal tt) ->
      forall completion effects,
        Rule.evaluate listen this almanac = Some (completion, effects) ->
        match completion with
        | Normal (Resolved ruleResult) =>
            exists result inner,
              RuleResult.result ruleResult = Some result
              /\ silent inner
              /\ effects
                 = inner ++ notifications (if result then "success" else "failure")
                              ruleResult
                              (Rule.registered this (if result then "success" else "failure"))
        | _ => silent effects
        end).
Proof.
  assert (Hevery : forall completion effects,
        Rule.evaluate listen this almanac = Some (completion, effects) ->
        match completion with
        | Normal (Resolved ruleResult) =>
            exists result inner,
              RuleResult.result ruleResult = Some result
              /\ silent inner
              /\ effects
                 = inner ++ notifications (if result then "success" else "failure")
                              ruleResult
                              (Rule.registered this (if result then "success" else "failure"))
        | Normal (Rejected err) =>
            silent effects
            \/ exists result inner ruleResult before thrower after,
                 RuleResult.result ruleResult = Some result
                 /\ silent inner
                 /\ Rule.registered this (if result then "success" else "failure")
                    = before ++ thrower :: after
                 /\ (forall l, In l before ->
                       listen l (RuleResult.event ruleResult) almanac ruleResult = Normal tt)
                 /\ listen thrower (RuleResult.event ruleResult) almanac ruleResult
                    = Thrown err
                 /\ effects
                    = inner ++ notifications (if result then "success" else "failure")
                                 ruleResult (before ++ [thrower])
        | Thrown _ => silent effects
        end).
  { intros completion effects.
    destruct (Rule.conditions this) as [[f o v p|operator children p]|] eqn:Hroot.
    + unfold Rule.evaluate, Rule.evaluateWith. rewrite Hroot.
      intros [= <- <-]. apply silent_nil.
    + rewrite (evaluate_root listen this almanac operator children p Hroot).
      destruct (Rule.prioritizeAndRun this (evaluateNode this almanac) children operator)
        as [[[value|err] effects0]|] eqn:Hrun; [| |discriminate].
      * assert (Hinner : silent effects0)
          by (eapply prioritizeAndRun_silent; [apply evaluateNode_silent | eassumption]).
        destruct (prioritizeAndRun_boolean this _ _ _ _ _ Hrun) as [result ->].
        rewrite thenProcess_resolved.
        assert (Hname : (if Rule.isTrue (Some result) then "success" else "failure")
                        = (if result then "success" else "failure"))
          by (destruct result; reflexivity).
        rewrite Hname. unfold Rule.emit.
        pose proof (callEach_outcome listen almanac
                      (if result then "success" else "failure")
                      (RuleResult.setResult (Some result)
                         (RuleResult.new (Condition.Boolean operator children p)
                                         (Rule.event this) (Rule.priority this)))
                      (Rule.registered this (if result then "success" else "failure")))
          as Hround.
        destruct (Rule.callEach listen almanac _ _ _) as [[u|err] notified];
          simpl fst; simpl snd; intros [= <- <-].
        -- destruct Hround as [-> _]. exists result, effects0.
           split; [reflexivity | split; [assumption | reflexivity]].
        -- right. destruct Hround as [before [thrower [after [Hsplit [Hb [Ht ->]]]]]].
           exists result, effects0,
             (RuleResult.setResult (Some result)
                (RuleResult.new (Condition.Boolean operator children p)
                                (Rule.event this) (Rule.priority this))),
             before, thrower, after.
           split; [reflexivity|]. repeat split; assumption.
      * simpl. intros [= <- <-]. left.
        eapply prioritizeAndRun_silent; [apply evaluateNode_silent | eassumption].
    + unfold Rule.evaluate, Rule.evaluateWith. rewrite Hroot.
      intros [= <- <-]. apply silent_nil. }
  split; [|split; [exact Hevery|]].
  - intros operator children p c outcome effects Hroot Hcalled Hc Hfails.
    destruct (Called_fails this almanac children operator c Hcalled outcome effects Hc Hfails)
      as [err [effects' Hrun]].
    exists err, effects'.
    rewrite (evaluate_root listen this almanac operator children p Hroot), Hrun.
    split; [reflexivity|].
    eapply prioritizeAndRun_silent; [apply evaluateNode_silent | eassumption].
  - intros Hreturn completion effects Heval. specialize (Hevery _ _ Heval).
    destruct completion as [[ruleResult|err]|err]; try assumption.
    destruct Hevery as [Hsilent|[result [inner [rr [before [thrower [after H]]]]]]];
      [assumption|].
    destruct H as [_ [_ [_ [_ [Hthrows _]]]]]. rewrite Hreturn in Hthrows. discriminate.
Qed.

(** C3 at work: a leaf nested two levels down whose fact is undefined,
    under an engine that does not allow undefined facts. *)
Lemma C3_witness :
  exists err effects,
    Rule.evaluate listenersReturn C3_rule exampleAlmanac = Some (Normal (Rejected err), effects)
    /\ silent effects.
Proof.
  refine (proj1 (C3_failure_unwinds_without_notification
                   listenersReturn C3_rule exampleAlmanac)
            All [Condition.Boolean Any [C3_leaf] None] None C3_leaf
            (Normal (Rejected (undefinedFact "missing"))) [FactValue "missing"]
            eq_refl _ eq_refl I).
  eapply Called_nested.
  - eapply (Called_member _ _ _ _ [] [Condition.Boolean Any [C3_leaf] None] [] None []
              [] (Condition.Boolean Any [C3_leaf] None) []).
    + reflexivity.
    + reflexivity.
    + split; reflexivity.
    + reflexivity.
    + intros b [].
  - eapply (Called_member _ _ _ _ [] [C3_leaf] [] None [] [] C3_leaf []).
    + reflexivity.
    + reflexivity.
    + split; reflexivity.
    + reflexivity.
    + intros b [].
Defined.

(** ** C2 *)

(** Effects that do not write the [result] of a node leave it as it was. *)
Lemma annotationsAfter_unwritten (effects : Trace) (before : Annotations) (c : Condition.t) :
  (forall b, ~ In (SetResult c b) effects) ->
  Annotation_result (annotationsAfter effects before c) = Annotation_result (before c).
Proof.
  unfold annotationsAfter. revert before.
  induction effects as [|effect effects IH]; intros before Hunwritten; [reflexivity|].
  cbn [fold_left]. rewrite IH.
  - destruct effect as [f|c' v|c' b|n l e r]; simpl; try reflexivity.
    + destruct (Condition_eq_dec c c'); reflexivity.
    + destruct (Condition_eq_dec c c') as [->|Hne]; [|reflexivity].
      exfalso. apply (Hunwritten b). left. reflexivity.
  - intros b Hb. apply (Hunwritten b). right. assumption.
Qed.

(** C2, the code at work: a leaf whose fact the almanac does not know
    (an error of code [UNDEFINED_FACT]).  When the engine allows
    undefined facts the error is swallowed and the leaf answers [false],
    yet the only effect is the question to the almanac: the [result] of
    the leaf is not written and stays what it was before the evaluation.
    When the engine does not allow them the promise of the leaf is
    rejected with that same error. *)
Theorem C2_undefined_fact_is_false_but_unrecorded
    (this : Rule.t) (almanac : Almanac) (e : Engine)
    (fact operator : string) (value : Value) (priority : option Z) (err : Error) :
  Rule.engine this = Some e ->
  almanac fact = Rejected err ->
  isUndefinedFact err = true ->
  evaluateNode this almanac (Condition.Leaf fact operator value priority)
  = Some (Normal (if allowUndefinedFacts e then Resolved false else Rejected err),
          [FactValue fact])
  /\ forall outcome effects before,
       evaluateNode this almanac (Condition.Leaf fact operator value priority)
       = Some (outcome, effects) ->
       Annotation_result
         (annotationsAfter effects before (Condition.Leaf fact operator value priority))
       = Annotation_result (before (Condition.Leaf fact operator value priority)).
Proof.
  intros He Hfact Hcode.
  assert (Hleaf : evaluateNode this almanac (Condition.Leaf fact operator value priority)
                  = Some (Normal (if allowUndefinedFacts e
                                  then Resolved false else Rejected err),
                          [FactValue fact])).
  { rewrite evaluateNode_Leaf. unfold Rule.evaluateLeaf.
    rewrite He. unfold Condition.evaluate. rewrite Hfact, Hcode.
    destruct (allowUndefinedFacts e); reflexivity. }
  split; [exact Hleaf|].
  intros outcome effects before Heq. rewrite Hleaf in Heq. injection Heq as _ <-.
  apply annotationsAfter_unwritten. intros b [Hb|[]]. discriminate.
Qed.

(** The rule [{all: [missing = 1]}] under an engine that allows undefined
    facts.  The result is [false] and the failure listener is told, but
    the leaf carries no [result]; and after a first evaluation in which
    the fact was known and the leaf held, the leaf still carries [true]. *)
Lemma C2_witness :
  evaluateNode C2_rule exampleAlmanac C2_leaf
  = Some (Normal (Resolved false), [FactValue "missing"])
  /\ (exists ruleResult,
        Rule.evaluate listenersReturn C2_rule exampleAlmanac
        = Some (Normal (Resolved ruleResult),
                [FactValue "missing";
                 Notified "failure" 1%nat (Some (mkAction (Str "fired") None)) ruleResult])
        /\ RuleResult.result ruleResult = Some false)
  /\ Annotation_result
       (annotationsAfter (effectsOf listenersReturn C2_rule exampleAlmanac) unannotated C2_leaf)
     = None
  /\ Annotation_result
       (annotationsAfter (effectsOf listenersReturn C2_rule exampleAlmanac)
          (annotationsAfter (effectsOf listenersReturn C2_rule C2_knowing) unannotated) C2_leaf)
     = Some true.
Proof.
  split; [|split; [|split]].
  - exact (proj1 (C2_undefined_fact_is_false_but_unrecorded
                    C2_rule exampleAlmanac (exampleEngine true)
                    "missing" "equal" (Num (Int 1)) None (undefinedFact "missing")
                    eq_refl eq_refl eq_refl)).
  - eexists. split; reflexivity.
  - reflexivity.
  - vm_compute. reflexivity.
Defined.

(** ** C7 and C10 *)

(** C7: when the argument parses to an integer, [setPriority] stores it
    and returns the rule if it is greater than zero, and otherwise throws
    [Priority must be greater than zero] and leaves the rule as it was. *)
Theorem C7_setPriority_accepts_positive_rejects_others
    (this : Rule.t) (priority : Value) (z : Z) :
  parseInt priority = Int z ->
  Rule.setPriority priority this
  = if 0 <? z
    then (Rule.mk (Some (Int z)) (Rule.conditions this) (Rule.event this)
                  (Rule.engine this) (Rule.listeners this),
          Normal tt)
    else (this, Thrown (newError "Priority must be greater than zero")).
Proof.
  intros Hparse. unfold Rule.setPriority. rewrite Hparse. simpl.
  destruct (Z.leb_spec z 0), (Z.ltb_spec 0 z); try lia; reflexivity.
Qed.

Lemma C7_witness :
  Rule.setPriority (Str "42") Rule.empty
  = (Rule.mk (Some (Int 42)) None None None [], Normal tt).
Proof.
  exact (C7_setPriority_accepts_positive_rejects_others Rule.empty (Str "42") 42 eq_refl).
Defined.

(** C10: when the argument does not parse to a number, [setPriority]
    does not throw: it stores NaN, which is no priority of at least 1, and
    returns the rule. *)
Theorem C10_setPriority_stores_NaN (this : Rule.t) (priority : Value) :
  parseInt priority = NaN ->
  Rule.setPriority priority this
  = (Rule.mk (Some NaN) (Rule.conditions this) (Rule.event this)
             (Rule.engine this) (Rule.listeners this),
     Normal tt)
  /\ forall z, 1 <= z -> Rule.priority (fst (Rule.setPriority priority this)) <> Some (Int z).
Proof.
  intros Hparse. unfold Rule.setPriority. rewrite Hparse. simpl.
  split; [reflexivity | discriminate].
Qed.

Lemma C10_witness :
  Rule.setPriority (Str "high") Rule.empty = (Rule.mk (Some NaN) None None None [], Normal tt).
Proof.
  exact (proj1 (C10_setPriority_stores_NaN Rule.empty (Str "high") eq_refl)).
Defined.

(** ** C5 *)

(** C5, as stated, fails: a definition that carries both keys is not
    refused; it is stored (as an [any] node) and the rule is returned.
    And a definition that carries one of the keys is not stored when it
    has a property of its own named [hasOwnProperty] that is no function:
    the guard fails on calling it. *)
Lemma C5_both_keys_are_accepted :
  hasOwnProperty C5_both "all" = true
  /\ hasOwnProperty C5_both "any" = true
  /\ Rule.setConditions noCalls C5_both Rule.empty
     = (Rule.mk None (Some (Condition.Boolean Any [] None)) None None [], Normal tt)
  /\ hasOwnProperty C5_shadowed "all" = true
  /\ hasOwnProperty C5_shadowed "any" = false
  /\ Rule.setConditions noCalls C5_shadowed Rule.empty = (Rule.empty, Thrown notAFunction).
Proof. repeat split. Qed.

(** What [setConditions] does once its guard has let the definition
    through. *)
Lemma setConditions_construct (call : Functions) (this : Rule.t) (definition : Value) :
  (exists a, callHasOwnProperty call "conditions" definition "all" = Normal a
             /\ (truthy a = true
                 \/ exists b, callHasOwnProperty call "conditions" definition "any" = Normal b
                              /\ truthy b = true)) ->
  Rule.setConditions call definition this
  = match Condition.new definition with
    | Thrown e => (this, Thrown e)
    | Normal c =>
        (Rule.mk (Rule.priority this) (Some c) (Rule.event this)
                 (Rule.engine this) (Rule.listeners this),
         Normal tt)
    end.
Proof.
  intros [a [Hall Hguard]]. unfold Rule.setConditions. rewrite Hall.
  destruct (truthy a) eqn:Ha; simpl negb; cbv iota.
  - reflexivity.
  - destruct Hguard as [Hguard|[b [-> ->]]]; [discriminate | reflexivity].
Qed.

(** C5 (amended): [setConditions] asks the definition, by calling its
    [hasOwnProperty], for [all] and then, if need be, for [any].  For a
    definition that has no property of its own named [hasOwnProperty]:
    it throws its own error exactly when the definition has neither an
    [all] nor an [any] key, and then leaves the rule as it was; a
    definition with at least one of the keys, both included, goes to the
    Condition constructor: the node it returns is stored as the root and
    the rule is returned, and an error it throws is passed on with nothing
    stored.  For a definition that has such a property: when it is no
    function the call fails with a TypeError and nothing is stored,
    whatever the keys; when it is a function, its answers stand for the
    keys, and what it throws is passed on with nothing stored. *)
Theorem C5_setConditions_requires_all_or_any
    (call : Functions) (this : Rule.t) (definition : Value) :
  definition <> Undefined -> definition <> Null ->
  (hasOwnProperty definition "hasOwnProperty" = false ->
   (hasOwnProperty definition "all" = false -> hasOwnProperty definition "any" = false ->
    Rule.setConditions call definition this = (this, Thrown (newError Rule.rootMessage)))
   /\ (forall c,
         hasOwnProperty definition "all" = true \/ hasOwnProperty definition "any" = true ->
         Condition.new definition = Normal c ->
         Rule.setConditions call definition this
         = (Rule.mk (Rule.priority this) (Some c) (Rule.event this)
                    (Rule.engine this) (Rule.listeners this),
            Normal tt))
   /\ (forall e,
         hasOwnProperty definition "all" = true \/ hasOwnProperty definition "any" = true ->
         Condition.new definition = Thrown e ->
         Rule.setConditions call definition this = (this, Thrown e)))
  /\ (hasOwnProperty definition "hasOwnProperty" = true ->
      (forall f, get definition "hasOwnProperty" <> Fun f) ->
      Rule.setConditions call definition this = (this, Thrown notAFunction))
  /\ (forall f,
        hasOwnProperty definition "hasOwnProperty" = true ->
        get definition "hasOwnProperty" = Fun f ->
        (forall e,
            call f definition [Str "all"] = Thrown e
            \/ (exists a, call f definition [Str "all"] = Normal a /\ truthy a = false
                          /\ call f definition [Str "any"] = Thrown e) ->
            Rule.setConditions call definition this = (this, Thrown e))
        /\ (forall a b,
              call f definition [Str "all"] = Normal a -> truthy a = false ->
              call f definition [Str "any"] = Normal b -> truthy b = false ->
              Rule.setConditions call definition this
              = (this, Thrown (newError Rule.rootMessage)))
        /\ (forall a,
              call f definition [Str "all"] = Normal a ->
              truthy a = true
              \/ (exists b, call f definition [Str "any"] = Normal b /\ truthy b = true) ->
              Rule.setConditions call definition this
              = match Condition.new definition with
                | Thrown e => (this, Thrown e)
                | Normal c =>
                    (Rule.mk (Rule.priority this) (Some c) (Rule.event this)
                             (Rule.engine this) (Rule.listeners this),
                     Normal tt)
                end)).
Proof.
  intros Hundefined Hnull. split; [|split].
  - intros Hplain.
    assert (Hanswer : forall k,
               callHasOwnProperty call "conditions" definition k
               = Normal (Bool (hasOwnProperty definition k))).
    { intros k. destruct definition as [| | | | | |props|]; try reflexivity; try congruence.
      simpl in Hplain |- *. rewrite Hplain. reflexivity. }
    split; [|split].
    + intros Hall Hany. unfold Rule.setConditions. rewrite !Hanswer, Hall, Hany. reflexivity.
    + intros c Hkey Hnew.
      rewrite setConditions_construct, Hnew; [reflexivity|].
      exists (Bool (hasOwnProperty definition "all")). split; [apply Hanswer|].
      destruct Hkey as [Hkey|Hkey]; [left; simpl; assumption|].
      right. exists (Bool true). split; [rewrite Hanswer, Hkey|]; reflexivity.
    + intros e Hkey Hnew.
      rewrite setConditions_construct, Hnew; [reflexivity|].
      exists (Bool (hasOwnProperty definition "all")). split; [apply Hanswer|].
      destruct Hkey as [Hkey|Hkey]; [left; simpl; assumption|].
      right. exists (Bool true). split; [rewrite Hanswer, Hkey|]; reflexivity.
  - intros Hown Hnofun.
    destruct definition as [| | | | | |props|]; try discriminate.
    simpl in Hown, Hnofun. unfold Rule.setConditions. simpl callHasOwnProperty.
    rewrite Hown.
    destruct (lookup "hasOwnProperty" props) as [| | | | | | |f]; try reflexivity.
    exfalso. apply (Hnofun f). reflexivity.
  - intros f Hown Hfun.
    assert (Hanswer : forall k,
               callHasOwnProperty call "conditions" definition k
               = call f definition [Str k]).
    { intros k. destruct definition as [| | | | | |props|]; try discriminate.
      simpl in Hown, Hfun |- *. rewrite Hown, Hfun. reflexivity. }
    split; [|split].
    + intros e [Hall|[a [Hall [Ha Hany]]]]; unfold Rule.setConditions;
        rewrite !Hanswer, Hall; [reflexivity|].
      rewrite Ha, Hany. reflexivity.
    + intros a b Hall Ha Hany Hb. unfold Rule.setConditions.
      rewrite !Hanswer, Hall, Ha, Hany, Hb. reflexivity.
    + intros a Hall Hguard. apply setConditions_construct.
      exists a. rewrite !Hanswer. split; [assumption|].
      destruct Hguard as [Ha|[b [Hany Hb]]]; [left; assumption|].
      right. exists b. split; assumption.
Qed.

Lemma C5_witness :
  Rule.setConditions noCalls (Obj [("all", Arr [])]) Rule.empty
  = (Rule.mk None (Some (Condition.Boolean All [] None)) None None [], Normal tt).
Proof.
  refine (proj1 (proj2 (proj1 (C5_setConditions_requires_all_or_any
                                 noCalls Rule.empty (Obj [("all", Arr [])]) _ _)
                              eq_refl))
                (Condition.Boolean All [] None) (or_introl eq_refl) eq_refl);
    discriminate.
Defined.

(** ** C8 *)

(** C8, as stated, fails: the conditions are processed before the
    listeners are registered; when the conditions are refused the
    constructor ends with no listener registered. *)
Lemma C8_conditions_come_before_listeners :
  Rule.new noCalls (Rule.OfValue C8_bad_conditions)
  = (Rule.empty, Thrown (newError Rule.rootMessage))
  /\ Rule.listeners (fst (Rule.new noCalls (Rule.OfValue C8_bad_conditions))) = [].
Proof. split; reflexivity. Qed.

(** C8 (amended): when the definition carries callables [onSuccess] and
    [onFailure], the constructor first processes the conditions, with no
    listener registered yet (a refusal of the conditions ends the
    construction in that state); it then registers the two callables, and
    only then processes the priority and the event: whether these are
    refused or accepted, the two listeners are registered, in that order,
    on the rule that holds the processed conditions. *)
Theorem C8_listeners_registered_after_conditions_before_priority_and_event
    (call : Functions) (options : Rule.Options) (onSuccess onFailure : nat) :
  get (scoped options) "onSuccess" = Fun onSuccess ->
  get (scoped options) "onFailure" = Fun onFailure ->
  (forall this e,
      afterConditions call options = (this, Thrown e) ->
      Rule.new call options = (this, Thrown e) /\ Rule.listeners this = [])
  /\ (forall this,
        afterConditions call options = (this, Normal tt) ->
        Rule.listeners this = []
        /\ Rule.new call options
           = Rule.andThen (Rule.setPriority (priorityOf options))
                          (Rule.setEvent call (eventOf options))
               (Rule.mk (Rule.priority this) (Rule.conditions this) (Rule.event this)
                        (Rule.engine this)
                        [("success", onSuccess); ("failure", onFailure)])
        /\ Rule.listeners (fst (Rule.new call options))
           = [("success", onSuccess); ("failure", onFailure)]).
Proof.
  intros Hsuccess Hfailure.
  assert (Hobject : truthy (scoped options) = true).
  { destruct (scoped options); try discriminate; reflexivity. }
  assert (Hlisteners : forall this c,
             afterConditions call options = (this, c) -> Rule.listeners this = []).
  { unfold afterConditions, Rule.when, Rule.returnThis, Rule.setConditions, Rule.throw.
    intros this c. repeat case_match; intros [= <- <-]; reflexivity. }
  split.
  - intros this e Hafter. split; [|eapply Hlisteners; eassumption].
    unfold Rule.new. fold (scoped options). unfold Rule.andThen at 1.
    unfold afterConditions in Hafter. rewrite Hafter. reflexivity.
  - intros this Hafter. pose proof (Hlisteners this _ Hafter) as Hnone.
    split; [assumption|].
    assert (Hnew : Rule.new call options
                   = Rule.andThen (Rule.setPriority (priorityOf options))
                       (Rule.setEvent call (eventOf options))
                       (Rule.mk (Rule.priority this) (Rule.conditions this) (Rule.event this)
                          (Rule.engine this)
                          [("success", onSuccess); ("failure", onFailure)])).
    { unfold Rule.new. fold (scoped options). unfold Rule.andThen at 1.
      unfold afterConditions in Hafter. rewrite Hafter.
      unfold Rule.andThen at 1. unfold JS.and at 1. rewrite Hobject, Hsuccess. simpl Rule.when.
      cbv iota beta. rewrite Hnone. simpl app.
      unfold Rule.andThen at 1. unfold JS.and at 1. rewrite Hobject, Hfailure. simpl Rule.when.
      cbv iota beta.
      cbn [Rule.priority Rule.conditions Rule.event Rule.engine Rule.listeners app].
      reflexivity. }
    split; [exact Hnew|].
    rewrite Hnew. unfold Rule.andThen, Rule.setPriority, Rule.throw.
    destruct (leZero (parseInt (priorityOf options))); [reflexivity|].
    unfold Rule.setEvent, Rule.throw.
    destruct (negb (truthy (eventOf options))); [reflexivity|].
    destruct (callHasOwnProperty call "event" (eventOf options) "type") as [hasType|e];
      [|reflexivity].
    destruct (negb (truthy hasType)); reflexivity.
Qed.

(** C8 at work: the priority is refused; by then the conditions are
    stored and both listeners are registered. *)
Lemma C8_witness :
  Rule.new noCalls C8_options
  = (Rule.mk None (Some (Condition.Boolean All [] None)) None None
             [("success", 7%nat); ("failure", 8%nat)],
     Thrown (newError "Priority must be greater than zero")).
Proof.
  exact (proj1 (proj2 (proj2 (C8_listeners_registered_after_conditions_before_priority_and_event
                                noCalls C8_options 7 8 eq_refl eq_refl)
                             (Rule.mk None (Some (Condition.Boolean All [] None)) None None [])
                             eq_refl))).
Defined.

(** ** JSON round trips *)


Lemma Condition_nested_ind (P : Condition.t -> Prop) :
  (forall f o v p, P (Condition.Leaf f o v p)) ->
  (forall operator children p, Forall P children -> P (Condition.Boolean operator children p)) ->
  forall c, P c.
Proof.
  intros HL HB. fix IH 1. intros [f o v p|operator children p]; [apply HL|].
  apply HB. induction children as [|c children IHchildren]; constructor;
    [apply IH | assumption].
Qed.





(** ** C9 *)

(** The event survives the trip when [params], if present, is truthy. *)
Lemma setEvent_actionValue (call : Functions) (this : Rule.t) (a : Action) :
  match Action_params a with
  | Some p => truthy p = true
  | None => True
  end ->
  Rule.setEvent call (Rule.actionValue a) this
  = (Rule.mk (Rule.priority this) (Rule.conditions this) (Some a)
             (Rule.engine this) (Rule.listeners this),
     Normal tt).
Proof.
  destruct a as [ty [p|]]; simpl; intros Hp.
  - unfold Rule.setEvent. simpl. rewrite Hp. reflexivity.
  - reflexivity.
Qed.





(* ===================================================================== *)
(** * Further properties of the code *)
(* ===================================================================== *)

(** ** The tiers are a partition *)

Lemma tierOf_cons_other (engine : option Engine) (c : Condition.t)
    (conditions : list Condition.t) (p : Z) :
  Rule.tierPriority engine c <> p ->
  tierOf engine (c :: conditions) p = tierOf engine conditions p.
Proof.
  intros Hne. unfold tierOf. simpl.
  destruct (Z.eqb_spec (Rule.tierPriority engine c) p); [contradiction | reflexivity].
Qed.

Lemma tierOf_cons_same (engine : option Engine) (c : Condition.t)
    (conditions : list Condition.t) :
  tierOf engine (c :: conditions) (Rule.tierPriority engine c)
  = c :: tierOf engine conditions (Rule.tierPriority engine c).
Proof. unfold tierOf. simpl. rewrite Z.eqb_refl. reflexivity. Qed.

Lemma tiers_cons_absent (engine : option Engine) (c : Condition.t)
    (conditions : list Condition.t) (priorities : list Z) :
  ~ In (Rule.tierPriority engine c) priorities ->
  map (tierOf engine (c :: conditions)) priorities
  = map (tierOf engine conditions) priorities.
Proof.
  intros Hnotin. apply map_ext_in. intros p Hp. apply tierOf_cons_other.
  intros Heq. apply Hnotin. rewrite Heq. assumption.
Qed.

(** Grouping by distinct priorities that cover the list loses nothing and
    repeats nothing. *)
Lemma tiers_permutation (engine : option Engine) (conditions : list Condition.t)
    (priorities : list Z) :
  NoDup priorities ->
  (forall c, In c conditions -> In (Rule.tierPriority engine c) priorities) ->
  Permutation (List.concat (map (tierOf engine conditions) priorities)) conditions.
Proof.
  intros Hnodup. induction conditions as [|c conditions IH]; intros Hcover.
  - assert (Hnil : List.concat (map (tierOf engine []) priorities) = []).
    { clear. induction priorities; simpl; auto. }
    rewrite Hnil. constructor.
  - assert (Hin : In (Rule.tierPriority engine c) priorities)
      by (apply Hcover; left; reflexivity).
    apply in_split in Hin. destruct Hin as [before [after Hsplit]].
    assert (Hparts : ~ In (Rule.tierPriority engine c) before
                     /\ ~ In (Rule.tierPriority engine c) after).
    { rewrite Hsplit in Hnodup. apply NoDup_remove_2 in Hnodup.
      split; intros Hin; apply Hnodup, in_or_app; [left | right]; assumption. }
    destruct Hparts as [Hbefore Hafter].
    specialize (IH (fun x Hx => Hcover x (or_intror Hx))).
    rewrite Hsplit in IH |- *.
    rewrite map_app, concat_app in IH |- *. cbn [map List.concat] in IH |- *.
    rewrite (tiers_cons_absent engine c conditions before Hbefore),
            (tiers_cons_absent engine c conditions after Hafter),
            tierOf_cons_same.
    rewrite <- app_comm_cons.
    apply Permutation_sym, Permutation_cons_app, Permutation_sym. exact IH.
Qed.

Lemma StronglySorted_gt_NoDup (l : list Z) : StronglySorted Z.gt l -> NoDup l.
Proof.
  induction 1 as [|a l Hsorted IH Hall]; constructor; [|assumption].
  intros Hin. rewrite Forall_forall in Hall. specialize (Hall a Hin). lia.
Qed.

Lemma StronglySorted_tail (l1 l2 : list Z) :
  StronglySorted Z.gt (l1 ++ l2) -> StronglySorted Z.gt l2.
Proof.
  induction l1 as [|a l1 IH]; simpl; [trivial|].
  intros Hsorted. apply StronglySorted_inv in Hsorted. apply IH, Hsorted.
Qed.

Lemma prioritizeConditions_permutation (this : Rule.t) (conditions : list Condition.t) :
  Permutation (List.concat (Rule.prioritizeConditions this conditions)) conditions.
Proof.
  destruct (prioritizeConditions_tiers this conditions) as [ps [Hsorted [Hkeys Heq]]].
  rewrite Heq. apply tiers_permutation; [apply StronglySorted_gt_NoDup; assumption|].
  intros c Hc. apply Hkeys. exists c. split; [assumption | reflexivity].
Qed.

(** The priorities split along a split of the tiers. *)
Lemma tiers_split (engine : option Engine) (conditions : list Condition.t)
    (priorities : list Z) (earlier later : list (list Condition.t))
    (tier : list Condition.t) :
  map (tierOf engine conditions) priorities = earlier ++ tier :: later ->
  exists ps1 p ps2,
    priorities = ps1 ++ p :: ps2
    /\ tier = tierOf engine conditions p
    /\ later = map (tierOf engine conditions) ps2.
Proof.
  revert earlier. induction priorities as [|q ps IH]; intros earlier Hsplit.
  - destruct earlier; discriminate.
  - destruct earlier as [|t earlier]; simpl in Hsplit.
    + injection Hsplit as Htier Hlater. exists [], q, ps. auto.
    + injection Hsplit as _ Hrest.
      destruct (IH earlier Hrest) as [ps1 [p [ps2 [-> [Ht Hl]]]]].
      exists (q :: ps1), p, ps2. auto.
Qed.

(** X1: the tiers of [prioritizeConditions] are a partition of the
    conditions: laid end to end they are the conditions, each as often as
    it was given; no tier is empty; the members of one tier, whichever
    tier it is, have one priority; and the members of the tiers after a
    tier have a strictly lower priority than its members. *)
Theorem prioritizeConditions_partitions (this : Rule.t) (conditions : list Condition.t) :
  Permutation (List.concat (Rule.prioritizeConditions this conditions)) conditions
  /\ (forall tier, In tier (Rule.prioritizeConditions this conditions) -> tier <> [])
  /\ (forall tier c c',
        In tier (Rule.prioritizeConditions this conditions) ->
        In c tier -> In c' tier ->
        Rule.tierPriority (Rule.engine this) c = Rule.tierPriority (Rule.engine this) c')
  /\ (forall earlier tier later lower c d,
        Rule.prioritizeConditions this conditions = earlier ++ tier :: later ->
        In c tier -> In lower later -> In d lower ->
        Rule.tierPriority (Rule.engine this) d < Rule.tierPriority (Rule.engine this) c).
Proof.
  split; [apply prioritizeConditions_permutation|].
  destruct (prioritizeConditions_tiers this conditions) as [ps [Hsorted [Hkeys Heq]]].
  rewrite Heq.
  assert (Hp : forall p x, In x (tierOf (Rule.engine this) conditions p) ->
                           Rule.tierPriority (Rule.engine this) x = p).
  { intros p x Hx. unfold tierOf in Hx. apply filter_In in Hx. apply Z.eqb_eq, Hx. }
  split; [|split].
  - intros tier Htier Hnil. apply in_map_iff in Htier. destruct Htier as [p [<- Hin]].
    apply (proj1 (tierOf_nil_iff _ _ _) Hnil). apply Hkeys. assumption.
  - intros tier c c' Htier Hc Hc'. apply in_map_iff in Htier.
    destruct Htier as [p [<- _]]. rewrite (Hp p c Hc), (Hp p c' Hc'). reflexivity.
  - intros earlier tier later lower c d Hsplit Hc Hlower Hd.
    destruct (tiers_split _ _ _ _ _ _ Hsplit) as [ps1 [p [ps2 [-> [-> ->]]]]].
    rewrite (Hp p c Hc).
    apply in_map_iff in Hlower. destruct Hlower as [q [<- Hq]].
    rewrite (Hp q d Hd).
    apply StronglySorted_tail in Hsorted.
    apply StronglySorted_inv in Hsorted. destruct Hsorted as [_ Hall].
    rewrite Forall_forall in Hall. specialize (Hall _ Hq). lia.
Qed.

(** X1 at work: the leaves of priorities 3, 1 and 2 are all kept; the two
    leaves of the priority 1 share the last tier, and come after the leaf
    of priority 3. *)
Lemma prioritizeConditions_partitions_witness :
  Permutation
    (List.concat (Rule.prioritizeConditions C1_rule
                    [C1_third; C1_first; C1_second; explicitLeaf]))
    [C1_third; C1_first; C1_second; explicitLeaf]
  /\ Rule.tierPriority (Rule.engine C1_rule) C1_first
     = Rule.tierPriority (Rule.engine C1_rule) explicitLeaf
  /\ Rule.tierPriority (Rule.engine C1_rule) C1_first
     < Rule.tierPriority (Rule.engine C1_rule) C1_third.
Proof.
  destruct (prioritizeConditions_partitions C1_rule
              [C1_third; C1_first; C1_second; explicitLeaf])
    as [Hperm [_ [Hsame Hlower]]].
  split; [exact Hperm | split].
  - apply (Hsame [C1_first; explicitLeaf]).
    + right. right. left. reflexivity.
    + left. reflexivity.
    + right. left. reflexivity.
  - apply (Hlower [] [C1_third] [[C1_second]; [C1_first; explicitLeaf]]
                  [C1_first; explicitLeaf] C1_third C1_first).
    + reflexivity.
    + left. reflexivity.
    + right. left. reflexivity.
    + left. reflexivity.
Defined.

(** X2: conditions that all have one priority form a single tier, the
    list itself in its order: the whole list is started at once. *)
Theorem prioritizeConditions_single_tier (this : Rule.t) (conditions : list Condition.t)
    (p : Z) :
  conditions <> [] ->
  (forall c, In c conditions -> Rule.tierPriority (Rule.engine this) c = p) ->
  Rule.prioritizeConditions this conditions = [conditions].
Proof.
  intros Hne Hsame.
  destruct (prioritizeConditions_tiers this conditions) as [ps [Hsorted [Hkeys ->]]].
  assert (Hps : ps = [p]).
  { destruct conditions as [|c0 conditions]; [congruence|].
    assert (Hp : In p ps).
    { apply Hkeys. exists c0. split; [left; reflexivity | apply Hsame; left; reflexivity]. }
    assert (Hall : forall q, In q ps -> q = p).
    { intros q Hq. apply Hkeys in Hq. destruct Hq as [c [Hc <-]]. apply Hsame. assumption. }
    destruct ps as [|a [|b ps]]; [destruct Hp | |].
    - rewrite (Hall a (or_introl eq_refl)). reflexivity.
    - exfalso. apply StronglySorted_inv in Hsorted. destruct Hsorted as [_ Hfor].
      rewrite Forall_forall in Hfor. specialize (Hfor b (or_introl eq_refl)).
      rewrite (Hall a (or_introl eq_refl)) in Hfor.
      rewrite (Hall b (or_intror (or_introl eq_refl))) in Hfor. lia. }
  rewrite Hps. simpl. f_equal. unfold tierOf.
  clear - Hsame. induction conditions as [|c conditions IH]; [reflexivity|].
  simpl. rewrite (Hsame c (or_introl eq_refl)), Z.eqb_refl. f_equal.
  apply IH. intros x Hx. apply Hsame. right. assumption.
Qed.

(** X2 at work: a leaf without priority and a leaf of priority 1 are one
    tier. *)
Lemma prioritizeConditions_single_tier_witness :
  Rule.prioritizeConditions engineless [defaultLeaf; explicitLeaf]
  = [[defaultLeaf; explicitLeaf]].
Proof.
  apply (prioritizeConditions_single_tier engineless [defaultLeaf; explicitLeaf] 1).
  - discriminate.
  - simpl. intros c [Hc|[Hc|[]]]; rewrite <- Hc; reflexivity.
Defined.

(** ** The outcome of a run in which every member resolves *)

Lemma methodOf_app (operator : BooleanOperator) (a b : list bool) :
  methodOf operator (a ++ b)
  = if Rule.isAll operator then methodOf operator a && methodOf operator b
    else methodOf operator a || methodOf operator b.
Proof.
  destruct operator; unfold methodOf, JS.every, JS.some; simpl.
  - apply forallb_app.
  - apply existsb_app.
Qed.

Lemma methodOf_permutation (operator : BooleanOperator) (a b : list bool) :
  Permutation a b -> methodOf operator a = methodOf operator b.
Proof.
  induction 1 as [|x a b Hperm IH|x y a|a b c Hab IHab Hbc IHbc].
  - reflexivity.
  - change (x :: a) with ([x] ++ a). change (x :: b) with ([x] ++ b).
    rewrite !methodOf_app, IH. reflexivity.
  - change (y :: x :: a) with ([y] ++ [x] ++ a). change (x :: y :: a) with ([x] ++ [y] ++ a).
    rewrite !methodOf_app.
    destruct operator; unfold methodOf, JS.every, JS.some; simpl;
      destruct x, y; reflexivity.
  - congruence.
Qed.

Section Resolving.

Variable this : Rule.t.
Variable ev : Condition.t -> option Rule.Outcome.
Variable value : Condition.t -> bool.

Lemma mapEvaluate_resolves (tier : list Condition.t) :
  resolvesOn ev value tier ->
  exists effects,
    Rule.mapEvaluate ev tier = Some (Normal (map (fun c => Resolved (value c)) tier), effects).
Proof.
  induction tier as [|c tier IH]; intros Hres; simpl.
  - eexists. reflexivity.
  - destruct (Hres c (or_introl eq_refl)) as [effects ->].
    destruct IH as [effects' ->]; [intros x Hx; apply Hres; right; assumption|].
    eexists. reflexivity.
Qed.

Lemma Promise_all_resolved (tier : list Condition.t) :
  Promise_all (map (fun c => Resolved (value c)) tier) = Resolved (map value tier).
Proof.
  induction tier as [|c tier IH]; simpl; [reflexivity|]. rewrite IH. reflexivity.
Qed.

Lemma evaluateConditions_resolves (tier : list Condition.t) (method : list bool -> bool) :
  resolvesOn ev value tier ->
  exists effects,
    Rule.evaluateConditions ev tier method
    = Some (Normal (Resolved (method (map value tier))), effects).
Proof.
  intros Hres. unfold Rule.evaluateConditions.
  destruct (mapEvaluate_resolves tier Hres) as [effects ->].
  rewrite Promise_all_resolved. eexists. reflexivity.
Qed.

Lemma fold_left_runSet_resolves (operator : BooleanOperator) (tiers : list (list Condition.t)) :
  resolvesOn ev value (List.concat tiers) -> tiers <> [] ->
  forall running effects,
    undecided operator running ->
    exists effects',
      fold_left (Rule.runSet ev operator (methodOf operator)) tiers
                (Some (Resolved running, effects))
      = Some (Resolved (Some (methodOf operator (map value (List.concat tiers)))), effects').
Proof.
  induction tiers as [|tier tiers IH]; intros Hres Hne running effects [Hany Hall];
    [congruence|].
  cbn [fold_left List.concat]. unfold Rule.runSet at 2. rewrite Hany, Hall. simpl orb. cbv iota.
  destruct (evaluateConditions_resolves tier (methodOf operator)) as [effects1 ->].
  { intros c Hc. apply Hres. simpl. apply in_or_app. left. assumption. }
  rewrite map_app, methodOf_app.
  set (first := methodOf operator (map value tier)).
  assert (Hrest : resolvesOn ev value (List.concat tiers)).
  { intros c Hc. apply Hres. simpl. apply in_or_app. right. assumption. }
  destruct tiers as [|next tiers].
  - simpl. eexists. destruct operator; simpl;
      rewrite ?andb_true_r, ?orb_false_r; reflexivity.
  - destruct operator, first eqn:Hfirst; simpl Rule.isAll; cbv iota.
    + (* all, true: the next tier is run *)
      destruct (IH Hrest ltac:(discriminate) (Some true) (effects ++ effects1))
        as [effects' Heq]; [split; reflexivity|].
      exists effects'. refine (eq_trans Heq _). reflexivity.
    + (* all, false: decided *)
      eexists. rewrite fold_left_runSet_decided by reflexivity. reflexivity.
    + (* any, true: decided *)
      eexists. rewrite fold_left_runSet_decided by reflexivity. reflexivity.
    + (* any, false: the next tier is run *)
      destruct (IH Hrest ltac:(discriminate) (Some false) (effects ++ effects1))
        as [effects' Heq]; [split; reflexivity|].
      exists effects'. refine (eq_trans Heq _). reflexivity.
Qed.

Lemma prioritizeAndRun_resolves (conditions : list Condition.t) (operator : BooleanOperator) :
  resolvesOn ev value conditions ->
  exists effects,
    Rule.prioritizeAndRun this ev conditions operator
    = Some (Resolved (Some (aggregate operator (map value conditions))), effects).
Proof.
  intros Hres. destruct conditions as [|c0 conditions].
  - eexists. reflexivity.
  - unfold Rule.prioritizeAndRun. fold (methodOf operator).
    destruct (fold_left_runSet_resolves operator
                (Rule.prioritizeConditions this (c0 :: conditions)))
      with (running := @None bool) (effects := @nil Effect) as [effects Hrun].
    + intros c Hc. apply Hres. apply in_concat in Hc. destruct Hc as [tier [Htier Hc]].
      eapply prioritizeConditions_member; eassumption.
    + apply prioritizeConditions_nonempty. discriminate.
    + split; destruct operator; reflexivity.
    + exists effects. refine (eq_trans Hrun _). do 4 f_equal.
      change (aggregate operator (map value (c0 :: conditions)))
        with (methodOf operator (map value (c0 :: conditions))).
      apply methodOf_permutation, Permutation_map.
      apply prioritizeConditions_permutation.
Qed.

End Resolving.

(** X3: when every condition of a sibling list resolves, the list
    resolves to the plain aggregate of all their values ([every] under
    [all], [some] under [any], [true] for the empty list): tiers and short
    circuits decide what is evaluated, not the answer. *)
Theorem prioritizeAndRun_is_the_plain_aggregate
    (this : Rule.t) (ev : Condition.t -> option Rule.Outcome) (value : Condition.t -> bool)
    (conditions : list Condition.t) (operator : BooleanOperator) :
  resolvesOn ev value conditions ->
  exists effects,
    Rule.prioritizeAndRun this ev conditions operator
    = Some (Resolved (Some (aggregate operator (map value conditions))), effects).
Proof. apply prioritizeAndRun_resolves. Qed.

(** X3 at work: under [any] the leaf of priority 2 holds and decides; the
    answer is that of [some] over both leaves. *)
Lemma prioritizeAndRun_is_the_plain_aggregate_witness :
  exists effects,
    Rule.prioritizeAndRun eligibleRule (evaluateNode eligibleRule exampleAlmanac)
                          [anySecond; anyFirst] Any
    = Some (Resolved (Some (JS.some [false; true])), effects).
Proof.
  apply (prioritizeAndRun_is_the_plain_aggregate
           eligibleRule (evaluateNode eligibleRule exampleAlmanac)
           (valueOrFalse (exampleEngine false) exampleAlmanac)
           [anySecond; anyFirst] Any).
  simpl. intros c [Hc|[Hc|[]]]; rewrite <- Hc; eexists; reflexivity.
Defined.

(** ** The value of a tree *)

Lemma allSome_map (f : Condition.t -> option bool) (children : list Condition.t)
    (values : list bool) :
  allSome (map f children) = Some values ->
  values = map (fun c => match f c with Some b => b | None => false end) children
  /\ forall c, In c children -> exists b, f c = Some b.
Proof.
  revert values. induction children as [|c children IH]; intros values; simpl.
  - intros [= <-]. split; [reflexivity | intros c []].
  - destruct (f c) as [b|] eqn:Hc; [|discriminate].
    destruct (allSome (map f children)) as [bs|]; [|discriminate].
    intros [= <-]. destruct (IH bs eq_refl) as [-> Hall]. split; [reflexivity|].
    intros x [<-|Hx]; [exists b; assumption | apply Hall; assumption].
Qed.

Section ValueOf.

Variable this : Rule.t.
Variable almanac : Almanac.
Variable e : Engine.
Hypothesis Hengine : Rule.engine this = Some e.

Lemma evaluateNode_valueOf (c : Condition.t) :
  forall b, valueOf e almanac c = Some b ->
  exists effects, evaluateNode this almanac c = Some (Normal (Resolved b), effects).
Proof.
  induction c as [f o v p|operator children p IH] using Condition_nested_ind; intros b.
  - simpl. unfold leafValue. rewrite evaluateNode_Leaf. unfold Rule.evaluateLeaf.
    rewrite Hengine.
    destruct (Condition.evaluate f o v almanac (operators e)) as [r|err].
    + intros [= <-]. eexists. reflexivity.
    + destruct (allowUndefinedFacts e && isUndefinedFact err); [|discriminate].
      intros [= <-]. eexists. reflexivity.
  - simpl.
    destruct (allSome (map (valueOf e almanac) children)) as [values|] eqn:Hvalues;
      [|discriminate].
    intros [= <-]. apply allSome_map in Hvalues. destruct Hvalues as [-> Hall].
    rewrite evaluateNode_Boolean.
    destruct (prioritizeAndRun_resolves this (evaluateNode this almanac)
                (valueOrFalse e almanac) children operator) as [effects Hrun].
    { intros c Hc. rewrite Forall_forall in IH. destruct (Hall c Hc) as [b Hb].
      unfold valueOrFalse. rewrite Hb. apply IH; assumption. }
    unfold valueOrFalse in Hrun.
    unfold Rule.evaluateBoolean, Rule.allOperation, Rule.anyOperation.
    destruct operator; rewrite Hrun; simpl Rule.isTrue;
      match goal with |- context [aggregate ?o ?l] => destruct (aggregate o l) end;
      eexists; reflexivity.
Qed.

(** The root operation of a tree that has a value resolves with it. *)
Lemma prioritizeAndRun_valueOf
    (operator : BooleanOperator) (children : list Condition.t) (p : option Z) (b : bool) :
  valueOf e almanac (Condition.Boolean operator children p) = Some b ->
  exists inner,
    silent inner
    /\ Rule.prioritizeAndRun this (evaluateNode this almanac) children operator
       = Some (Resolved (Some b), inner).
Proof.
  simpl.
  destruct (allSome (map (valueOf e almanac) children)) as [values|] eqn:Hvalues;
    [|discriminate].
  intros [= <-]. apply allSome_map in Hvalues. destruct Hvalues as [-> Hall].
  destruct (prioritizeAndRun_resolves this (evaluateNode this almanac)
              (valueOrFalse e almanac) children operator) as [inner Hrun].
  { intros c Hc. destruct (Hall c Hc) as [b Hb]. unfold valueOrFalse. rewrite Hb.
    apply evaluateNode_valueOf. assumption. }
  exists inner. split; [|exact Hrun].
  eapply prioritizeAndRun_silent; [apply evaluateNode_silent | exact Hrun].
Qed.

End ValueOf.

(** [evaluate] once the root operation has resolved with a boolean. *)
Lemma evaluate_reported (listen : Listening) (this : Rule.t) (almanac : Almanac)
    (operator : BooleanOperator) (children : list Condition.t) (p : option Z)
    (b : bool) (inner : Trace) :
  Rule.conditions this = Some (Condition.Boolean operator children p) ->
  Rule.prioritizeAndRun this (evaluateNode this almanac) children operator
    = Some (Resolved (Some b), inner) ->
  Rule.evaluate listen this almanac
  = Some (reported listen this almanac (Condition.Boolean operator children p) b inner).
Proof.
  intros Hroot Hrun.
  rewrite (evaluate_root listen this almanac operator children p Hroot), Hrun.
  rewrite thenProcess_resolved. unfold reported. destruct b; reflexivity.
Qed.

(** When the listeners that are called all return, the report is
    delivered and each of them has been told once, oldest first. *)
Lemma reported_returning (listen : Listening) (this : Rule.t) (almanac : Almanac)
    (root : Condition.t) (b : bool) (inner : Trace) :
  (forall listener ruleResult,
      In listener (Rule.registered this (if b then "success" else "failure")) ->
      listen listener (RuleResult.event ruleResult) almanac ruleResult = Normal tt) ->
  reported listen this almanac root b inner
  = (Normal (Resolved (RuleResult.mk root (Rule.event this) (Rule.priority this) (Some b))),
     inner ++ notifications (if b then "success" else "failure")
                (RuleResult.mk root (Rule.event this) (Rule.priority this) (Some b))
                (Rule.registered this (if b then "success" else "failure"))).
Proof.
  intros Hreturn. unfold reported, Rule.emit.
  pose proof (callEach_outcome listen almanac (if b then "success" else "failure")
                (RuleResult.mk root (Rule.event this) (Rule.priority this) (Some b))
                (Rule.registered this (if b then "success" else "failure"))) as Hround.
  destruct (Rule.callEach listen almanac _ _ _) as [[u|err] notified]; simpl.
  - destruct Hround as [-> _]. reflexivity.
  - destruct Hround as [before [thrower [after [Hsplit [_ [Hthrows _]]]]]].
    rewrite Hreturn in Hthrows; [discriminate|].
    rewrite Hsplit. apply in_or_app. right. left. reflexivity.
Qed.

(** X4: when no leaf of the tree fails, the root operation resolves with
    the value of the tree read without tiers, so that priorities never
    change the result of a rule, only the facts that are resolved on the
    way; [evaluate] then tells the listeners and resolves with a report
    of that result, unless a listener throws, which rejects the promise
    with what it threw.  With listeners that return, the promise
    resolves. *)
Theorem evaluate_is_the_value_of_the_tree
    (listen : Listening) (this : Rule.t) (almanac : Almanac) (e : Engine)
    (operator : BooleanOperator) (children : list Condition.t) (p : option Z) (b : bool) :
  Rule.engine this = Some e ->
  Rule.conditions this = Some (Condition.Boolean operator children p) ->
  valueOf e almanac (Condition.Boolean operator children p) = Some b ->
  exists inner,
    silent inner
    /\ Rule.prioritizeAndRun this (evaluateNode this almanac) children operator
       = Some (Resolved (Some b), inner)
    /\ Rule.evaluate listen this almanac
       = Some (reported listen this almanac (Condition.Boolean operator children p) b inner)
    /\ ((forall listener ruleResult,
           In listener (Rule.registered this (if b then "success" else "failure")) ->
           listen listener (RuleResult.event ruleResult) almanac ruleResult = Normal tt) ->
        Rule.evaluate listen this almanac
        = Some (Normal (Resolved (RuleResult.mk (Condition.Boolean operator children p)
                                                (Rule.event this) (Rule.priority this)
                                                (Some b))),
                inner ++ notifications (if b then "success" else "failure")
                           (RuleResult.mk (Condition.Boolean operator children p)
                                          (Rule.event this) (Rule.priority this) (Some b))
                           (Rule.registered this (if b then "success" else "failure")))).
Proof.
  intros Hengine Hroot Hvalue.
  destruct (prioritizeAndRun_valueOf this almanac e Hengine operator children p b Hvalue)
    as [inner [Hsilent Hrun]].
  pose proof (evaluate_reported listen this almanac operator children p b inner Hroot Hrun)
    as Heval.
  exists inner. split; [assumption | split; [assumption | split; [assumption|]]].
  intros Hreturn. rewrite Heval. f_equal. apply reported_returning. assumption.
Qed.

(** X4 at work: the tiers of priorities 3, 2 and 1 under [all]; the first
    leaf does not hold, so neither does the rule; its failure listener is
    told, and throws. *)
Lemma evaluate_is_the_value_of_the_tree_witness :
  exists inner,
    Rule.prioritizeAndRun C1_rule (evaluateNode C1_rule exampleAlmanac)
                          [C1_third; C1_first; C1_second] All
      = Some (Resolved (Some false), inner)
    /\ Rule.evaluate oneThrows C1_rule exampleAlmanac
       = Some (Normal (Rejected listenerFailed),
               inner ++ [Notified "failure" 1%nat (Some (mkAction (Str "fired") None))
                           (RuleResult.mk
                              (Condition.Boolean All [C1_third; C1_first; C1_second] None)
                              (Some (mkAction (Str "fired") None)) (Some (Int 1))
                              (Some false))]).
Proof.
  destruct (evaluate_is_the_value_of_the_tree
              oneThrows C1_rule exampleAlmanac (exampleEngine false)
              All [C1_third; C1_first; C1_second] None false eq_refl eq_refl eq_refl)
    as [inner [_ [Hrun [Heval _]]]].
  exists inner. split; [exact Hrun | exact Heval].
Defined.

(** ** What an evaluation keeps to *)

Section Keeps.

Variable this : Rule.t.
Variable PF : Effect -> Prop.
Variable PE : Error -> Prop.

Section Callback.

Variable ev : Condition.t -> option Rule.Outcome.

Lemma mapEvaluate_keeps (conditions : list Condition.t) r effects :
  keepsOn PF PE ev conditions ->
  Rule.mapEvaluate ev conditions = Some (r, effects) ->
  Forall PF effects
  /\ match r with
     | Thrown err => PE err
     | Normal promises =>
         forall err, Promise_all promises = Rejected err -> PE err
     end.
Proof.
  revert r effects. induction conditions as [|c conditions IH]; intros r effects Hkeeps; simpl.
  - intros [= <- <-]. split; [constructor | discriminate].
  - destruct (ev c) as [[[promise|err] effects0]|] eqn:Hc; [| |discriminate].
    + destruct (Hkeeps c (or_introl eq_refl) _ _ Hc) as [Heffects Hfails].
      assert (Hrest : keepsOn PF PE ev conditions)
        by (intros x Hx; apply Hkeeps; right; assumption).
      destruct (Rule.mapEvaluate ev conditions) as [[[promises|err] effects1]|] eqn:Hmap;
        [| |discriminate]; intros [= <- <-];
        destruct (IH _ _ Hrest eq_refl) as [Heffects1 Hrest1];
        (split; [apply Forall_app; split; assumption|]).
      * intros err. simpl. destruct promise as [b|err0].
        -- destruct (Promise_all promises) as [bs|err1] eqn:Hall; [discriminate|].
           intros [= <-]. apply Hrest1. reflexivity.
        -- intros [= <-]. exact Hfails.
      * exact Hrest1.
    + intros [= <- <-]. destruct (Hkeeps c (or_introl eq_refl) _ _ Hc) as [Heffects Hfails].
      split; assumption.
Qed.

Lemma evaluateConditions_keeps (conditions : list Condition.t) method r effects :
  keepsOn PF PE ev conditions ->
  Rule.evaluateConditions ev conditions method = Some (r, effects) ->
  Forall PF effects /\ failsWith PE r.
Proof.
  intros Hkeeps. unfold Rule.evaluateConditions.
  destruct (Rule.mapEvaluate ev conditions) as [[[promises|err] effects0]|] eqn:Hmap;
    [| |discriminate];
    destruct (mapEvaluate_keeps _ _ _ Hkeeps Hmap) as [Heffects Herr].
  - destruct (Promise_all promises) as [bs|err] eqn:Hall; intros [= <- <-];
      (split; [assumption|]); [exact I | apply Herr; reflexivity].
  - intros [= <- <-]. split; assumption.
Qed.

Lemma runSet_keeps operator method cursor tier cursor' :
  keepsOn PF PE ev tier -> cursorKeeps PF PE cursor ->
  Rule.runSet ev operator method (Some cursor) tier = Some cursor' ->
  cursorKeeps PF PE cursor'.
Proof.
  intros Hkeeps [Heffects Herr]. destruct cursor as [[running|err] effects]; simpl in *.
  - destruct (Rule.isAny operator && Rule.isTrue running || false);
      [intros [= <-]; split; [assumption | discriminate]|].
    destruct (Rule.isAll operator && Rule.isFalse running || false);
      [intros [= <-]; split; [assumption | discriminate]|].
    destruct (Rule.evaluateConditions ev tier method) as [[[[b|err]|err] effects1]|] eqn:Htier;
      [| | |discriminate];
      destruct (evaluateConditions_keeps _ _ _ _ Hkeeps Htier) as [Heffects1 Hfails];
      intros [= <-]; (split; [apply Forall_app; split; assumption|]); simpl.
    + discriminate.
    + intros ? [= <-]. exact Hfails.
    + intros ? [= <-]. exact Hfails.
  - intros [= <-]. split; assumption.
Qed.

Lemma fold_left_runSet_keeps operator method tiers cursor cursor' :
  keepsOn PF PE ev (List.concat tiers) -> cursorKeeps PF PE cursor ->
  fold_left (Rule.runSet ev operator method) tiers (Some cursor) = Some cursor' ->
  cursorKeeps PF PE cursor'.
Proof.
  revert cursor. induction tiers as [|tier tiers IH]; intros cursor Hkeeps Hcursor;
    cbn [fold_left].
  - intros [= <-]. assumption.
  - destruct (Rule.runSet ev operator method (Some cursor) tier) as [cursor1|] eqn:Hstep.
    + apply IH.
      * intros c Hc. apply Hkeeps. simpl. apply in_or_app. right. assumption.
      * apply (runSet_keeps operator method cursor tier cursor1); try assumption.
        intros c Hc. apply Hkeeps. simpl. apply in_or_app. left. assumption.
    + rewrite fold_left_runSet_none. discriminate.
Qed.

Lemma prioritizeAndRun_keeps conditions operator cursor :
  keepsOn PF PE ev conditions ->
  Rule.prioritizeAndRun this ev conditions operator = Some cursor ->
  cursorKeeps PF PE cursor.
Proof.
  intros Hkeeps. unfold Rule.prioritizeAndRun.
  destruct conditions as [|c0 conditions].
  - intros [= <-]. split; [constructor | discriminate].
  - apply fold_left_runSet_keeps.
    + intros c Hc. apply in_concat in Hc. destruct Hc as [tier [Htier Hc]].
      apply Hkeeps. eapply prioritizeConditions_member; eassumption.
    + split; [constructor | discriminate].
Qed.

End Callback.

Variable almanac : Almanac.

(** The conditions looked at: a set of nodes closed under children. *)
Variable Good : Condition.t -> Prop.

Hypothesis Good_children : forall operator children p c,
  Good (Condition.Boolean operator children p) -> In c children -> Good c.

Hypothesis Good_leaf : forall f o v p,
  Good (Condition.Leaf f o v p) ->
  Forall PF (snd (Rule.evaluateLeaf this almanac (Condition.Leaf f o v p) f o v))
  /\ failsWith PE (fst (Rule.evaluateLeaf this almanac (Condition.Leaf f o v p) f o v)).

Hypothesis Good_result : forall c b, Good c -> PF (SetResult c b).

Lemma evaluateCondition_keeps (fuel : nat) (c : Condition.t) outcome effects :
  Good c ->
  Rule.evaluateCondition this almanac fuel c = Some (outcome, effects) ->
  Forall PF effects /\ failsWith PE outcome.
Proof.
  revert c outcome effects. induction fuel as [|fuel IH]; intros c outcome effects Hgood;
    simpl; [discriminate|].
  destruct c as [f o v p|operator children p].
  - intros [= Heq]. destruct (Good_leaf f o v p Hgood) as [Heffects Hfails].
    rewrite Heq in Heffects, Hfails. split; assumption.
  - unfold Rule.evaluateBoolean, Rule.allOperation, Rule.anyOperation.
    set (run := match operator with
                | All => Rule.prioritizeAndRun this _ children All
                | Any => Rule.prioritizeAndRun this _ children Any
                end).
    assert (Hrun : run = Rule.prioritizeAndRun this (Rule.evaluateCondition this almanac fuel)
                           children operator)
      by (destruct operator; reflexivity).
    rewrite Hrun. clear run Hrun.
    destruct (Rule.prioritizeAndRun this _ children operator) as [cursor|] eqn:Hrun;
      [|discriminate].
    assert (Hcursor : cursorKeeps PF PE cursor).
    { apply (prioritizeAndRun_keeps (Rule.evaluateCondition this almanac fuel)
               children operator cursor); [|assumption].
      intros c Hc o' eff'. apply IH. eapply Good_children; eassumption. }
    destruct cursor as [[running|err] effects0]; destruct Hcursor as [Heffects Herr];
      simpl in *; intros [= <- <-].
    + split; [|exact I]. apply Forall_app. split; [assumption|].
      constructor; [apply Good_result; assumption | constructor].
    + split; [assumption | apply Herr; reflexivity].
Qed.

Lemma evaluateNode_keepsOn (conditions : list Condition.t) :
  (forall c, In c conditions -> Good c) ->
  keepsOn PF PE (evaluateNode this almanac) conditions.
Proof.
  intros Hgood c Hc outcome effects. apply evaluateCondition_keeps, Hgood, Hc.
Qed.

End Keeps.

(** ** Rules without engine, engines that allow undefined facts *)

Lemma registered_In (this : Rule.t) (eventName : string) (listener : nat) :
  In listener (Rule.registered this eventName) ->
  In (eventName, listener) (Rule.listeners this).
Proof.
  unfold Rule.registered. intros Hin. apply in_map_iff in Hin.
  destruct Hin as [[n l] [Hl Hin]]. simpl in Hl. subst l.
  apply filter_In in Hin. destruct Hin as [Hin Hname].
  simpl in Hname. apply String.eqb_eq in Hname. subst n. assumption.
Qed.

(** What [emit] does: it calls listeners that are registered under the
    name, and throws only what one of them throws. *)
Lemma emit_notifies (listen : Listening) (this : Rule.t) (almanac : Almanac)
    (name : string) (ruleResult : RuleResult.t) :
  (forall e, In e (snd (Rule.emit listen this almanac name ruleResult)) ->
             exists listener,
               e = Notified name listener (RuleResult.event ruleResult) ruleResult
               /\ In (name, listener) (Rule.listeners this))
  /\ (forall err, fst (Rule.emit listen this almanac name ruleResult) = Thrown err ->
                  thrownByListener listen this almanac err).
Proof.
  unfold Rule.emit.
  pose proof (callEach_outcome listen almanac name ruleResult (Rule.registered this name))
    as Hround.
  destruct (Rule.callEach listen almanac name ruleResult (Rule.registered this name))
    as [[u|err] notified]; simpl.
  - destruct Hround as [-> _]. split; [|discriminate].
    intros e He. unfold notifications in He. apply in_map_iff in He.
    destruct He as [l [<- Hl]]. exists l. split; [reflexivity|].
    apply registered_In. assumption.
  - destruct Hround as [before [thrower [after [Hsplit [_ [Hthrows ->]]]]]].
    assert (Hmember : forall l, In l (before ++ [thrower]) ->
                                In (name, l) (Rule.listeners this)).
    { intros l Hl. apply registered_In. rewrite Hsplit.
      apply in_app_or in Hl. apply in_or_app.
      destruct Hl as [Hl|[<-|[]]]; [left; assumption | right; left; reflexivity]. }
    split.
    + intros e He. unfold notifications in He. apply in_map_iff in He.
      destruct He as [l [<- Hl]]. exists l. split; [reflexivity | apply Hmember; assumption].
    + intros ? [= <-]. exists name, thrower, ruleResult. split; [|assumption].
      apply Hmember. apply in_or_app. right. left. reflexivity.
Qed.

(** What [evaluate] adds to a run of the root list. *)
Lemma evaluate_keeps (listen : Listening) (this : Rule.t) (almanac : Almanac)
    (PF : Effect -> Prop) (PE : Error -> Prop)
    (operator : BooleanOperator) (children : list Condition.t) (p : option Z)
    completion effects :
  Rule.conditions this = Some (Condition.Boolean operator children p) ->
  keepsOn PF PE (evaluateNode this almanac) children ->
  (forall n l ev r, PF (Notified n l ev r)) ->
  Rule.evaluate listen this almanac = Some (completion, effects) ->
  Forall PF effects
  /\ forall err, completion = Normal (Rejected err) ->
       PE err \/ thrownByListener listen this almanac err.
Proof.
  intros Hroot Hkeeps Hnotified.
  rewrite (evaluate_root listen this almanac operator children p Hroot).
  destruct (Rule.prioritizeAndRun this (evaluateNode this almanac) children operator)
    as [cursor|] eqn:Hrun; [|discriminate].
  destruct (prioritizeAndRun_keeps this PF PE _ _ _ _ Hkeeps Hrun) as [Heffects Herr].
  destruct cursor as [[running|err] effects0]; simpl fst in *; simpl snd in *.
  - rewrite thenProcess_resolved.
    match goal with |- context [Rule.emit ?l ?t ?a ?n ?r] =>
      destruct (emit_notifies l t a n r) as [Htold Hthrown];
      destruct (Rule.emit l t a n r) as [[u|err] notified] end;
      simpl fst in *; simpl snd in *; intros [= <- <-];
      (split; [apply Forall_app; split; [assumption|];
               apply Forall_forall; intros x Hx; apply Htold in Hx;
               destruct Hx as [l [-> _]]; apply Hnotified|]).
    + discriminate.
    + intros ? [= <-]. right. apply Hthrown. reflexivity.
  - simpl. intros [= <- <-]. split; [assumption|].
    intros ? [= <-]. left. apply Herr. reflexivity.
Qed.

Lemma evaluateCondition_without_engine (this : Rule.t) (almanac almanac' : Almanac)
    (fuel : nat) (c : Condition.t) :
  Rule.engine this = None ->
  Rule.evaluateCondition this almanac fuel c = Rule.evaluateCondition this almanac' fuel c.
Proof.
  intros Hnone. revert c. induction fuel as [|fuel IH]; intros c; simpl; [reflexivity|].
  destruct c as [f o v p|operator children p].
  - unfold Rule.evaluateLeaf. rewrite Hnone. reflexivity.
  - apply evaluateBoolean_ext. intros c _. apply IH.
Qed.

(** X5: a rule that has no engine never consults the almanac: every
    sibling list runs the same against every almanac; in an evaluation no
    fact is asked for and no fact result is written; and when the promise
    is rejected, it is with the TypeError of the missing engine, or with
    what a listener threw. *)
Theorem evaluate_without_engine (listen : Listening) (this : Rule.t) (almanac : Almanac) :
  Rule.engine this = None ->
  (forall almanac' conditions operator,
      Rule.prioritizeAndRun this (evaluateNode this almanac) conditions operator
      = Rule.prioritizeAndRun this (evaluateNode this almanac') conditions operator)
  /\ forall completion effects,
       Rule.evaluate listen this almanac = Some (completion, effects) ->
       Forall withoutFacts effects
       /\ forall err, completion = Normal (Rejected err) ->
            err = noEngine \/ thrownByListener listen this almanac err.
Proof.
  intros Hnone. split.
  - intros almanac' conditions operator. apply prioritizeAndRun_ext. intros c _.
    symmetry. apply evaluateCondition_without_engine. assumption.
  - intros completion effects.
    destruct (Rule.conditions this) as [[f o v p|operator children p]|] eqn:Hroot.
    + unfold Rule.evaluate, Rule.evaluateWith. rewrite Hroot.
      intros [= <- <-]. split; [constructor | discriminate].
    + apply (evaluate_keeps listen this almanac withoutFacts (fun err => err = noEngine)
               operator children p); [assumption | | intros; exact I].
      apply evaluateNode_keepsOn with (Good := fun _ => True); try (intros; exact I).
      intros f o v p' _. unfold Rule.evaluateLeaf. rewrite Hnone. simpl.
      split; [constructor | reflexivity].
    + unfold Rule.evaluate, Rule.evaluateWith. rewrite Hroot.
      intros [= <- <-]. split; [constructor | discriminate].
Qed.

(** X5 at work: the empty [any] node is evaluated, then the leaf fails on
    the missing engine, whatever the almanac; no listener is reached. *)
Lemma evaluate_without_engine_witness :
  Rule.prioritizeAndRun engineless (evaluateNode engineless exampleAlmanac) [defaultLeaf] All
  = Rule.prioritizeAndRun engineless (evaluateNode engineless emptyAlmanac) [defaultLeaf] All
  /\ Rule.evaluate oneThrows engineless exampleAlmanac
     = Some (Normal (Rejected noEngine), [SetResult (Condition.Boolean Any [] None) true])
  /\ Forall withoutFacts (effectsOf oneThrows engineless exampleAlmanac).
Proof.
  destruct (evaluate_without_engine oneThrows engineless exampleAlmanac eq_refl)
    as [Hsame Hkeeps].
  split; [apply Hsame | split; [reflexivity|]].
  exact (proj1 (Hkeeps (Normal (Rejected noEngine))
                       [SetResult (Condition.Boolean Any [] None) true] eq_refl)).
Defined.

(** X6: under an engine that allows undefined facts, no sibling list is
    rejected with an error of code [UNDEFINED_FACT]; so the promise of
    [evaluate] is rejected with such an error only when a listener
    throws it. *)
Theorem evaluate_allowing_undefined_facts
    (listen : Listening) (this : Rule.t) (almanac : Almanac) (e : Engine) :
  Rule.engine this = Some e ->
  allowUndefinedFacts e = true ->
  (forall conditions operator err effects,
      Rule.prioritizeAndRun this (evaluateNode this almanac) conditions operator
        = Some (Rejected err, effects) ->
      isUndefinedFact err = false)
  /\ (forall err effects,
        Rule.evaluate listen this almanac = Some (Normal (Rejected err), effects) ->
        isUndefinedFact err = false \/ thrownByListener listen this almanac err).
Proof.
  intros He Hallow.
  assert (Hkeeps : forall conditions,
             keepsOn (fun _ => True) (fun err => isUndefinedFact err = false)
                     (evaluateNode this almanac) conditions).
  { intros conditions.
    apply evaluateNode_keepsOn with (Good := fun _ => True); try (intros; exact I).
    intros f o v p' _. unfold Rule.evaluateLeaf. rewrite He, Hallow.
    destruct (Condition.evaluate f o v almanac (operators e)) as [r|err'].
    - split; [repeat constructor | exact I].
    - simpl andb. destruct (isUndefinedFact err') eqn:Hcode.
      + split; [repeat constructor | exact I].
      + split; [repeat constructor | exact Hcode]. }
  split.
  - intros conditions operator err effects Hrun.
    destruct (prioritizeAndRun_keeps this _ _ _ _ _ _ (Hkeeps conditions) Hrun) as [_ Herr].
    apply Herr. reflexivity.
  - intros err effects Heval.
    destruct (Rule.conditions this) as [[f o v p|operator children p]|] eqn:Hroot.
    + unfold Rule.evaluate, Rule.evaluateWith in Heval. rewrite Hroot in Heval. discriminate.
    + refine (proj2 (evaluate_keeps listen this almanac (fun _ => True)
                       (fun err => isUndefinedFact err = false)
                       operator children p _ _ Hroot (Hkeeps children) _ Heval) err eq_refl).
      intros; exact I.
    + unfold Rule.evaluate, Rule.evaluateWith in Heval. rewrite Hroot in Heval. discriminate.
Qed.

(** X6 at work: a leaf on an undefined fact does not reject its list; a
    comparator that is not known does, with an error of no code. *)
Lemma evaluate_allowing_undefined_facts_witness :
  Rule.prioritizeAndRun C2_rule (evaluateNode C2_rule exampleAlmanac) [C2_leaf] All
  = Some (Resolved (Some false), [FactValue "missing"])
  /\ Rule.prioritizeAndRun unknownOperatorRule (evaluateNode unknownOperatorRule exampleAlmanac)
       [Condition.Leaf "a" "between" (Num (Int 1)) None] All
     = Some (Rejected (newError "Unknown operator: between"), [FactValue "a"])
  /\ isUndefinedFact (newError "Unknown operator: between") = false.
Proof.
  split; [reflexivity|].
  assert (Hrun : Rule.prioritizeAndRun unknownOperatorRule
                   (evaluateNode unknownOperatorRule exampleAlmanac)
                   [Condition.Leaf "a" "between" (Num (Int 1)) None] All
                 = Some (Rejected (newError "Unknown operator: between"), [FactValue "a"]))
    by reflexivity.
  split; [exact Hrun|].
  exact (proj1 (evaluate_allowing_undefined_facts listenersReturn unknownOperatorRule
                  exampleAlmanac (exampleEngine true) eq_refl eq_refl) _ _ _ _ Hrun).
Defined.

Lemma factsOf_child (operator : BooleanOperator) (children : list Condition.t)
    (p : option Z) (c : Condition.t) (fact : string) :
  In c children -> In fact (factsOf c) ->
  In fact (factsOf (Condition.Boolean operator children p)).
Proof. intros Hc Hfact. simpl. apply in_flat_map. exists c. split; assumption. Qed.

Lemma nodesBelow_child (operator : BooleanOperator) (children : list Condition.t)
    (p : option Z) (c : Condition.t) :
  In c children -> In c (nodesBelow (Condition.Boolean operator children p)).
Proof.
  intros Hc. simpl. apply in_flat_map. exists c. split; [assumption | left; reflexivity].
Qed.

(** A node below the root is a child of the root or lies below one. *)
Lemma nodesBelow_inv (operator : BooleanOperator) (children : list Condition.t)
    (p : option Z) (c : Condition.t) :
  In c (nodesBelow (Condition.Boolean operator children p)) ->
  exists child, In child children /\ (c = child \/ In c (nodesBelow child)).
Proof.
  simpl. intros Hc. apply in_flat_map in Hc. destruct Hc as [child [Hchild Hc]].
  exists child. split; [assumption|]. destruct Hc as [<-|Hc]; [left; reflexivity|].
  right. assumption.
Qed.

Lemma nodesBelow_trans (root c c' : Condition.t) :
  In c (nodesBelow root) -> In c' (nodesBelow c) -> In c' (nodesBelow root).
Proof.
  revert c c'.
  induction root as [f o v p|operator children p IH] using Condition_nested_ind;
    intros c c' Hc Hc'; [destruct Hc|].
  apply nodesBelow_inv in Hc. destruct Hc as [child [Hchild Hc]].
  simpl. apply in_flat_map. exists child. split; [assumption|]. right.
  destruct Hc as [->|Hc]; [assumption|].
  rewrite Forall_forall in IH. apply (IH child Hchild c c'); assumption.
Qed.

Lemma factsOf_below (root c : Condition.t) :
  In c (nodesBelow root) -> incl (factsOf c) (factsOf root).
Proof.
  revert c.
  induction root as [f o v p|operator children p IH] using Condition_nested_ind;
    intros c Hc; [destruct Hc|].
  apply nodesBelow_inv in Hc. destruct Hc as [child [Hchild Hc]].
  intros fact Hfact. apply (factsOf_child operator children p child fact Hchild).
  destruct Hc as [<-|Hc]; [assumption|].
  rewrite Forall_forall in IH. apply (IH child Hchild c); assumption.
Qed.

(** The nodes below a root are less deeply nested than the root: the root
    is not one of them. *)
Lemma nodesBelow_depth (root c : Condition.t) :
  In c (nodesBelow root) -> (Condition.depth c < Condition.depth root)%nat.
Proof.
  revert c.
  induction root as [f o v p|operator children p IH] using Condition_nested_ind;
    intros c Hc; [destruct Hc|].
  apply nodesBelow_inv in Hc. destruct Hc as [child [Hchild Hc]].
  rewrite depth_Boolean. pose proof (depth_member children child Hchild) as Hdepth.
  destruct Hc as [->|Hc]; [lia|].
  rewrite Forall_forall in IH. specialize (IH child Hchild c Hc). lia.
Qed.

Lemma nodesBelow_irreflexive (root : Condition.t) : ~ In root (nodesBelow root).
Proof. intros Hin. apply nodesBelow_depth in Hin. lia. Qed.

(** Below a boolean node the evaluator stays within the node. *)
Lemma evaluateNode_within (this : Rule.t) (almanac : Almanac)
    (operator : BooleanOperator) (children : list Condition.t) (p : option Z) :
  keepsOn (within (Condition.Boolean operator children p)) (fun _ => True)
          (evaluateNode this almanac) children.
Proof.
  apply evaluateNode_keepsOn
    with (Good := fun c => In c (nodesBelow (Condition.Boolean operator children p))).
  - intros operator' children' p' c Hnode Hc.
    apply (nodesBelow_trans _ _ _ Hnode). apply nodesBelow_child. assumption.
  - intros f o v p' Hleaf.
    assert (Hfact : In f (factsOf (Condition.Boolean operator children p)))
      by (apply (factsOf_below _ _ Hleaf); left; reflexivity).
    assert (Hwrite : In (Condition.Leaf f o v p')
                        (nodesBelow (Condition.Boolean operator children p))
                     /\ Condition.isBooleanOperator (Condition.Leaf f o v p') = false)
      by (split; [assumption | reflexivity]).
    unfold Rule.evaluateLeaf. destruct (Rule.engine this) as [e|];
      [|split; [constructor | exact I]].
    destruct (Condition.evaluate f o v almanac (operators e)) as [r|err].
    + split; [|exact I].
      repeat first [apply Forall_nil | apply Forall_cons]; assumption.
    + destruct (allowUndefinedFacts e && isUndefinedFact err);
        (split; [|exact I]);
        repeat first [apply Forall_nil | apply Forall_cons]; assumption.
  - intros c b Hnode. exact Hnode.
  - intros c Hc. apply nodesBelow_child. assumption.
Qed.

(** X7: an evaluation asks the almanac only for facts named by leaves of
    the condition tree; it writes a [result] only on nodes of the tree
    below the root, and a [factResult] only on leaves of the tree; the
    root node itself is never annotated. *)
Theorem evaluate_stays_within_the_tree
    (listen : Listening) (this : Rule.t) (almanac : Almanac) (root : Condition.t)
    completion effects :
  Rule.conditions this = Some root ->
  Rule.evaluate listen this almanac = Some (completion, effects) ->
  (forall fact, In (FactValue fact) effects -> In fact (factsOf root))
  /\ (forall c b, In (SetResult c b) effects -> In c (nodesBelow root))
  /\ (forall c v, In (SetFactResult c v) effects ->
                  In c (nodesBelow root) /\ Condition.isBooleanOperator c = false)
  /\ ~ In root (nodesBelow root).
Proof.
  intros Hroot Heval.
  assert (Hwithin : Forall (within root) effects).
  { destruct root as [f o v p|operator children p].
    - unfold Rule.evaluate, Rule.evaluateWith in Heval. rewrite Hroot in Heval.
      injection Heval as _ <-. constructor.
    - refine (proj1 (evaluate_keeps listen this almanac
                       (within (Condition.Boolean operator children p))
                       (fun _ => True) operator children p _ _ Hroot _ _ Heval));
        [apply evaluateNode_within | intros; exact I]. }
  rewrite Forall_forall in Hwithin. split; [|split; [|split]].
  - intros fact Hin. exact (Hwithin _ Hin).
  - intros c b Hin. exact (Hwithin _ Hin).
  - intros c v Hin. exact (Hwithin _ Hin).
  - apply nodesBelow_irreflexive.
Qed.

(** X7 at work: the facts asked for are among [a], [b] and [c], what is
    written is written on the three leaves, and the root is none of
    them. *)
Lemma evaluate_stays_within_the_tree_witness :
  (forall fact, In (FactValue fact) (effectsOf listenersReturn C1_rule exampleAlmanac) ->
                In fact ["a"; "b"; "c"])
  /\ (forall c b, In (SetResult c b) (effectsOf listenersReturn C1_rule exampleAlmanac) ->
                  In c [C1_third; C1_first; C1_second]).
Proof.
  destruct (Rule.evaluate listenersReturn C1_rule exampleAlmanac)
    as [[completion effects]|] eqn:Heval; [|discriminate].
  destruct (evaluate_stays_within_the_tree listenersReturn C1_rule exampleAlmanac
              (Condition.Boolean All [C1_third; C1_first; C1_second] None)
              completion effects eq_refl Heval) as [Hfacts [Hresults _]].
  unfold effectsOf. rewrite Heval. split; assumption.
Defined.

(** ** When [evaluate] throws *)

(** X8: [evaluate] always completes, and it throws exactly when the rule
    has no boolean root: then nothing has been done.  On a boolean root it
    returns a promise; what goes wrong below (a missing engine, a failing
    fact or comparator, a listener that throws) rejects that promise. *)
Theorem evaluate_throws_only_without_boolean_root
    (listen : Listening) (this : Rule.t) (almanac : Almanac) :
  exists completion effects,
    Rule.evaluate listen this almanac = Some (completion, effects)
    /\ match Rule.conditions this with
       | Some (Condition.Boolean _ _ _) => exists promise, completion = Normal promise
       | _ => (exists err, completion = Thrown err) /\ effects = []
       end.
Proof.
  destruct (Rule.conditions this) as [[f o v p|operator children p]|] eqn:Hroot.
  - unfold Rule.evaluate, Rule.evaluateWith. rewrite Hroot.
    eexists _, _. split; [reflexivity|]. split; [eexists; reflexivity | reflexivity].
  - rewrite (evaluate_root listen this almanac operator children p Hroot).
    destruct (prioritizeAndRun_total this (evaluateNode this almanac) children operator
                (evaluateNode_totalOn this almanac children)) as [[r effects] ->].
    destruct r as [value|err].
    + rewrite thenProcess_resolved.
      eexists _, _. split; [reflexivity|].
      match goal with |- context [fst ?told] => destruct (fst told) end;
        eexists; reflexivity.
    + eexists _, _. split; [reflexivity|]. eexists; reflexivity.
  - unfold Rule.evaluate, Rule.evaluateWith. rewrite Hroot.
    eexists _, _. split; [reflexivity|]. split; [eexists; reflexivity | reflexivity].
Qed.

(** ** What the setters keep *)

Lemma setPriority_wellFormed (priority : Value) (this : Rule.t) :
  wellFormed this -> wellFormed (fst (Rule.setPriority priority this)).
Proof.
  intros [Hp He]. unfold Rule.setPriority, wellFormed.
  destruct (parseInt priority) as [z|] eqn:Hparse; simpl.
  - destruct (Z.leb_spec z 0); simpl; [split; assumption|]. split; [lia | assumption].
  - split; [exact I | assumption].
Qed.

Lemma setConditions_wellFormed (call : Functions) (conditions : Value) (this : Rule.t) :
  wellFormed this -> wellFormed (fst (Rule.setConditions call conditions this)).
Proof.
  intros H. unfold Rule.setConditions, Rule.throw.
  destruct (Condition.new conditions) as [c|e];
    destruct (callHasOwnProperty call "conditions" conditions "all") as [hasAll|e1];
    try exact H;
    destruct (negb (truthy hasAll)); try exact H;
    destruct (callHasOwnProperty call "conditions" conditions "any") as [hasAny|e2];
    try exact H;
    destruct (negb (truthy hasAny)); exact H.
Qed.

Lemma setEvent_wellFormed (call : Functions) (event : Value) (this : Rule.t) :
  wellFormed this -> wellFormed (fst (Rule.setEvent call event this)).
Proof.
  intros [Hp He]. unfold Rule.setEvent.
  destruct (negb (truthy event)); [split; assumption|].
  destruct (callHasOwnProperty call "event" event "type") as [hasType|e];
    [|split; assumption].
  destruct (negb (truthy hasType)); [split; assumption|].
  simpl. split; [assumption|].
  destruct (truthy (get event "params")) eqn:Hparams; simpl; [assumption | exact I].
Qed.

Lemma on_wellFormed (eventName : string) (listener : Value) (this : Rule.t) :
  wellFormed this -> wellFormed (fst (Rule.on eventName listener this)).
Proof. intros H. unfold Rule.on. destruct listener; exact H. Qed.

Lemma andThen_wellFormed (first next : Rule.Method) (this : Rule.t) :
  (forall r, wellFormed r -> wellFormed (fst (first r))) ->
  (forall r, wellFormed r -> wellFormed (fst (next r))) ->
  wellFormed this -> wellFormed (fst (Rule.andThen first next this)).
Proof.
  intros Hfirst Hnext H. unfold Rule.andThen.
  specialize (Hfirst this H). destruct (first this) as [this' [u|e]]; simpl in *.
  - apply Hnext. assumption.
  - assumption.
Qed.

Lemma when_wellFormed (cond : bool) (body : Rule.Method) (this : Rule.t) :
  (forall r, wellFormed r -> wellFormed (fst (body r))) ->
  wellFormed this -> wellFormed (fst (Rule.when cond body this)).
Proof. intros Hbody H. destruct cond; simpl; [apply Hbody|]; assumption. Qed.

Lemma empty_wellFormed : wellFormed Rule.empty.
Proof. split; exact I. Qed.

Lemma new_wellFormed (call : Functions) (options : Rule.Options) :
  wellFormed (fst (Rule.new call options)).
Proof.
  unfold Rule.new.
  apply andThen_wellFormed;
    [intros r Hr; apply when_wellFormed; [intros; apply setConditions_wellFormed|]; assumption| |].
  2: exact empty_wellFormed.
  intros r0 Hr0. apply andThen_wellFormed;
    [intros r Hr; apply when_wellFormed; [intros; apply on_wellFormed|]; assumption| |assumption].
  intros r1 Hr1. apply andThen_wellFormed;
    [intros r Hr; apply when_wellFormed; [intros; apply on_wellFormed|]; assumption| |assumption].
  intros r2 Hr2. apply andThen_wellFormed;
    [intros r Hr; apply setPriority_wellFormed; assumption| |assumption].
  intros r3 Hr3. apply setEvent_wellFormed. assumption.
Qed.

Lemma configured_wellFormed (call : Functions) (this : Rule.t) :
  configured call this -> wellFormed this.
Proof.
  induction 1.
  - exact empty_wellFormed.
  - apply new_wellFormed.
  - apply setPriority_wellFormed. assumption.
  - apply setConditions_wellFormed. assumption.
  - apply setEvent_wellFormed. assumption.
  - exact IHconfigured.
  - apply on_wellFormed. assumption.
Qed.

(** X9: however a rule has been built (constructor, then any calls of
    the setters and of [on], returning or throwing), its priority is never
    zero nor negative (it is unset, NaN or a positive integer) and the
    [params] of its event, when stored, are truthy. *)
Theorem configured_rules_are_well_formed (call : Functions) (this : Rule.t) :
  configured call this -> wellFormed this.
Proof. apply configured_wellFormed. Qed.

(** X9 at work: a constructor call and a call of [setPriority] that
    throws. *)
Lemma configured_rules_are_well_formed_witness :
  wellFormed (fst (Rule.setPriority (Num (Int 0))
                     (fst (Rule.new noCalls (Rule.OfValue (Obj [("priority", Str "7")])))))).
Proof.
  apply (configured_rules_are_well_formed noCalls).
  apply configured_setPriority. apply configured_new.
Defined.

(** X10: on such a rule, handing the stored event back to [setEvent]
    returns and changes nothing. *)
Theorem setEvent_of_the_stored_event_changes_nothing
    (call : Functions) (this : Rule.t) (a : Action) :
  configured call this -> Rule.event this = Some a ->
  Rule.setEvent call (Rule.actionValue a) this = (this, Normal tt).
Proof.
  intros Hconf Hevent. destruct (configured_wellFormed call this Hconf) as [_ He].
  rewrite Hevent in He. rewrite (setEvent_actionValue call this a He).
  destruct this; simpl in *. rewrite Hevent. reflexivity.
Qed.

(** X10 at work: the constructor has dropped the falsy [params] and the
    further property of the event it was given; the stored event goes
    through [setEvent] unchanged. *)
Lemma setEvent_of_the_stored_event_changes_nothing_witness :
  Rule.event storedEventRule = Some (mkAction (Str "fired") None)
  /\ Rule.setEvent noCalls (Rule.actionValue (mkAction (Str "fired") None)) storedEventRule
     = (storedEventRule, Normal tt).
Proof.
  split; [reflexivity|].
  apply setEvent_of_the_stored_event_changes_nothing; [apply configured_new | reflexivity].
Defined.

(** ** The defaults of the constructor *)

Lemma setEvent_priority (call : Functions) (event : Value) (this : Rule.t) :
  Rule.priority (fst (Rule.setEvent call event this)) = Rule.priority this.
Proof.
  unfold Rule.setEvent. destruct (negb (truthy event)); [reflexivity|].
  destruct (callHasOwnProperty call "event" event "type") as [hasType|e]; [|reflexivity].
  destruct (negb (truthy hasType)); reflexivity.
Qed.

(** X11: when the constructor returns, a [priority] option that is falsy
    (absent, [0], the empty string, [null], NaN) has given the rule the
    priority 1, though [setPriority(0)] throws; an [event] option that is
    falsy has given it the event of type [unknown], without [params]. *)
Theorem new_defaults (call : Functions) (options : Rule.Options) (this : Rule.t) :
  Rule.new call options = (this, Normal tt) ->
  (truthy (JS.and (scoped options) (get (scoped options) "priority")) = false ->
   Rule.priority this = Some (Int 1))
  /\ (truthy (JS.and (scoped options) (get (scoped options) "event")) = false ->
      Rule.event this = Some (mkAction (Str "unknown") None)).
Proof.
  unfold Rule.new. fold (scoped options). unfold Rule.andThen.
  destruct (Rule.when _ (Rule.setConditions _ _) Rule.empty) as [r1 [[]|e1]]; [|discriminate].
  destruct (Rule.when _ (Rule.on "success" _) r1) as [r2 [[]|e2]]; [|discriminate].
  destruct (Rule.when _ (Rule.on "failure" _) r2) as [r3 [[]|e3]]; [|discriminate].
  destruct (Rule.setPriority _ r3) as [r4 [[]|e4]] eqn:Hpriority; [|discriminate].
  intros Hevent. split.
  - intros Hfalsy. unfold JS.or in Hpriority. rewrite Hfalsy in Hpriority.
    injection Hpriority as <-.
    match type of Hevent with
    | Rule.setEvent _ ?v ?r = _ => pose proof (setEvent_priority call v r) as Hframe
    end.
    rewrite Hevent in Hframe. exact Hframe.
  - intros Hfalsy. unfold JS.or in Hevent. rewrite Hfalsy in Hevent.
    injection Hevent as <-. reflexivity.
Qed.

(** X11 at work: the option [priority: 0] is taken for no priority. *)
Lemma new_defaults_witness :
  Rule.priority (fst (Rule.new noCalls zeroPriorityOptions)) = Some (Int 1)
  /\ Rule.event (fst (Rule.new noCalls zeroPriorityOptions))
     = Some (mkAction (Str "unknown") None)
  /\ snd (Rule.setPriority (Num (Int 0)) Rule.empty)
     = Thrown (newError "Priority must be greater than zero").
Proof.
  destruct (new_defaults noCalls zeroPriorityOptions
              (fst (Rule.new noCalls zeroPriorityOptions)) eq_refl)
    as [Hpriority Hevent].
  split; [apply Hpriority; reflexivity | split; [apply Hevent; reflexivity | reflexivity]].
Defined.

(** ** The annotation of a boolean node *)

Lemma annotationsAfter_factResult_unwritten
    (effects : Trace) (before : Annotations) (c : Condition.t) :
  (forall v, ~ In (SetFactResult c v) effects) ->
  Annotation_factResult (annotationsAfter effects before c)
  = Annotation_factResult (before c).
Proof.
  unfold annotationsAfter. revert before.
  induction effects as [|effect effects IH]; intros before Hunwritten; [reflexivity|].
  cbn [fold_left]. rewrite IH.
  - destruct effect as [f|c' v|c' b|n l e r]; simpl; try reflexivity.
    + destruct (Condition_eq_dec c c') as [->|Hne]; [|reflexivity].
      exfalso. apply (Hunwritten v). left. reflexivity.
    + destruct (Condition_eq_dec c c'); reflexivity.
  - intros v Hv. apply (Hunwritten v). right. assumption.
Qed.

(** X12: a boolean node that resolves has recorded the value it resolves
    to: after its evaluation its [result] is that value, whatever it was
    before, and its [factResult] is untouched. *)
Theorem boolean_node_records_its_value
    (this : Rule.t) (almanac : Almanac)
    (operator : BooleanOperator) (children : list Condition.t) (p : option Z)
    (b : bool) (effects : Trace) (before : Annotations) :
  evaluateNode this almanac (Condition.Boolean operator children p)
    = Some (Normal (Resolved b), effects) ->
  annotationsAfter effects before (Condition.Boolean operator children p)
  = mkAnnotation (Some b)
      (Annotation_factResult (before (Condition.Boolean operator children p))).
Proof.
  rewrite evaluateNode_Boolean. unfold Rule.evaluateBoolean.
  assert (Hrun : match operator with
                 | All => Rule.allOperation this (evaluateNode this almanac) children
                 | Any => Rule.anyOperation this (evaluateNode this almanac) children
                 end
                 = Rule.prioritizeAndRun this (evaluateNode this almanac) children operator)
    by (destruct operator; reflexivity).
  rewrite Hrun. clear Hrun.
  destruct (Rule.prioritizeAndRun this (evaluateNode this almanac) children operator)
    as [[[running|err] inner]|] eqn:Hrun; [| discriminate | discriminate].
  intros [= <- <-].
  destruct (prioritizeAndRun_keeps this _ _ _ _ _ _
              (evaluateNode_within this almanac operator children p) Hrun) as [Hwithin _].
  simpl in Hwithin. rewrite Forall_forall in Hwithin.
  unfold annotationsAfter. rewrite fold_left_app. cbn [fold_left write].
  destruct (Condition_eq_dec _ _) as [_|Hne]; [|congruence].
  f_equal. apply annotationsAfter_factResult_unwritten.
  intros v Hin. destruct (Hwithin _ Hin) as [_ Hleaf]. discriminate.
Qed.

(** X12 at work: a node found [true] before is found [false] now. *)
Lemma boolean_node_records_its_value_witness :
  Annotation_result (staleAnnotations staleNode) = Some true
  /\ evaluateNode (exampleRule staleNode false) exampleAlmanac staleNode
     = Some (Normal (Resolved false), staleEffects)
  /\ annotationsAfter staleEffects staleAnnotations staleNode
     = mkAnnotation (Some false) None.
Proof.
  assert (Hrun : evaluateNode (exampleRule staleNode false) exampleAlmanac staleNode
                 = Some (Normal (Resolved false), staleEffects)) by reflexivity.
  split; [reflexivity | split; [exact Hrun|]].
  exact (boolean_node_records_its_value _ _ _ _ _ _ _ staleAnnotations Hrun).
Defined.

(** ** Order and priorities do not change the result *)

Lemma allSome_permutation (l l' : list (option bool)) :
  Permutation l l' ->
  match allSome l, allSome l' with
  | Some values, Some values' => Permutation values values'
  | None, None => True
  | _, _ => False
  end.
Proof.
  induction 1 as [|x l l' Hperm IH|x y l|l l' l'' H1 IH1 H2 IH2]; simpl.
  - constructor.
  - destruct x as [b|]; [|exact I].
    destruct (allSome l), (allSome l'); try assumption. constructor. assumption.
  - destruct x as [b|], y as [b'|]; try exact I;
      destruct (allSome l); try exact I. apply perm_swap.
  - destruct (allSome l), (allSome l'), (allSome l''); try assumption; try contradiction.
    eapply perm_trans; eassumption.
Qed.

Lemma aggregate_permutation (operator : BooleanOperator) (a b : list bool) :
  Permutation a b -> aggregate operator a = aggregate operator b.
Proof.
  intros Hperm. unfold aggregate.
  destruct a as [|x a], b as [|y b]; try reflexivity.
  - apply Permutation_nil in Hperm. discriminate.
  - apply Permutation_sym, Permutation_nil in Hperm. discriminate.
  - apply methodOf_permutation. assumption.
Qed.

Lemma valueOf_similar (e e' : Engine) (almanac : Almanac) :
  (forall o, operators e' o = operators e o) ->
  allowUndefinedFacts e' = allowUndefinedFacts e ->
  forall c c', similar c c' -> valueOf e almanac c = valueOf e' almanac c'.
Proof.
  intros Hops Hallow c.
  induction c as [f o v p|operator children p IH] using Condition_nested_ind;
    intros c' Hsim; inversion Hsim; subst.
  - simpl. unfold leafValue, Condition.evaluate. rewrite Hops, Hallow. reflexivity.
  - simpl.
    assert (Hmap : map (valueOf e almanac) children = map (valueOf e' almanac) middle).
    { match goal with H : Forall2 similar children middle |- _ =>
        clear - H IH; induction H as [|x y l l' Hxy Hrest IHrest]
      end.
      - reflexivity.
      - apply Forall_cons_iff in IH. destruct IH as [Hx Hl]. simpl. f_equal.
        + apply Hx. assumption.
        + apply IHrest. assumption. }
    rewrite Hmap.
    match goal with H : Permutation middle _ |- _ =>
      pose proof (allSome_permutation _ _ (Permutation_map (valueOf e' almanac) H)) as Hall
    end.
    destruct (allSome (map (valueOf e' almanac) middle)),
             (allSome (map (valueOf e' almanac) children'));
      try contradiction; [|reflexivity].
    f_equal. apply aggregate_permutation. assumption.
Qed.

Lemma similar_boolean_root (c c' : Condition.t) :
  similar c c' -> Condition.isBooleanOperator c = true ->
  exists operator children children' p p',
    c = Condition.Boolean operator children p
    /\ c' = Condition.Boolean operator children' p'.
Proof.
  intros Hsim Hbool. inversion Hsim; subst; [discriminate|].
  eexists _, _, _, _, _. split; reflexivity.
Qed.

(** X13: two rules whose trees differ only in the order of siblings and
    in priorities (of nodes, or of facts in the engine), evaluated against
    one almanac under engines with the same comparators and tolerance:
    when no leaf fails, the trees have the same value, and both
    evaluations go on with it: each tells its listeners of that result
    and resolves with a report of it, unless a listener throws. *)
Theorem evaluate_ignores_order_and_priorities
    (listen : Listening) (this this' : Rule.t) (almanac : Almanac) (e e' : Engine)
    (root root' : Condition.t) (b : bool) :
  Rule.engine this = Some e -> Rule.engine this' = Some e' ->
  (forall o, operators e' o = operators e o) ->
  allowUndefinedFacts e' = allowUndefinedFacts e ->
  Rule.conditions this = Some root -> Rule.conditions this' = Some root' ->
  Condition.isBooleanOperator root = true ->
  similar root root' ->
  valueOf e almanac root = Some b ->
  valueOf e' almanac root' = Some b
  /\ exists inner inner',
       silent inner /\ silent inner'
       /\ Rule.evaluate listen this almanac
          = Some (reported listen this almanac root b inner)
       /\ Rule.evaluate listen this' almanac
          = Some (reported listen this' almanac root' b inner').
Proof.
  intros He He' Hops Hallow Hroot Hroot' Hbool Hsim Hvalue.
  pose proof (valueOf_similar e e' almanac Hops Hallow root root' Hsim) as Hsame.
  rewrite Hvalue in Hsame. symmetry in Hsame. split; [exact Hsame|].
  destruct (similar_boolean_root root root' Hsim Hbool)
    as [operator [children [children' [p [p' [-> ->]]]]]].
  destruct (prioritizeAndRun_valueOf this almanac e He operator children p b Hvalue)
    as [inner [Hsilent Hrun]].
  destruct (prioritizeAndRun_valueOf this' almanac e' He' operator children' p' b Hsame)
    as [inner' [Hsilent' Hrun']].
  exists inner, inner'.
  split; [assumption | split; [assumption | split]]; apply evaluate_reported; assumption.
Qed.

(** X13 at work: the leaves swapped, one given the priority 5 and the
    fact of the other the priority 9; both rules report [false]. *)
Lemma evaluate_ignores_order_and_priorities_witness :
  valueOf reorderedEngine exampleAlmanac reorderedRoot = Some false
  /\ exists inner inner',
       silent inner /\ silent inner'
       /\ Rule.evaluate listenersReturn (exampleRule staleNode false) exampleAlmanac
          = Some (reported listenersReturn (exampleRule staleNode false) exampleAlmanac
                    staleNode false inner)
       /\ Rule.evaluate listenersReturn reorderedRule exampleAlmanac
          = Some (reported listenersReturn reorderedRule exampleAlmanac
                    reorderedRoot false inner').
Proof.
  apply (evaluate_ignores_order_and_priorities listenersReturn
           (exampleRule staleNode false) reorderedRule exampleAlmanac
           (exampleEngine false) reorderedEngine staleNode reorderedRoot false);
    try reflexivity.
  apply (similar_boolean All _
           [Condition.Leaf "a" "equal" (Num (Int 1)) None;
            Condition.Leaf "b" "equal" (Num (Int 0)) (Some 5)]).
  - repeat constructor.
  - apply perm_swap.
Defined.

(** ** Prioritizing twice *)

Lemma StronglySorted_gt_unique (l l' : list Z) :
  StronglySorted Z.gt l -> StronglySorted Z.gt l' ->
  (forall x, In x l <-> In x l') -> l = l'.
Proof.
  intros Hl. revert l'. induction Hl as [|a l Hsorted IH Ha]; intros l' Hl' Hsame.
  - destruct l' as [|b l']; [reflexivity|].
    exfalso. apply (proj2 (Hsame b)). left. reflexivity.
  - destruct Hl' as [|b l' Hsorted' Hb].
    + exfalso. apply (proj1 (Hsame a)). left. reflexivity.
    + rewrite Forall_forall in Ha, Hb.
      assert (Hab : a = b).
      { destruct (proj1 (Hsame a) (or_introl eq_refl)) as [Heq|Hin]; [auto|].
        destruct (proj2 (Hsame b) (or_introl eq_refl)) as [Heq|Hin']; [auto|].
        specialize (Ha _ Hin'). specialize (Hb _ Hin). lia. }
      subst b. f_equal. apply IH; [assumption|].
      intros x. split; intros Hx.
      * destruct (proj1 (Hsame x) (or_intror Hx)) as [Heq|Hin]; [|assumption].
        specialize (Ha _ Hx). lia.
      * destruct (proj2 (Hsame x) (or_intror Hx)) as [Heq|Hin]; [|assumption].
        specialize (Hb _ Hx). lia.
Qed.

Lemma tierOf_concat (engine : option Engine) (tiers : list (list Condition.t)) (p : Z) :
  tierOf engine (List.concat tiers) p = List.concat (map (fun tier => tierOf engine tier p) tiers).
Proof.
  unfold tierOf. induction tiers as [|tier tiers IH]; [reflexivity|].
  cbn [List.concat map]. rewrite filter_app, IH. reflexivity.
Qed.

Lemma tierOf_tierOf (engine : option Engine) (conditions : list Condition.t) (q p : Z) :
  tierOf engine (tierOf engine conditions q) p
  = if q =? p then tierOf engine conditions q else [].
Proof.
  unfold tierOf. induction conditions as [|c conditions IH].
  - destruct (q =? p); reflexivity.
  - simpl. destruct (Z.eqb_spec (Rule.tierPriority engine c) q) as [Hq|Hq].
    + simpl. rewrite IH. subst q.
      destruct (Rule.tierPriority engine c =? p); reflexivity.
    + exact IH.
Qed.

Lemma concat_pick (tier : Z -> list Condition.t) (priorities : list Z) (p : Z) :
  NoDup priorities -> In p priorities ->
  List.concat (map (fun q => if q =? p then tier q else []) priorities) = tier p.
Proof.
  induction 1 as [|q priorities Hnotin Hnodup IH]; [intros []|].
  cbn [map List.concat]. intros [->|Hin].
  - rewrite Z.eqb_refl.
    assert (Hrest : List.concat (map (fun q => if q =? p then tier q else []) priorities) = []).
    { clear - Hnotin. induction priorities as [|q priorities IH]; [reflexivity|].
      cbn [map List.concat]. destruct (Z.eqb_spec q p) as [->|_].
      - exfalso. apply Hnotin. left. reflexivity.
      - apply IH. intros Hin. apply Hnotin. right. assumption. }
    rewrite Hrest. apply app_nil_r.
  - destruct (Z.eqb_spec q p) as [->|_]; [contradiction|]. apply IH. assumption.
Qed.

(** X14: prioritizing is idempotent: the tiers laid end to end are
    prioritized into the same tiers. *)
Theorem prioritizeConditions_idempotent (this : Rule.t) (conditions : list Condition.t) :
  Rule.prioritizeConditions this (List.concat (Rule.prioritizeConditions this conditions))
  = Rule.prioritizeConditions this conditions.
Proof.
  pose proof (prioritizeConditions_permutation this conditions) as Hperm.
  destruct (prioritizeConditions_tiers this conditions) as [ps [Hsorted [Hkeys Heq]]].
  destruct (prioritizeConditions_tiers this
              (List.concat (Rule.prioritizeConditions this conditions)))
    as [ps' [Hsorted' [Hkeys' Heq']]].
  rewrite Heq'.
  assert (Hps : ps' = ps).
  { apply StronglySorted_gt_unique; try assumption.
    intros p. rewrite Hkeys', Hkeys. split; intros [c [Hc Hp]]; exists c; (split; [|assumption]).
    - eapply Permutation_in; eassumption.
    - eapply Permutation_in; [apply Permutation_sym|]; eassumption. }
  rewrite Hps, Heq. apply map_ext_in. intros p Hp.
  rewrite tierOf_concat, map_map.
  rewrite (map_ext _ (fun q => if q =? p then tierOf (Rule.engine this) conditions q else []))
    by (intros q; apply tierOf_tierOf).
  apply (concat_pick (tierOf (Rule.engine this) conditions)).
  - apply StronglySorted_gt_NoDup. assumption.
  - assumption.
Qed.

(** ** Tolerated facts never fail a rule *)

Lemma allSome_total (f : Condition.t -> option bool) (children : list Condition.t) :
  (forall c, In c children -> exists b, f c = Some b) ->
  exists values, allSome (map f children) = Some values.
Proof.
  induction children as [|c children IH]; intros Hall; simpl.
  - eexists. reflexivity.
  - destruct (Hall c (or_introl eq_refl)) as [b ->].
    destruct IH as [values ->]; [intros x Hx; apply Hall; right; assumption|].
    eexists. reflexivity.
Qed.

Lemma operatorsOf_child (operator : BooleanOperator) (children : list Condition.t)
    (p : option Z) (c : Condition.t) (o : string) :
  In c children -> In o (operatorsOf c) ->
  In o (operatorsOf (Condition.Boolean operator children p)).
Proof. intros Hc Ho. simpl. apply in_flat_map. exists c. split; assumption. Qed.

Lemma valueOf_total (e : Engine) (almanac : Almanac) (c : Condition.t) :
  allowUndefinedFacts e = true ->
  (forall o, In o (operatorsOf c) ->
             exists f, operators e o = Some f /\ forall a b, exists r, f a b = Normal r) ->
  (forall fact err, In fact (factsOf c) -> almanac fact = Rejected err ->
                    isUndefinedFact err = true) ->
  exists b, valueOf e almanac c = Some b.
Proof.
  intros Hallow.
  induction c as [fact o v p|operator children p IH] using Condition_nested_ind;
    intros Hknown Halmanac.
  - simpl. unfold leafValue, Condition.evaluate.
    destruct (almanac fact) as [lhs|err] eqn:Hfact.
    + destruct (Hknown o (or_introl eq_refl)) as [f [-> Hf]].
      destruct (Hf lhs v) as [r ->]. eexists. reflexivity.
    + rewrite Hallow, (Halmanac fact err (or_introl eq_refl) Hfact). eexists. reflexivity.
  - simpl. destruct (allSome_total (valueOf e almanac) children) as [values ->].
    + rewrite Forall_forall in IH. intros c Hc. apply IH; [assumption| |].
      * intros o Ho. apply Hknown. eapply operatorsOf_child; eassumption.
      * intros fact err Hfact. apply Halmanac. eapply factsOf_child; eassumption.
    + eexists. reflexivity.
Qed.

(** X15: under an engine that allows undefined facts, a rule whose
    comparators are all known to the engine and do not throw, evaluated
    against an almanac that fails on undefined facts only, is never
    rejected by its conditions: the root operation resolves with a
    boolean; [evaluate] tells the listeners of that result and resolves
    with a report of it, unless a listener throws. *)
Theorem evaluate_tolerating_undefined_facts_resolves
    (listen : Listening) (this : Rule.t) (almanac : Almanac) (e : Engine)
    (operator : BooleanOperator) (children : list Condition.t) (p : option Z) :
  Rule.engine this = Some e ->
  allowUndefinedFacts e = true ->
  Rule.conditions this = Some (Condition.Boolean operator children p) ->
  (forall o, In o (operatorsOf (Condition.Boolean operator children p)) ->
             exists f, operators e o = Some f /\ forall a b, exists r, f a b = Normal r) ->
  (forall fact err, In fact (factsOf (Condition.Boolean operator children p)) ->
                    almanac fact = Rejected err -> isUndefinedFact err = true) ->
  exists b inner,
    silent inner
    /\ Rule.prioritizeAndRun this (evaluateNode this almanac) children operator
       = Some (Resolved (Some b), inner)
    /\ Rule.evaluate listen this almanac
       = Some (reported listen this almanac (Condition.Boolean operator children p) b inner).
Proof.
  intros He Hallow Hroot Hknown Halmanac.
  destruct (valueOf_total e almanac _ Hallow Hknown Halmanac) as [b Hvalue].
  destruct (prioritizeAndRun_valueOf this almanac e He operator children p b Hvalue)
    as [inner [Hsilent Hrun]].
  exists b, inner. split; [assumption | split; [assumption|]].
  apply evaluate_reported; assumption.
Qed.

Lemma equal_returns (a b : Value) : exists r, equal a b = Normal r.
Proof.
  unfold equal. destruct a as [| | |[x|]| | | |]; try (eexists; reflexivity).
  destruct b as [| | |[y|]| | | |]; eexists; reflexivity.
Qed.

Lemma greaterThanInclusive_returns (a b : Value) :
  exists r, greaterThanInclusive a b = Normal r.
Proof.
  unfold greaterThanInclusive. destruct a as [| | |[x|]| | | |]; try (eexists; reflexivity).
  destruct b as [| | |[y|]| | | |]; eexists; reflexivity.
Qed.

(** X15 at work: the fact [missing] is not known to the almanac, yet the
    conditions of the rule resolve. *)
Lemma evaluate_tolerating_undefined_facts_resolves_witness :
  exists b inner,
    silent inner
    /\ Rule.prioritizeAndRun tolerantRule (evaluateNode tolerantRule exampleAlmanac)
         [Condition.Leaf "missing" "equal" (Num (Int 1)) None;
          Condition.Boolean All [Condition.Leaf "age" "greaterThanInclusive"
                                   (Num (Int 18)) None] None] Any
       = Some (Resolved (Some b), inner)
    /\ Rule.evaluate listenersReturn tolerantRule exampleAlmanac
       = Some (reported listenersReturn tolerantRule exampleAlmanac
                 (Condition.Boolean Any
                    [Condition.Leaf "missing" "equal" (Num (Int 1)) None;
                     Condition.Boolean All [Condition.Leaf "age" "greaterThanInclusive"
                                              (Num (Int 18)) None] None] None)
                 b inner).
Proof.
  apply (evaluate_tolerating_undefined_facts_resolves
           listenersReturn tolerantRule exampleAlmanac (exampleEngine true));
    try reflexivity.
  - simpl. intros o [Ho|[Ho|[]]]; rewrite <- Ho.
    + exists equal. split; [reflexivity | exact equal_returns].
    + exists greaterThanInclusive.
      split; [reflexivity | exact greaterThanInclusive_returns].
  - simpl. intros fact err [Hfact|[Hfact|[]]]; rewrite <- Hfact.
    + intros [= <-]. reflexivity.
    + discriminate.
Defined.
